(** * CustomStreamTopQ: the profile store, the slide selector and the
      liveness tracker of [src/index.tsx], embedded as state-passing
      functions, and the properties of the specification checked on them.

    Conventions of the embedding.
    - A JavaScript [number] used as an index, a size or a time stamp is a
      [Z]; JavaScript's [%] is [Z.rem] (the sign follows the dividend).
    - An array is a list. An array of the source that can be read or
      written outside its bounds keeps slots of type [option _], where
      [None] is JavaScript's [undefined].
    - [Map<string, Profile>] keeps insertion order, as the source iterates
      over it when it serialises the profiles: it is an association list.
    - The durable [DataStore] is a finite map from keys to stored values,
      together with the history of the writes made to it.
    - Module-level [let] variables of the source are the fields of
      [State]; every function takes the state and returns the new one.
      An [async] function is run to completion as one step; only the
      section on uploads that overlap runs a handler in several turns.
    - [Date.now()] and the values of [Math.floor(Math.random() * n)] are
      inputs of the functions that read them. *)

From Stdlib Require Import ZArith Lia.
From stdpp Require Import gmap strings list pretty.

Local Open Scope Z_scope.

(** * The embedding of the program *)

(** ** JavaScript arrays *)

Module JsArray.

(** [a[i]] on an array whose slots may be [undefined]. *)
Definition getSlot {A} (a : list (option A)) (i : Z) : option A :=
  if i <? 0 then None else mjoin (a !! Z.to_nat i).

(** [a[i] = v] for [0 <= i]: inside the bounds the slot is overwritten,
    beyond them the array is extended with empty slots up to [i]. *)
Definition setSlot {A} (i : nat) (v : option A) (a : list (option A))
  : list (option A) :=
  if decide (i < length a)%nat then <[i := v]> a
  else a ++ replicate (i - length a) None ++ [v].

(** [a.length] *)
Definition len {A} (a : list A) : Z := Z.of_nat (length a).

(** [a.splice(i, 1)] for [0 <= i]: nothing is removed beyond the end. *)
Definition splice1 {A} (i : Z) (a : list A) : list A :=
  delete (Z.to_nat i) a.

(** [[a[i], a[j]] = [a[j], a[i]]] on an array that the caller has
    checked to contain both positions. *)
Definition swap {A} (i j : Z) (a : list A) : list A :=
  match a !! Z.to_nat i, a !! Z.to_nat j with
  | Some x, Some y => <[Z.to_nat j := x]> (<[Z.to_nat i := y]> a)
  | _, _ => a
  end.

(** The same destructuring assignment on an array that was not checked:
    the right-hand side is read first (giving [undefined] outside the
    bounds), then position [i] and position [j] are written in turn. *)
Definition swapSlots {A} (i j : Z) (a : list (option A)) : list (option A) :=
  let x := getSlot a i in
  let y := getSlot a j in
  setSlot (Z.to_nat j) x (setSlot (Z.to_nat i) y a).

End JsArray.

(** ** JavaScript [Map] with string keys, in insertion order *)

Module JsMap.

Definition t (V : Type) : Type := list (string * V).

Definition empty {V} : t V := [].

Fixpoint get {V} (k : string) (m : t V) : option V :=
  match m with
  | [] => None
  | (k', v) :: rest => if decide (k = k') then Some v else get k rest
  end.

(** [m.set(k, v)]: an existing key keeps its position. *)
Fixpoint set {V} (k : string) (v : V) (m : t V) : t V :=
  match m with
  | [] => [(k, v)]
  | (k', v') :: rest =>
      if decide (k = k') then (k', v) :: rest else (k', v') :: set k v rest
  end.

Definition values {V} (m : t V) : list V := map snd m.

(** [m.has(k)] *)
Definition has {V} (k : string) (m : t V) : bool :=
  match get k m with Some _ => true | None => false end.

(** [m.delete(k)] *)
Fixpoint delete {V} (k : string) (m : t V) : t V :=
  match m with
  | [] => []
  | (k', v) :: rest =>
      if decide (k = k') then delete k rest else (k', v) :: delete k rest
  end.

(** [m.size] *)
Definition size {V} (m : t V) : Z := Z.of_nat (length m).

End JsMap.

(** ** Data model *)

Definition DATASTORE_KEY : string := "CustomStreamTopQ_ImageData".

Definition DATASTORE_KEY_SLIDESHOW : string := "CustomStreamTopQ_Slideshow".

Definition DATASTORE_KEY_INDEX : string := "CustomStreamTopQ_SlideIndex".

Definition DATASTORE_KEY_PROFILES : string := "CustomStreamTopQ_Profiles".

Definition MAX_IMAGES : Z := 50.

Definition MAX_IMAGES_PER_PROFILE : Z := 50.

Definition MAX_PROFILES : Z := 5.

Definition DEFAULT_PROFILE_ID : string := "default".

(** A [Blob]: its content type and its bytes. *)
Module Blob.
Record t := mk { type : string; bytes : list Z }.
End Blob.

(** A [File] handed over by the browser: a blob with a size. *)
Module File.
Record t := mk { type : string; size : Z; content : list Z }.
End File.

Module Profile.
Record t := mk {
  id : string;
  name : string;
  images : list Blob.t;
  dataUris : list (option string);
  currentIndex : Z
}.
Definition with_currentIndex (v : Z) (p : t) : t :=
  mk (id p) (name p) (images p) (dataUris p) v.
End Profile.

Module StoredImageData.
Record t := mk { type : string; data : list Z }.
End StoredImageData.

Module SlideshowData.
Record t := mk { images : list StoredImageData.t }.
End SlideshowData.

Module StoredProfile.
Record t := mk {
  id : string;
  name : string;
  images : list StoredImageData.t;
  currentIndex : Z
}.
End StoredProfile.

Module StoredProfilesData.
Record t := mk {
  profiles : list StoredProfile.t;
  activeProfileId : string
}.
End StoredProfilesData.

Module Settings.
Record t := mk {
  replaceEnabled : bool;
  slideshowEnabled : bool;
  slideshowRandom : bool;
  showInfoBadges : bool
}.
End Settings.

(** ** The durable store *)

(** What a key of the store can hold. [DOther] stands for a value of any
    other shape: the loader finds none of the fields it looks for in it. *)
Inductive DsValue :=
| DProfiles (d : StoredProfilesData.t)
| DSlideshow (d : SlideshowData.t)
| DNumber (n : Z)
| DOther.

Inductive DsWrite :=
| WSet (key : string) (v : DsValue)
| WDel (key : string).

Module DataStore.
Record t := mk {
  contents : gmap string DsValue;
  (** the writes made so far, oldest first *)
  history : list DsWrite
}.
Definition get (key : string) (s : t) : option DsValue := contents s !! key.
Definition set (key : string) (v : DsValue) (s : t) : t :=
  mk (<[key := v]> (contents s)) (history s ++ [WSet key v]).
Definition del (key : string) (s : t) : t :=
  mk (delete key (contents s)) (history s ++ [WDel key]).
End DataStore.

(** ** Module state *)

(** [string | null], also holding the [undefined] that an out-of-bounds
    read of [cachedDataUris] yields. *)
Inductive Uri :=
| UNull
| UUndefined
| UStr (s : string).

Definition uriOf (v : option string) : Uri :=
  match v with Some s => UStr s | None => UUndefined end.

Record State := mkState {
  profiles : JsMap.t Profile.t;
  activeProfileId : string;
  cachedImages : list Blob.t;
  cachedDataUris : list (option string);
  currentSlideIndex : Z;
  lastSlideChangeTime : Z;
  isStreamActive : bool;
  manualSlideChange : bool;
  actualStreamImageUri : Uri;
  settings : Settings.t;
  store : DataStore.t
}.

Definition set_profiles (v : JsMap.t Profile.t) (st : State) : State :=
  mkState v (activeProfileId st) (cachedImages st) (cachedDataUris st)
    (currentSlideIndex st) (lastSlideChangeTime st) (isStreamActive st)
    (manualSlideChange st) (actualStreamImageUri st) (settings st) (store st).

Definition set_activeProfileId (v : string) (st : State) : State :=
  mkState (profiles st) v (cachedImages st) (cachedDataUris st)
    (currentSlideIndex st) (lastSlideChangeTime st) (isStreamActive st)
    (manualSlideChange st) (actualStreamImageUri st) (settings st) (store st).

Definition set_cache (imgs : list Blob.t) (uris : list (option string))
    (idx : Z) (st : State) : State :=
  mkState (profiles st) (activeProfileId st) imgs uris
    idx (lastSlideChangeTime st) (isStreamActive st)
    (manualSlideChange st) (actualStreamImageUri st) (settings st) (store st).

Definition set_currentSlideIndex (v : Z) (st : State) : State :=
  mkState (profiles st) (activeProfileId st) (cachedImages st) (cachedDataUris st)
    v (lastSlideChangeTime st) (isStreamActive st)
    (manualSlideChange st) (actualStreamImageUri st) (settings st) (store st).

Definition set_lastSlideChangeTime (v : Z) (st : State) : State :=
  mkState (profiles st) (activeProfileId st) (cachedImages st) (cachedDataUris st)
    (currentSlideIndex st) v (isStreamActive st)
    (manualSlideChange st) (actualStreamImageUri st) (settings st) (store st).

Definition set_isStreamActive (v : bool) (st : State) : State :=
  mkState (profiles st) (activeProfileId st) (cachedImages st) (cachedDataUris st)
    (currentSlideIndex st) (lastSlideChangeTime st) v
    (manualSlideChange st) (actualStreamImageUri st) (settings st) (store st).

Definition set_manualSlideChange (v : bool) (st : State) : State :=
  mkState (profiles st) (activeProfileId st) (cachedImages st) (cachedDataUris st)
    (currentSlideIndex st) (lastSlideChangeTime st) (isStreamActive st)
    v (actualStreamImageUri st) (settings st) (store st).

Definition set_actualStreamImageUri (v : Uri) (st : State) : State :=
  mkState (profiles st) (activeProfileId st) (cachedImages st) (cachedDataUris st)
    (currentSlideIndex st) (lastSlideChangeTime st) (isStreamActive st)
    (manualSlideChange st) v (settings st) (store st).

Definition set_settings (v : Settings.t) (st : State) : State :=
  mkState (profiles st) (activeProfileId st) (cachedImages st) (cachedDataUris st)
    (currentSlideIndex st) (lastSlideChangeTime st) (isStreamActive st)
    (manualSlideChange st) (actualStreamImageUri st) v (store st).

Definition set_store (v : DataStore.t) (st : State) : State :=
  mkState (profiles st) (activeProfileId st) (cachedImages st) (cachedDataUris st)
    (currentSlideIndex st) (lastSlideChangeTime st) (isStreamActive st)
    (manualSlideChange st) (actualStreamImageUri st) (settings st) v.

(** The part of the state of [ImagePickerModal] that its handlers read or
    write besides what they display. *)
Record Modal := mkModal {
  currentProfileId : string;
  pendingIndex : Z;
  pluginEnabled : bool;
  slideshowOn : bool;
  randomOn : bool;
  error : string
}.

Definition setError (v : string) (m : Modal) : Modal :=
  mkModal (currentProfileId m) (pendingIndex m) (pluginEnabled m)
    (slideshowOn m) (randomOn m) v.

Definition setPendingIndex (v : Z) (m : Modal) : Modal :=
  mkModal (currentProfileId m) v (pluginEnabled m)
    (slideshowOn m) (randomOn m) (error m).

Definition setCurrentProfileId (v : string) (m : Modal) : Modal :=
  mkModal v (pendingIndex m) (pluginEnabled m)
    (slideshowOn m) (randomOn m) (error m).

(** What [initialSettingsRef] holds: the settings, the slide index and
    the active profile as they are when the gallery is opened. *)
Module InitialSettings.
Record t := mk {
  enabled : bool;
  slideshowEnabled : bool;
  slideshowRandom : bool;
  slideIndex : Z;
  activeProfileId : string
}.
End InitialSettings.

(** ** Conversions between stored images and blobs *)

(** [new Uint8Array(img.data)]: every number is taken modulo 256. *)
Definition toUint8Array (data : list Z) : list Z :=
  map (fun z => z mod 256) data.

(** [new Blob([new Uint8Array(img.data)], { type: img.type })] *)
Definition blobOfStored (img : StoredImageData.t) : Blob.t :=
  Blob.mk (StoredImageData.type img) (toUint8Array (StoredImageData.data img)).

(** [{ type: blob.type, data: Array.from(new Uint8Array(arrayBuffer)) }] *)
Definition storedOfBlob (blob : Blob.t) : StoredImageData.t :=
  StoredImageData.mk (Blob.type blob) (Blob.bytes blob).

Definition storedOfProfile (profile : Profile.t) : StoredProfile.t :=
  StoredProfile.mk (Profile.id profile) (Profile.name profile)
    (map storedOfBlob (Profile.images profile))
    (Profile.currentIndex profile).

Definition defaultProfile : Profile.t :=
  Profile.mk DEFAULT_PROFILE_ID "Default" [] [] 0.

(** ** Browser services *)

(** The browser services the plugin calls: [blobToDataUrl] reads a blob
    as a data URL through [FileReader] (reading a blob held in memory is
    taken not to fail); [processImage] redraws a file on a 1280x720
    canvas and re-encodes it, and fails ([None]) when the file cannot be
    decoded or encoded. *)
Record Browser := mkBrowser {
  blobToDataUrl : Blob.t -> string;
  processImage : File.t -> option Blob.t
}.

(** ** Profile store *)

(** [getActiveProfile]: the profile registered under [activeProfileId];
    when there is none a fresh default profile is registered and
    returned. The first component is the key under which the returned
    object sits in [profiles], where later writes to it land. *)
Definition getActiveProfile (st : State) : string * Profile.t * State :=
  match JsMap.get (activeProfileId st) (profiles st) with
  | Some profile => (activeProfileId st, profile, st)
  | None =>
      (DEFAULT_PROFILE_ID, defaultProfile,
       set_profiles (JsMap.set DEFAULT_PROFILE_ID defaultProfile (profiles st)) st)
  end.

(** A write to the fields of the profile object registered under [key]. *)
Definition putProfile (key : string) (profile : Profile.t) (st : State) : State :=
  set_profiles (JsMap.set key profile (profiles st)) st.

(** [syncCacheWithActiveProfile]. In the source the two cache variables
    refer to the very arrays of the profile; here they hold copies. The
    functions below that change those arrays in place ([addImage],
    [deleteImageAtIndex], [moveImage]) all synchronise the cache before
    they return, so a copy and the array it stands for agree whenever one
    of them has returned. *)
Definition syncCacheWithActiveProfile (st : State) : State :=
  let '(_, profile, st1) := getActiveProfile st in
  set_cache (Profile.images profile) (Profile.dataUris profile)
    (Profile.currentIndex profile) st1.

(** [saveProfilesToDataStore]: every profile of the map, in its order, is
    serialised and written under the multi-profile key; then the cache is
    synchronised. ([notifyImageChange] only refreshes what the panel
    button displays.) *)
Definition saveProfilesToDataStore (st : State) : State :=
  let storedProfiles := map storedOfProfile (JsMap.values (profiles st)) in
  let data := StoredProfilesData.mk storedProfiles (activeProfileId st) in
  let st1 :=
    set_store (DataStore.set DATASTORE_KEY_PROFILES (DProfiles data) (store st)) st in
  syncCacheWithActiveProfile st1.

Definition saveSlideIndex (index : Z) (st : State) : State :=
  let '(key, profile, st1) := getActiveProfile st in
  let st2 := putProfile key (Profile.with_currentIndex index profile) st1 in
  let st3 := set_currentSlideIndex index st2 in
  saveProfilesToDataStore st3.

(** [loadSlideIndex]: the legacy index, 0 unless a number is stored. *)
Definition loadSlideIndex (st : State) : Z :=
  match DataStore.get DATASTORE_KEY_INDEX (store st) with
  | Some (DNumber index) => index
  | _ => 0
  end.

Definition deleteImageAtIndex (index : Z) (st : State) : State :=
  let '(key, profile, st1) := getActiveProfile st in
  if (index <? 0) || (index >=? JsArray.len (Profile.images profile)) then st1
  else
    let images := JsArray.splice1 index (Profile.images profile) in
    let dataUris := JsArray.splice1 index (Profile.dataUris profile) in
    let currentIndex :=
      if Profile.currentIndex profile >=? JsArray.len images then 0
      else Profile.currentIndex profile in
    let profile' :=
      Profile.mk (Profile.id profile) (Profile.name profile)
        images dataUris currentIndex in
    saveProfilesToDataStore
      (syncCacheWithActiveProfile (putProfile key profile' st1)).

Definition moveImage (fromIndex toIndex : Z) (st : State) : State :=
  let '(key, profile, st1) := getActiveProfile st in
  if fromIndex =? toIndex then st1
  else if (fromIndex <? 0) || (fromIndex >=? JsArray.len (Profile.images profile))
  then st1
  else if (toIndex <? 0) || (toIndex >=? JsArray.len (Profile.images profile))
  then st1
  else
    let images := JsArray.swap fromIndex toIndex (Profile.images profile) in
    let dataUris := JsArray.swapSlots fromIndex toIndex (Profile.dataUris profile) in
    let currentIndex :=
      if Profile.currentIndex profile =? fromIndex then toIndex
      else if Profile.currentIndex profile =? toIndex then fromIndex
      else Profile.currentIndex profile in
    let profile' :=
      Profile.mk (Profile.id profile) (Profile.name profile)
        images dataUris currentIndex in
    saveProfilesToDataStore
      (syncCacheWithActiveProfile (putProfile key profile' st1)).

Definition addImage (env : Browser) (blob : Blob.t) (st : State) : State :=
  let '(key, profile, st1) := getActiveProfile st in
  let profile' :=
    Profile.mk (Profile.id profile) (Profile.name profile)
      (Profile.images profile ++ [blob])
      (Profile.dataUris profile ++ [Some (blobToDataUrl env blob)])
      (Profile.currentIndex profile) in
  saveProfilesToDataStore
    (syncCacheWithActiveProfile (putProfile key profile' st1)).

(** ** Loading and migration *)

Definition profileOfStored (env : Browser) (stored : StoredProfile.t) : Profile.t :=
  let blobs := map blobOfStored (StoredProfile.images stored) in
  Profile.mk (StoredProfile.id stored) (StoredProfile.name stored)
    blobs (map (fun blob => Some (blobToDataUrl env blob)) blobs)
    (StoredProfile.currentIndex stored).

(** The test [data?.profiles?.length] on what the multi-profile key
    holds: the record, when it lists at least one profile. *)
Definition withProfiles (data : option DsValue) : option StoredProfilesData.t :=
  match data with
  | Some (DProfiles data) =>
      match StoredProfilesData.profiles data with
      | _ :: _ => Some data
      | [] => None
      end
  | _ => None
  end.

(** The test [oldData?.images?.length] on what the legacy key holds: the
    record, when it lists at least one image. *)
Definition withImages (oldData : option DsValue) : option SlideshowData.t :=
  match oldData with
  | Some (DSlideshow oldData) =>
      match SlideshowData.images oldData with
      | _ :: _ => Some oldData
      | [] => None
      end
  | _ => None
  end.

(** [loadProfilesFromDataStore]. With a total [blobToDataUrl] and
    well-shaped stored values no step of the [try] block throws, so the
    [catch] block is not reached. *)
Definition loadProfilesFromDataStore (env : Browser) (st : State) : State :=
  let loaded :=
    match withProfiles (DataStore.get DATASTORE_KEY_PROFILES (store st)) with
    | Some data =>
        let registered :=
          fold_left
            (fun m stored =>
               JsMap.set (StoredProfile.id stored) (profileOfStored env stored) m)
            (StoredProfilesData.profiles data) JsMap.empty in
        let active :=
          if decide (StoredProfilesData.activeProfileId data = "")
          then DEFAULT_PROFILE_ID
          else StoredProfilesData.activeProfileId data in
        set_activeProfileId active (set_profiles registered st)
    | None =>
        match withImages (DataStore.get DATASTORE_KEY_SLIDESHOW (store st)) with
        | Some oldData =>
            let blobs := map blobOfStored (SlideshowData.images oldData) in
            let dataUris := map (fun blob => Some (blobToDataUrl env blob)) blobs in
            let oldIndex := loadSlideIndex st in
            let st1 :=
              set_profiles
                (JsMap.set DEFAULT_PROFILE_ID
                   (Profile.mk DEFAULT_PROFILE_ID "Default" blobs dataUris oldIndex)
                   (profiles st)) st in
            let st2 := set_activeProfileId DEFAULT_PROFILE_ID st1 in
            let st3 := saveProfilesToDataStore st2 in
            let st4 :=
              set_store (DataStore.del DATASTORE_KEY_SLIDESHOW (store st3)) st3 in
            let st5 :=
              set_store (DataStore.del DATASTORE_KEY_INDEX (store st4)) st4 in
            set_store (DataStore.del DATASTORE_KEY (store st5)) st5
        | None =>
            set_activeProfileId DEFAULT_PROFILE_ID
              (set_profiles
                 (JsMap.set DEFAULT_PROFILE_ID defaultProfile (profiles st)) st)
        end
    end in
  syncCacheWithActiveProfile loaded.

(** The state of the module when it is first evaluated, over a given
    durable store and the default settings. *)
Definition initialState (s : DataStore.t) : State :=
  mkState JsMap.empty DEFAULT_PROFILE_ID [] [] 0 0 false false UNull
    (Settings.mk true false false true) s.

(** [start()] *)
Definition start (env : Browser) (st : State) : State :=
  let st1 := syncCacheWithActiveProfile (loadProfilesFromDataStore env st) in
  let '(_, _, st2) := getActiveProfile st1 in
  st2.

(** [stop()] *)
Definition stop (st : State) : State :=
  mkState JsMap.empty DEFAULT_PROFILE_ID [] [] 0 0 false false
    (actualStreamImageUri st) (settings st) (store st).

(** ** Slide selector *)

(** The [do ... while] loop of the random branch: [draws] are the
    successive values of [Math.floor(Math.random() * n)]. [None] when the
    loop has not ended within the draws given. *)
Fixpoint drawNextIndex (current n : Z) (draws : list Z) : option Z :=
  match draws with
  | [] => None
  | nextIndex :: rest =>
      if (nextIndex =? current) && (n >? 1)
      then drawNextIndex current n rest
      else Some nextIndex
  end.

(** [getCustomThumbnail(originalThumbnail)], called at time [now].
    In the last branch [saveSlideIndex] is started and not awaited: the
    value returned is read from the cache as it is before that save has
    completed, and the state returned is the one after it has. *)
Definition getCustomThumbnail (originalThumbnail : string) (now : Z)
    (draws : list Z) (st0 : State) : option (Uri * State) :=
  let st := set_isStreamActive true st0 in
  let n := JsArray.len (cachedDataUris st) in
  if negb (Settings.replaceEnabled (settings st)) || (n =? 0) then
    Some (UStr originalThumbnail, set_actualStreamImageUri UNull st)
  else if (n =? 1) || negb (Settings.slideshowEnabled (settings st)) then
    let idx := if currentSlideIndex st <? n then currentSlideIndex st else 0 in
    let shown := uriOf (JsArray.getSlot (cachedDataUris st) idx) in
    Some (shown,
          set_actualStreamImageUri shown (set_lastSlideChangeTime now st))
  else if manualSlideChange st then
    let shown := uriOf (JsArray.getSlot (cachedDataUris st) (currentSlideIndex st)) in
    Some (shown,
          set_actualStreamImageUri shown
            (set_lastSlideChangeTime now (set_manualSlideChange false st)))
  else
    let next :=
      if Settings.slideshowRandom (settings st)
      then drawNextIndex (currentSlideIndex st) n draws
      else Some (Z.rem (currentSlideIndex st + 1) n) in
    match next with
    | None => None
    | Some nextIndex =>
        let shown := uriOf (JsArray.getSlot (cachedDataUris st) nextIndex) in
        let st1 :=
          set_actualStreamImageUri shown
            (set_lastSlideChangeTime now (set_currentSlideIndex nextIndex st)) in
        Some (shown, saveSlideIndex nextIndex st1)
    end.

(** ** Liveness tracker *)

(** The callback of the one-second [setInterval], run at time [now]. *)
Definition timerInterval (now : Z) (st : State) : State :=
  if isStreamActive st && (lastSlideChangeTime st >? 0)
     && (now - lastSlideChangeTime st >? 420000)
  then set_isStreamActive false st
  else st.

(** ** Handlers of the gallery *)

(** [profiles.get(currentProfileId) || getActiveProfile()] *)
Definition modalProfile (m : Modal) (st : State) : Profile.t * State :=
  match JsMap.get (currentProfileId m) (profiles st) with
  | Some profile => (profile, st)
  | None => let '(_, profile, st1) := getActiveProfile st in (profile, st1)
  end.

(** [loadImages]: of what it sets, [pendingIndex] is kept here. *)
Definition loadImages (m : Modal) (st : State) : Modal * State :=
  let '(profile, st1) := modalProfile m st in
  (setPendingIndex (Profile.currentIndex profile) m, st1).

(** The [for] loop of the two upload handlers, which differ in the files
    they skip ([skips]) and in the constant that their message quotes
    ([limit]). The boolean returned tells whether [processImage] threw,
    which ends the loop and the [try] block. *)
Fixpoint addFiles (env : Browser) (skips : File.t -> bool) (limit : Z)
    (remaining : Z) (files : list File.t) (added : Z) (m : Modal) (st : State)
    : bool * Z * Modal * State :=
  match files with
  | [] => (false, added, m, st)
  | file :: rest =>
      if added >=? remaining then
        (false, added,
         setError ("Added " +:+ pretty added +:+ ". Limit of "
                   +:+ pretty limit +:+ " reached!") m, st)
      else if skips file then
        addFiles env skips limit remaining rest added m st
      else if File.size file >? 8 * 1024 * 1024 then
        addFiles env skips limit remaining rest added m st
      else
        match processImage env file with
        | None => (true, added, m, st)
        | Some processedBlob =>
            addFiles env skips limit remaining rest (added + 1) m
              (addImage env processedBlob st)
        end
  end.

(** [!file.type.startsWith("image/") || file.type === "image/gif"] *)
Definition droppedFileSkipped (file : File.t) : bool :=
  negb (String.prefix "image/" (File.type file))
  || bool_decide (File.type file = "image/gif").

(** [file.type === "image/gif" || file.type.startsWith("video/")] *)
Definition selectedFileSkipped (file : File.t) : bool :=
  bool_decide (File.type file = "image/gif")
  || String.prefix "video/" (File.type file).

Definition handleDroppedFiles (env : Browser) (files : list File.t)
    (m : Modal) (st : State) : Modal * State :=
  let '(profile, st1) := modalProfile m st in
  let remaining := MAX_IMAGES_PER_PROFILE - JsArray.len (Profile.images profile) in
  if remaining <=? 0 then
    (setError ("Limit of " +:+ pretty MAX_IMAGES_PER_PROFILE
               +:+ " images reached!") m, st1)
  else
    let '(threw, _, m1, st2) :=
      addFiles env droppedFileSkipped MAX_IMAGES remaining files 0
        (setError "" m) st1 in
    if threw then (setError "File processing error" m1, st2)
    else loadImages m1 st2.

(** The [onchange] handler that [handleFileSelect] installs, run on the
    files that were picked. *)
Definition handleFileSelect (env : Browser) (files : list File.t)
    (m : Modal) (st : State) : Modal * State :=
  match files with
  | [] => (m, st)
  | _ :: _ =>
      let '(profile, st1) := modalProfile m st in
      let remaining :=
        MAX_IMAGES_PER_PROFILE - JsArray.len (Profile.images profile) in
      if remaining <=? 0 then
        (setError ("Limit of " +:+ pretty MAX_IMAGES_PER_PROFILE
                   +:+ " images reached!") m, st1)
      else
        let '(threw, _, m1, st2) :=
          addFiles env selectedFileSkipped MAX_IMAGES_PER_PROFILE remaining
            files 0 (setError "" m) st1 in
        if threw then (setError "File processing error" m1, st2)
        else loadImages m1 st2
  end.

Definition handleSave (m : Modal) (st : State) : State :=
  let st1 :=
    set_settings
      (Settings.mk (pluginEnabled m) (slideshowOn m) (randomOn m)
         (Settings.showInfoBadges (settings st))) st in
  let st2 :=
    if pendingIndex m =? currentSlideIndex st1
    then st1 else set_manualSlideChange true st1 in
  let st3 := set_currentSlideIndex (pendingIndex m) st2 in
  saveSlideIndex (pendingIndex m) st3.

(** ** Profiles *)

(** The identifier that [createProfile] makes up, [now] being the value
    of [Date.now()] and [suffix] that of
    [Math.random().toString(36).substr(2, 9)]. *)
Definition newProfileId (now : Z) (suffix : string) : string :=
  "profile_" +:+ pretty now +:+ "_" +:+ suffix.

(** [createProfile(name)]; the result is [None] for [null]. *)
Definition createProfile (now : Z) (suffix name : string) (st : State)
    : option Profile.t * State :=
  if JsMap.size (profiles st) >=? MAX_PROFILES then (None, st)
  else
    let id := newProfileId now suffix in
    let profile := Profile.mk id name [] [] 0 in
    (Some profile, set_profiles (JsMap.set id profile (profiles st)) st).

Definition deleteProfile (profileId : string) (st : State) : bool * State :=
  match JsMap.get profileId (profiles st) with
  | None => (false, st)
  | Some profile =>
      if JsArray.len (Profile.images profile) >? 0 then (false, st)
      else if decide (profileId = DEFAULT_PROFILE_ID) then (false, st)
      else
        let st1 := set_profiles (JsMap.delete profileId (profiles st)) st in
        if decide (activeProfileId st1 = profileId) then
          (true,
           syncCacheWithActiveProfile
             (set_activeProfileId DEFAULT_PROFILE_ID st1))
        else (true, st1)
  end.

Definition renameProfile (profileId newName : string) (st : State)
    : bool * State :=
  match JsMap.get profileId (profiles st) with
  | None => (false, st)
  | Some profile =>
      (true,
       putProfile profileId
         (Profile.mk (Profile.id profile) newName (Profile.images profile)
            (Profile.dataUris profile) (Profile.currentIndex profile)) st)
  end.

Definition setActiveProfile (profileId : string) (st : State) : bool * State :=
  if JsMap.has profileId (profiles st) then
    (true, syncCacheWithActiveProfile (set_activeProfileId profileId st))
  else (false, st).

Definition getProfileList (st : State) : list Profile.t :=
  JsMap.values (profiles st).

(** ** The rest of the gallery store *)

Definition saveImagesToDataStore (env : Browser) (blobs : list Blob.t)
    (st : State) : State :=
  let '(key, profile, st1) := getActiveProfile st in
  let profile' :=
    Profile.mk (Profile.id profile) (Profile.name profile) blobs
      (map (fun blob => Some (blobToDataUrl env blob)) blobs)
      (Profile.currentIndex profile) in
  saveProfilesToDataStore
    (syncCacheWithActiveProfile (putProfile key profile' st1)).

Definition deleteAllImages (st : State) : State :=
  let '(key, profile, st1) := getActiveProfile st in
  let profile' :=
    Profile.mk (Profile.id profile) (Profile.name profile) [] [] 0 in
  saveProfilesToDataStore
    (syncCacheWithActiveProfile (putProfile key profile' st1)).

Definition getImageCount (st : State) : Z := JsArray.len (cachedImages st).

(** ** Text *)

(** A string is the sequence of its UTF-16 code units, which are taken
    to lie below 256. Among those, the white space and the line
    terminators that [trim] removes are the code units 9 to 13, 32 and
    160. *)
Definition isWhiteSpace (c : Strings.Ascii.ascii) : bool :=
  let n := Strings.Ascii.nat_of_ascii c in
  ((9 <=? n) && (n <=? 13))%nat || (n =? 32)%nat || (n =? 160)%nat.

Fixpoint trimStart (s : string) : string :=
  match s with
  | EmptyString => EmptyString
  | String c rest => if isWhiteSpace c then trimStart rest else s
  end.

Fixpoint trimEnd (s : string) : string :=
  match s with
  | EmptyString => EmptyString
  | String c rest =>
      match trimEnd rest with
      | EmptyString =>
          if isWhiteSpace c then EmptyString else String c EmptyString
      | kept => String c kept
      end
  end.

(** [s.trim()] *)
Definition trim (s : string) : string := trimEnd (trimStart s).

(** [s.length] *)
Definition strLength (s : string) : Z := Z.of_nat (String.length s).

(** ** Handlers of the profile bar *)

(** [handleProfileSwitch(profileId)] *)
Definition handleProfileSwitch (profileId : string) (m : Modal) (st : State)
    : Modal * State :=
  let '(_, st1) := setActiveProfile profileId st in
  let m1 := setCurrentProfileId profileId m in
  match JsMap.get profileId (profiles st1) with
  | Some profile => (setPendingIndex (Profile.currentIndex profile) m1, st1)
  | None => (m1, st1)
  end.

(** [handleCreateProfile], [newProfileName] being the text typed in. *)
Definition handleCreateProfile (now : Z) (suffix newProfileName : string)
    (m : Modal) (st : State) : Modal * State :=
  if bool_decide (trim newProfileName = "") then
    (setError "Enter profile name" m, st)
  else if strLength (trim newProfileName) >? 40 then
    (setError "Profile name too long (max 40 characters)" m, st)
  else if JsMap.size (profiles st) >=? MAX_PROFILES then
    (setError ("Maximum " +:+ pretty MAX_PROFILES +:+ " profiles allowed") m, st)
  else
    match createProfile now suffix (trim newProfileName) st with
    | (None, st1) =>
        (setError ("Maximum " +:+ pretty MAX_PROFILES +:+ " profiles allowed") m,
         st1)
    | (Some profile, st1) =>
        handleProfileSwitch (Profile.id profile) m (saveProfilesToDataStore st1)
    end.

(** [handleDeleteProfile(profileId)] up to the alert it shows: the
    boolean tells whether the confirmation is asked for. *)
Definition handleDeleteProfile (profileId : string) (m : Modal) (st : State)
    : Modal * bool :=
  match JsMap.get profileId (profiles st) with
  | None => (m, false)
  | Some profile =>
      if JsArray.len (Profile.images profile) >? 0 then
        (setError "Delete all images first!" m, false)
      else if decide (profileId = DEFAULT_PROFILE_ID) then
        (setError "Cannot delete default profile" m, false)
      else (m, true)
  end.

(** The [onConfirm] callback of that alert. *)
Definition handleDeleteProfile_onConfirm (profileId : string) (m : Modal)
    (st : State) : Modal * State :=
  let '(_, st1) := deleteProfile profileId st in
  let st2 := saveProfilesToDataStore st1 in
  if decide (currentProfileId m = profileId)
  then handleProfileSwitch DEFAULT_PROFILE_ID m st2
  else (m, st2).

(** [handleRenameProfile(profileId)], [editingProfileName] being the
    text typed in. *)
Definition handleRenameProfile (profileId editingProfileName : string)
    (m : Modal) (st : State) : Modal * State :=
  if bool_decide (trim editingProfileName = "") then (m, st)
  else if strLength (trim editingProfileName) >? 40 then
    (setError "Profile name too long (max 40 characters)" m, st)
  else
    let '(_, st1) := renameProfile profileId (trim editingProfileName) st in
    (m, saveProfilesToDataStore st1).

(** ** The other handlers of the gallery *)

(** [handleDelete(index)] *)
Definition handleDelete (index : Z) (m : Modal) (st : State) : Modal * State :=
  let st1 := deleteImageAtIndex index st in
  let '(profile, st2) := modalProfile m st1 in
  let count := JsArray.len (Profile.images profile) in
  let m1 :=
    if (pendingIndex m >=? count) && (count >? 0)
    then setPendingIndex (count - 1) m
    else if count =? 0 then setPendingIndex 0 m
    else m in
  loadImages m1 st2.

(** [handleClearAll] up to the alert it shows: whether the confirmation
    is asked for. *)
Definition handleClearAll (m : Modal) (st : State) : bool :=
  match JsMap.get (currentProfileId m) (profiles st) with
  | None => false
  | Some profile => negb (JsArray.len (Profile.images profile) =? 0)
  end.

(** The [onConfirm] callback of that alert. *)
Definition handleClearAll_onConfirm (m : Modal) (st : State) : Modal * State :=
  (setPendingIndex 0 m, deleteAllImages st).

Definition handleSelectCurrent (index : Z) (m : Modal) : Modal :=
  setPendingIndex index m.

Definition togglePlugin (m : Modal) : Modal :=
  mkModal (currentProfileId m) (pendingIndex m) (negb (pluginEnabled m))
    (slideshowOn m) (randomOn m) (error m).

Definition toggleSlideshow (m : Modal) : Modal :=
  mkModal (currentProfileId m) (pendingIndex m) (pluginEnabled m)
    (negb (slideshowOn m)) (randomOn m) (error m).

Definition toggleRandom (m : Modal) : Modal :=
  mkModal (currentProfileId m) (pendingIndex m) (pluginEnabled m)
    (slideshowOn m) (negb (randomOn m)) (error m).

(** [handleImageDrop(e, toIndex)], [draggedIndex] being the image that
    is dragged, if any. *)
Definition handleImageDrop (draggedIndex : option Z) (toIndex : Z)
    (m : Modal) (st : State) : Modal * State :=
  match draggedIndex with
  | None => (m, st)
  | Some dragged =>
      if dragged =? toIndex then (m, st)
      else
        let newPendingIndex :=
          if pendingIndex m =? dragged then toIndex
          else if (dragged <? pendingIndex m) && (toIndex >=? pendingIndex m)
          then pendingIndex m - 1
          else if (dragged >? pendingIndex m) && (toIndex <=? pendingIndex m)
          then pendingIndex m + 1
          else pendingIndex m in
        let st1 := moveImage dragged toIndex st in
        loadImages (setPendingIndex newPendingIndex m) st1
  end.

(** [getNextIndex()], [images] being the data URLs that the gallery
    displays. *)
Definition getNextIndex (images : list string) (m : Modal) : Z :=
  if (JsArray.len images <=? 1) || negb (slideshowOn m) then -1
  else if randomOn m then -1
  else Z.rem (pendingIndex m + 1) (JsArray.len images).

(** ** Opening and closing the gallery *)

Definition initialSettingsRef (st : State) : InitialSettings.t :=
  InitialSettings.mk
    (Settings.replaceEnabled (settings st))
    (Settings.slideshowEnabled (settings st))
    (Settings.slideshowRandom (settings st))
    (currentSlideIndex st) (activeProfileId st).


(** The clean-up of the first effect, run when the gallery is closed;
    [saved] is [savedRef.current]. *)
Definition rollback (saved : bool) (init : InitialSettings.t) (st : State)
    : State :=
  if saved then st
  else
    let st1 :=
      set_settings
        (Settings.mk (InitialSettings.enabled init)
           (InitialSettings.slideshowEnabled init)
           (InitialSettings.slideshowRandom init)
           (Settings.showInfoBadges (settings st))) st in
    let st2 := set_currentSlideIndex (InitialSettings.slideIndex init) st1 in
    (setActiveProfile (InitialSettings.activeProfileId init) st2).2.

(** ** Display of a duration *)

(** The padding that [padStart] puts in front: [n] characters taken from
    [padString], repeated as often as needed ([rest] is what is left of
    the current copy). *)
Fixpoint padding (n : nat) (padString rest : string) : string :=
  match n with
  | O => EmptyString
  | S n' =>
      match rest with
      | String c rest' => String c (padding n' padString rest')
      | EmptyString =>
          match padString with
          | String c rest' => String c (padding n' padString rest')
          | EmptyString => EmptyString
          end
      end
  end.

(** [s.padStart(targetLength, padString)] *)
Definition padStart (targetLength : nat) (padString s : string) : string :=
  padding (targetLength - String.length s) padString padString +:+ s.

(** [formatTime(seconds)], for a whole number of seconds. *)
Definition formatTime (seconds : Z) : string :=
  if seconds <? 60 then pretty seconds +:+ " sec"
  else
    let mins := seconds `div` 60 in
    let secs := Z.rem seconds 60 in
    if secs =? 0 then pretty mins +:+ " min"
    else pretty mins +:+ ":" +:+ padStart 2 "0" (pretty secs).

(** ** Uploads that overlap

    [handleDroppedFiles] is suspended at the [await processImage(file)] of
    its loop, and the drop zone of the gallery accepts a drop meanwhile: a
    second run of the handler can start before the first has ended. The
    functions below run the handler in turns, from one such [await] to
    the next, so that the turns of two runs can alternate; what a turn
    awaits ([processImage], [addImage], [loadImages]) is run to
    completion within the turn. *)

(** A run of [handleDroppedFiles] suspended at [await processImage(file)]:
    the [remaining] it computed when it started, the images it has
    [added], the [file] being processed and the files still to come. *)
Module DropRun.
Record t := mk {
  remaining : Z;
  added : Z;
  file : File.t;
  filesLeft : list File.t;
}.
End DropRun.

(** The loop of [handleDroppedFiles] from its head to the next file that
    it processes, where the run is suspended; when the loop ends first,
    the handler goes on to [loadImages] and returns ([None]). *)
Fixpoint toNextFile (remaining : Z) (files : list File.t) (added : Z)
    (m : Modal) (st : State) : option DropRun.t * Modal * State :=
  match files with
  | [] => let '(m1, st1) := loadImages m st in (None, m1, st1)
  | file :: rest =>
      if added >=? remaining then
        let '(m1, st1) :=
          loadImages
            (setError ("Added " +:+ pretty added +:+ ". Limit of "
                       +:+ pretty MAX_IMAGES +:+ " reached!") m) st in
        (None, m1, st1)
      else if droppedFileSkipped file then
        toNextFile remaining rest added m st
      else if File.size file >? 8 * 1024 * 1024 then
        toNextFile remaining rest added m st
      else (Some (DropRun.mk remaining added file rest), m, st)
  end.

(** The first turn of [handleDroppedFiles]: [remaining] is computed from
    the profile as it is at that moment. *)
Definition beginDrop (files : list File.t) (m : Modal) (st : State)
    : option DropRun.t * Modal * State :=
  let '(profile, st1) := modalProfile m st in
  let remaining := MAX_IMAGES_PER_PROFILE - JsArray.len (Profile.images profile) in
  if remaining <=? 0 then
    (None,
     setError ("Limit of " +:+ pretty MAX_IMAGES_PER_PROFILE
               +:+ " images reached!") m, st1)
  else toNextFile remaining files 0 (setError "" m) st1.

(** A later turn: the image awaited is there (or [processImage] has
    thrown), it is added, and the loop goes on with the [remaining] of the
    first turn. *)
Definition resumeDrop (env : Browser) (run : DropRun.t) (m : Modal) (st : State)
    : option DropRun.t * Modal * State :=
  match processImage env (DropRun.file run) with
  | None => (None, setError "File processing error" m, st)
  | Some processedBlob =>
      toNextFile (DropRun.remaining run) (DropRun.filesLeft run)
        (DropRun.added run + 1) m
        (addImage env processedBlob st)
  end.

(** The turns of one run, taken one after the other until the handler
    returns; [None] when it has not returned within [fuel] turns. *)
Fixpoint completeDrop (env : Browser) (fuel : nat)
    (turn : option DropRun.t * Modal * State) : option (Modal * State) :=
  match turn with
  | (None, m, st) => Some (m, st)
  | (Some run, m, st) =>
      match fuel with
      | O => None
      | S fuel' => completeDrop env fuel' (resumeDrop env run m st)
      end
  end.

(** Two drops that overlap: the second handler starts while the first
    awaits its first image; the first then runs to its end, and the
    second after it. *)
Definition overlappingDrops (env : Browser) (files1 files2 : list File.t)
    (m : Modal) (st : State) : option (Modal * State) :=
  let '(run1, m1, st1) := beginDrop files1 m st in
  let '(run2, m2, st2) := beginDrop files2 m1 st1 in
  match completeDrop env (length files1) (run1, m2, st2) with
  | None => None
  | Some (m3, st3) => completeDrop env (length files2) (run2, m3, st3)
  end.

(** * Notions used to state the properties *)

(** The profile that the code treats as the active one. *)
Definition activeProfile (st : State) : Profile.t :=
  (getActiveProfile st).1.2.

(** The state once [getActiveProfile] has run: the profile map may have
    received a fresh default profile, nothing else differs. *)
Definition afterGetActiveProfile (st : State) : State :=
  (getActiveProfile st).2.

(** The active identifier designates a registered profile. *)
Definition activeRegistered (st : State) : Prop :=
  is_Some (JsMap.get (activeProfileId st) (profiles st)).

(** The invariant of the data model on the current-slide index. *)
Definition indexInBounds (profile : Profile.t) : Prop :=
  0 <= Profile.currentIndex profile /\
  (Profile.images profile <> [] ->
   Profile.currentIndex profile < JsArray.len (Profile.images profile)).

(** What [deleteImageAtIndex] makes of the active profile. *)
Definition deleted (index : Z) (profile : Profile.t) : Profile.t :=
  if (index <? 0) || (index >=? JsArray.len (Profile.images profile))
  then profile
  else
    let images := JsArray.splice1 index (Profile.images profile) in
    Profile.mk (Profile.id profile) (Profile.name profile) images
      (JsArray.splice1 index (Profile.dataUris profile))
      (if Profile.currentIndex profile >=? JsArray.len images then 0
       else Profile.currentIndex profile).

(** What [moveImage] makes of the active profile. *)
Definition moved (fromIndex toIndex : Z) (profile : Profile.t) : Profile.t :=
  if (fromIndex =? toIndex)
     || (fromIndex <? 0) || (fromIndex >=? JsArray.len (Profile.images profile))
     || (toIndex <? 0) || (toIndex >=? JsArray.len (Profile.images profile))
  then profile
  else
    Profile.mk (Profile.id profile) (Profile.name profile)
      (JsArray.swap fromIndex toIndex (Profile.images profile))
      (JsArray.swapSlots fromIndex toIndex (Profile.dataUris profile))
      (if Profile.currentIndex profile =? fromIndex then toIndex
       else if Profile.currentIndex profile =? toIndex then fromIndex
       else Profile.currentIndex profile).

(** The globals that neither the cache synchronisation nor a save
    touches. *)
Definition sameGlobals (st st' : State) : Prop :=
  activeProfileId st' = activeProfileId st /\
  lastSlideChangeTime st' = lastSlideChangeTime st /\
  isStreamActive st' = isStreamActive st /\
  manualSlideChange st' = manualSlideChange st /\
  actualStreamImageUri st' = actualStreamImageUri st /\
  settings st' = settings st.

(** The invocation shows a custom image. *)
Definition showsCustomImage (st : State) : Prop :=
  Settings.replaceEnabled (settings st) = true /\ cachedDataUris st <> [].

(** The invocation shows the selected image without advancing: a single
    image, slideshow off, or a pending manual override. *)
Definition keepsSlide (st : State) : Prop :=
  JsArray.len (cachedDataUris st) = 1
  \/ Settings.slideshowEnabled (settings st) = false
  \/ manualSlideChange st = true.

(** The invocation advances the slideshow. *)
Definition advancesSlide (st : State) : Prop :=
  1 < JsArray.len (cachedDataUris st)
  /\ Settings.slideshowEnabled (settings st) = true
  /\ manualSlideChange st = false.

(** The index that an advancing invocation selects. *)
Definition selectedIndex (draws : list Z) (st : State) : option Z :=
  if Settings.slideshowRandom (settings st)
  then drawNextIndex (currentSlideIndex st)
         (JsArray.len (cachedDataUris st)) draws
  else Some (Z.rem (currentSlideIndex st + 1)
               (JsArray.len (cachedDataUris st))).

(** An invocation persists the slide index [index]: it makes one write to
    the durable store, of a multi-profile record that holds the active
    profile with that index. *)
Definition persistsSlideIndex (index : Z) (st st' : State) : Prop :=
  exists data,
    store st' = DataStore.set DATASTORE_KEY_PROFILES (DProfiles data) (store st) /\
    StoredProfilesData.activeProfileId data = activeProfileId st /\
    storedOfProfile (Profile.with_currentIndex index (activeProfile st))
      ∈ StoredProfilesData.profiles data.

(** Successive invocations of [getCustomThumbnail], each with its payload,
    its time and its random draws; the result lists the current-slide
    index after each invocation. *)
Fixpoint runTriggers (calls : list (string * Z * list Z)) (st : State)
    : option (list Z * State) :=
  match calls with
  | [] => Some ([], st)
  | (originalThumbnail, now, draws) :: rest =>
      match getCustomThumbnail originalThumbnail now draws st with
      | None => None
      | Some (_, st1) =>
          match runTriggers rest st1 with
          | None => None
          | Some (visited, st2) => Some (currentSlideIndex st1 :: visited, st2)
          end
      end
  end.

(** A sequential slideshow over [n] images: replacement and slideshow on,
    random order off, no manual override pending, a current index that is
    not negative, and the cache holding the [n] data URIs of the
    registered active profile. *)
Definition sequentialSlideshow (n : Z) (st : State) : Prop :=
  showsCustomImage st /\
  Settings.slideshowEnabled (settings st) = true /\
  Settings.slideshowRandom (settings st) = false /\
  manualSlideChange st = false /\
  JsArray.len (cachedDataUris st) = n /\
  0 <= currentSlideIndex st /\
  exists profile,
    JsMap.get (activeProfileId st) (profiles st) = Some profile /\
    Profile.dataUris profile = cachedDataUris st.

(** The events that bear on liveness: an invocation of the host trigger,
    a run of the one-second check, a save of the gallery. *)
Inductive Event :=
| Trigger (originalThumbnail : string) (now : Z) (draws : list Z)
| Tick (now : Z)
| Save (m : Modal).

Fixpoint runEvents (events : list Event) (st : State) : option State :=
  match events with
  | [] => Some st
  | Trigger originalThumbnail now draws :: rest =>
      match getCustomThumbnail originalThumbnail now draws st with
      | None => None
      | Some (_, st') => runEvents rest st'
      end
  | Tick now :: rest => runEvents rest (timerInterval now st)
  | Save m :: rest => runEvents rest (handleSave m st)
  end.

(** An upload: files dropped on the gallery, or files picked in the file
    dialog. *)
Inductive Upload :=
| Dropped (files : list File.t)
| Selected (files : list File.t).

Definition handleUpload (env : Browser) (upload : Upload)
    (m : Modal) (st : State) : Modal * State :=
  match upload with
  | Dropped files => handleDroppedFiles env files m st
  | Selected files => handleFileSelect env files m st
  end.

(** Successive uploads, each run to completion before the next one
    starts. *)
Fixpoint handleUploads (env : Browser) (uploads : list Upload)
    (m : Modal) (st : State) : Modal * State :=
  match uploads with
  | [] => (m, st)
  | upload :: rest =>
      let '(m1, st1) := handleUpload env upload m st in
      handleUploads env rest m1 st1
  end.


(** The multi-profile record is absent: the key holds no record with at
    least one profile. *)
Definition multiProfileAbsent (s : DataStore.t) : Prop :=
  forall data,
    DataStore.get DATASTORE_KEY_PROFILES s = Some (DProfiles data) ->
    StoredProfilesData.profiles data = [].

(** The legacy list is present: the key holds a list with at least one
    image. *)
Definition legacyPresent (oldData : SlideshowData.t) (s : DataStore.t) : Prop :=
  DataStore.get DATASTORE_KEY_SLIDESHOW s = Some (DSlideshow oldData) /\
  SlideshowData.images oldData <> [].

(** The legacy list is absent: the key holds no list with at least one
    image. *)
Definition legacyAbsent (s : DataStore.t) : Prop :=
  forall oldData,
    DataStore.get DATASTORE_KEY_SLIDESHOW s = Some (DSlideshow oldData) ->
    SlideshowData.images oldData = [].

(** Stored bytes are bytes. *)
Definition bytesInRange (images : list StoredImageData.t) : Prop :=
  Forall (fun img => Forall (fun z => 0 <= z < 256) (StoredImageData.data img))
    images.

(** ** Calls and invariants of the profile store *)

(** A call of one of the functions that act on the module state. *)
Inductive Call :=
| CallCreateProfile (now : Z) (suffix name : string)
| CallDeleteProfile (profileId : string)
| CallRenameProfile (profileId newName : string)
| CallSetActiveProfile (profileId : string)
| CallSaveSlideIndex (index : Z)
| CallSaveImagesToDataStore (blobs : list Blob.t)
| CallDeleteAllImages
| CallDeleteImageAtIndex (index : Z)
| CallMoveImage (fromIndex toIndex : Z)
| CallAddImage (blob : Blob.t)
| CallGetCustomThumbnail (originalThumbnail : string) (now : Z) (draws : list Z)
| CallTimerInterval (now : Z)
| CallHandleSave (m : Modal).

(** The state that a call leaves; [None] when the random selection has
    not ended within the draws given. *)
Definition perform (env : Browser) (call : Call) (st : State) : option State :=
  match call with
  | CallCreateProfile now suffix name => Some (createProfile now suffix name st).2
  | CallDeleteProfile profileId => Some (deleteProfile profileId st).2
  | CallRenameProfile profileId newName =>
      Some (renameProfile profileId newName st).2
  | CallSetActiveProfile profileId => Some (setActiveProfile profileId st).2
  | CallSaveSlideIndex index => Some (saveSlideIndex index st)
  | CallSaveImagesToDataStore blobs => Some (saveImagesToDataStore env blobs st)
  | CallDeleteAllImages => Some (deleteAllImages st)
  | CallDeleteImageAtIndex index => Some (deleteImageAtIndex index st)
  | CallMoveImage fromIndex toIndex => Some (moveImage fromIndex toIndex st)
  | CallAddImage blob => Some (addImage env blob st)
  | CallGetCustomThumbnail originalThumbnail now draws =>
      snd <$> getCustomThumbnail originalThumbnail now draws st
  | CallTimerInterval now => Some (timerInterval now st)
  | CallHandleSave m => Some (handleSave m st)
  end.

Fixpoint performAll (env : Browser) (calls : list Call) (st : State)
    : option State :=
  match calls with
  | [] => Some st
  | call :: rest =>
      match perform env call st with
      | None => None
      | Some st1 => performAll env rest st1
      end
  end.

(** The data URLs of a profile are those of its images, in order. *)
Definition urisOfImages (env : Browser) (profile : Profile.t) : Prop :=
  Profile.dataUris profile =
    map (fun blob => Some (blobToDataUrl env blob)) (Profile.images profile).

(** The invariant of the profile map: every key is registered once and
    is the identifier of its profile, every profile lists the data URLs
    of its images, the default profile and the active profile are
    registered, and there are at most [MAX_PROFILES] profiles. *)
Record storeInvariant (env : Browser) (st : State) : Prop := mkStoreInvariant {
  keysDistinct : NoDup (map fst (profiles st));
  keysAreIds : Forall (fun entry => Profile.id entry.2 = entry.1) (profiles st);
  urisMatch : Forall (urisOfImages env) (JsMap.values (profiles st));
  defaultRegistered : is_Some (JsMap.get DEFAULT_PROFILE_ID (profiles st));
  activeIsRegistered : activeRegistered st;
  profilesWithinLimit : JsMap.size (profiles st) <= MAX_PROFILES
}.

(** How the mutations of the gallery end: the changed profile is written
    back under the active identifier, the cache is synchronised and the
    collection is saved. *)
Definition commit (profile' : Profile.t) (st : State) : State :=
  saveProfilesToDataStore
    (syncCacheWithActiveProfile (putProfile (activeProfileId st) profile' st)).

(** What [addImage] makes of the active profile. *)
Definition added (env : Browser) (blob : Blob.t) (profile : Profile.t)
    : Profile.t :=
  Profile.mk (Profile.id profile) (Profile.name profile)
    (Profile.images profile ++ [blob])
    (Profile.dataUris profile ++ [Some (blobToDataUrl env blob)])
    (Profile.currentIndex profile).

(** What [deleteAllImages] makes of the active profile. *)
Definition cleared (profile : Profile.t) : Profile.t :=
  Profile.mk (Profile.id profile) (Profile.name profile) [] [] 0.

(** What [saveImagesToDataStore] makes of the active profile. *)
Definition replaced (env : Browser) (blobs : list Blob.t) (profile : Profile.t)
    : Profile.t :=
  Profile.mk (Profile.id profile) (Profile.name profile) blobs
    (map (fun blob => Some (blobToDataUrl env blob)) blobs)
    (Profile.currentIndex profile).

(** What [renameProfile] makes of a profile. *)
Definition renamed (newName : string) (profile : Profile.t) : Profile.t :=
  Profile.mk (Profile.id profile) newName (Profile.images profile)
    (Profile.dataUris profile) (Profile.currentIndex profile).

(** The current-slide index of a profile designates one of its images,
    and it is 0 when there is none. *)
Definition indexValid (profile : Profile.t) : Prop :=
  0 <= Profile.currentIndex profile
    < Z.max 1 (JsArray.len (Profile.images profile)).

(** The invariant of the gallery: every index is valid, and the cache
    holds the images, the data URLs and the index of the active
    profile. *)
Record galleryInvariant (st : State) : Prop := mkGalleryInvariant {
  indicesValid : Forall indexValid (JsMap.values (profiles st));
  cacheHoldsImages : cachedImages st = Profile.images (activeProfile st);
  cacheHoldsUris : cachedDataUris st = Profile.dataUris (activeProfile st);
  cacheHoldsIndex : currentSlideIndex st = Profile.currentIndex (activeProfile st)
}.

(** What the callers of the store see to: an index that is saved
    designates an image of the active profile, the values drawn by
    [Math.floor(Math.random() * n)] lie below [n], and a new identifier
    is not the active one. *)
Definition admissible (call : Call) (st : State) : Prop :=
  let count := JsArray.len (Profile.images (activeProfile st)) in
  match call with
  | CallCreateProfile now suffix _ => newProfileId now suffix <> activeProfileId st
  | CallSaveSlideIndex index => 0 <= index < Z.max 1 count
  | CallHandleSave m => 0 <= pendingIndex m < Z.max 1 count
  | CallSaveImagesToDataStore blobs =>
      Profile.currentIndex (activeProfile st) < Z.max 1 (JsArray.len blobs)
  | CallGetCustomThumbnail _ _ draws =>
      Forall (fun d => 0 <= d < JsArray.len (cachedDataUris st)) draws
  | _ => True
  end.

(** The durable store mirrors the memory: the multi-profile key holds
    the serialisation of the profile map and the active identifier. *)
Definition persisted (st : State) : Prop :=
  DataStore.get DATASTORE_KEY_PROFILES (store st) =
    Some (DProfiles
            (StoredProfilesData.mk
               (map storedOfProfile (JsMap.values (profiles st)))
               (activeProfileId st))).

(** The bytes of every image are bytes. *)
Definition blobsAreBytes (st : State) : Prop :=
  Forall
    (fun profile =>
       Forall (fun blob => Forall (fun z => 0 <= z < 256) (Blob.bytes blob))
         (Profile.images profile))
    (JsMap.values (profiles st)).


(** The text holds nothing but white space. *)
Fixpoint blank (s : string) : bool :=
  match s with
  | EmptyString => true
  | String c rest => isWhiteSpace c && blank rest
  end.





(** Successive runs of the one-second check, at the times given. *)
Definition checks (times : list Z) (st : State) : State :=
  fold_left (fun st now => timerInterval now st) times st.

(** The check that runs at [now] finds the time stamp [stamp] older than
    seven minutes. *)
Definition expired (stamp now : Z) : bool := now - stamp >? 420000.

(** The character is a decimal digit; the text holds only such. *)
Definition isDigit (c : Strings.Ascii.ascii) : bool :=
  match Ascii.is_nat c with Some _ => true | None => false end.

Fixpoint digitsOnly (s : string) : bool :=
  match s with
  | EmptyString => true
  | String c rest => isDigit c && digitsOnly rest
  end.

(** The text starts with a character that is not a digit. *)
Definition startsWithoutDigit (s : string) : bool :=
  match s with
  | EmptyString => false
  | String c _ => negb (isDigit c)
  end.

(** What the user does in the gallery, each gesture running the handler
    named; for the two handlers that ask for a confirmation, the gesture
    is the confirmation. *)
Inductive Gesture :=
| OnProfileSwitch (profileId : string)
| OnCreateProfile (now : Z) (suffix newProfileName : string)
| OnDeleteProfileConfirmed (profileId : string)
| OnRenameProfile (profileId editingProfileName : string)
| OnUpload (upload : Upload)
| OnDelete (index : Z)
| OnClearAllConfirmed
| OnImageDrop (draggedIndex : option Z) (toIndex : Z)
| OnSelectCurrent (index : Z)
| OnTogglePlugin
| OnToggleSlideshow
| OnToggleRandom
| OnSave.

Definition handle (env : Browser) (gesture : Gesture) (m : Modal) (st : State)
    : Modal * State :=
  match gesture with
  | OnProfileSwitch profileId => handleProfileSwitch profileId m st
  | OnCreateProfile now suffix newProfileName =>
      handleCreateProfile now suffix newProfileName m st
  | OnDeleteProfileConfirmed profileId =>
      handleDeleteProfile_onConfirm profileId m st
  | OnRenameProfile profileId editingProfileName =>
      handleRenameProfile profileId editingProfileName m st
  | OnUpload upload => handleUpload env upload m st
  | OnDelete index => handleDelete index m st
  | OnClearAllConfirmed => handleClearAll_onConfirm m st
  | OnImageDrop draggedIndex toIndex => handleImageDrop draggedIndex toIndex m st
  | OnSelectCurrent index => (handleSelectCurrent index m, st)
  | OnTogglePlugin => (togglePlugin m, st)
  | OnToggleSlideshow => (toggleSlideshow m, st)
  | OnToggleRandom => (toggleRandom m, st)
  | OnSave => (m, handleSave m st)
  end.

Fixpoint handleAll (env : Browser) (gestures : list Gesture)
    (m : Modal) (st : State) : Modal * State :=
  match gestures with
  | [] => (m, st)
  | gesture :: rest =>
      let '(m1, st1) := handle env gesture m st in
      handleAll env rest m1 st1
  end.

(** * Concrete runs *)

(** A data URL that spells out the bytes of the blob. *)
Definition exampleDataUrl (blob : Blob.t) : string :=
  "data:" +:+ Blob.type blob +:+ ";bytes,"
    +:+ String.concat "," (map pretty (Blob.bytes blob)).

(** Re-encoding as JPEG; a file without content cannot be decoded. *)
Definition exampleProcessImage (file : File.t) : option Blob.t :=
  match File.content file with
  | [] => None
  | _ => Some (Blob.mk "image/jpeg" (File.content file))
  end.

Definition exampleBrowser : Browser :=
  mkBrowser exampleDataUrl exampleProcessImage.

Definition picture (n : Z) : Blob.t := Blob.mk "image/jpeg" [n].

Definition emptyStore : DataStore.t := DataStore.mk ∅ [].

(** The plugin started on an empty store. *)
Definition freshState : State := start exampleBrowser (initialState emptyStore).

(** One image, then three images, added to the default profile. *)
Definition gallery1 : State := addImage exampleBrowser (picture 1) freshState.

Definition gallery3 : State :=
  addImage exampleBrowser (picture 3)
    (addImage exampleBrowser (picture 2) gallery1).


(** The gallery saved with the slide [pending] picked and the switches
    given. *)
Definition savedGallery (pending : Z) (slideshow random : bool) : State :=
  handleSave (mkModal DEFAULT_PROFILE_ID pending true slideshow random "")
    gallery3.

(** A store left by the single-list version: two images, index 1. *)
Definition legacyStore : DataStore.t :=
  DataStore.mk
    (<[DATASTORE_KEY_SLIDESHOW :=
         DSlideshow
           (SlideshowData.mk
              [StoredImageData.mk "image/jpeg" [255; 216; 255];
               StoredImageData.mk "image/png" [137; 80]])]>
       (<[DATASTORE_KEY_INDEX := DNumber 1]>
          (<[DATASTORE_KEY := DOther]> ∅)))
    [].

(** A multi-profile record whose index lies beyond its three images. *)
Definition staleIndexStore : DataStore.t :=
  DataStore.mk
    {[DATASTORE_KEY_PROFILES :=
        DProfiles
          (StoredProfilesData.mk
             [StoredProfile.mk DEFAULT_PROFILE_ID "Default"
                [StoredImageData.mk "image/jpeg" [1];
                 StoredImageData.mk "image/jpeg" [2];
                 StoredImageData.mk "image/jpeg" [3]] 7]
             DEFAULT_PROFILE_ID)]}
    [].

Definition droppedFiles : list File.t :=
  [File.mk "image/png" 1024 [1]; File.mk "image/gif" 10 [2];
   File.mk "image/jpeg" 2048 [3]].

Definition galleryModal : Modal :=
  mkModal DEFAULT_PROFILE_ID 0 true false false "".

(** The gallery saved with replacement switched off. *)
Definition replacementOff : Modal :=
  mkModal DEFAULT_PROFILE_ID 0 false false false "".

(** A second profile, without images, beside the default one. *)
Definition workProfileId : string := newProfileId 1000 "k3x9q2m1p".

Definition twoProfiles : State :=
  (createProfile 1000 "k3x9q2m1p" "Work" gallery3).2.

(** Calls of the store, and the state they lead to from [gallery3]. *)
Definition exampleCalls : list Call :=
  [CallCreateProfile 1000 "k3x9q2m1p" "Work";
   CallSetActiveProfile workProfileId;
   CallAddImage (picture 9);
   CallRenameProfile workProfileId "Games";
   CallSetActiveProfile DEFAULT_PROFILE_ID;
   CallMoveImage 0 2;
   CallDeleteImageAtIndex 1;
   CallGetCustomThumbnail "live" 1000 [];
   CallTimerInterval 2000].

Definition afterExampleCalls : State :=
  timerInterval 2000
    (set_actualStreamImageUri (UStr "data:image/jpeg;bytes,3")
       (set_lastSlideChangeTime 1000
          (set_isStreamActive true
             (deleteImageAtIndex 1
                (moveImage 0 2
                   (setActiveProfile DEFAULT_PROFILE_ID
                      (renameProfile workProfileId "Games"
                         (addImage exampleBrowser (picture 9)
                            (setActiveProfile workProfileId twoProfiles).2)).2).2))))).

(** The gallery with the third image picked and the slideshow on. *)
Definition slideshowModal : Modal :=
  mkModal DEFAULT_PROFILE_ID 2 true true false "".

(** Files of an upload: the second is a video, the fourth cannot be
    decoded. *)
Definition selectedFiles : list File.t :=
  [File.mk "image/png" 1024 [4]; File.mk "video/mp4" 10 [5];
   File.mk "image/webp" 2048 [6]; File.mk "image/jpeg" 512 [];
   File.mk "image/jpeg" 512 [7]].

(** Gestures in the gallery. *)
Definition exampleGestures : list Gesture :=
  [OnCreateProfile 1000 "k3x9q2m1p" "  Work ";
   OnUpload (Selected selectedFiles);
   OnImageDrop (Some 0) 1;
   OnDelete 0;
   OnProfileSwitch DEFAULT_PROFILE_ID;
   OnRenameProfile workProfileId "Games";
   OnSelectCurrent 1;
   OnToggleSlideshow;
   OnSave].


(** The gallery saved on its first slide: with replacement on, with
    replacement off. *)
Definition firstSlide : Modal :=
  mkModal DEFAULT_PROFILE_ID 0 true true false "".

Definition firstSlideOff : Modal :=
  mkModal DEFAULT_PROFILE_ID 0 false true false "".

(** Picks of the third and of the second slide, in random order. *)
Definition pickThird : Modal :=
  mkModal DEFAULT_PROFILE_ID 2 true true true "".

Definition pickSecond : Modal :=
  mkModal DEFAULT_PROFILE_ID 1 true true true "".

(** Forty-nine images in the default profile. *)
Definition almostFullGallery : State :=
  Nat.iter 49 (addImage exampleBrowser (picture 7)) freshState.

(** * Proof automation *)

(** Two keys of the durable store differ. *)
Ltac distinct_keys :=
  let H := fresh in intros H; vm_compute in H; discriminate H.

(** Closes a goal between concrete values by evaluation. *)
Ltac evaluate := vm_compute; first [reflexivity | exact I | discriminate | done].

(** Proves a decidable property of concrete values by evaluation. *)
Ltac decide_by_evaluation := apply (bool_decide_unpack _); vm_compute; exact I.

(** Shows that a concrete state displays a custom image. *)
Ltac shows_custom_image := split; [evaluate | vm_compute; discriminate].

(** Shows that the active profile of a concrete state is registered. *)
Ltac active_registered :=
  unfold activeRegistered; vm_compute; eexists; reflexivity.

(** Checks the two invariants on a concrete state. *)
Ltac store_invariant :=
  split;
  [ decide_by_evaluation
  | decide_by_evaluation
  | unfold urisOfImages; decide_by_evaluation
  | vm_compute; eexists; reflexivity
  | active_registered
  | evaluate ].

Ltac gallery_invariant :=
  split; [unfold indexValid; decide_by_evaluation | evaluate..].

(** * Properties of the program *)

Section Properties.

Context (env : Browser).

(** ** Association maps and arrays *)

Lemma JsMap_get_set_eq {V} (k : string) (v : V) (m : JsMap.t V) :
  JsMap.get k (JsMap.set k v m) = Some v.
Proof.
  induction m as [|[k' v'] m IH]; simpl.
  - by rewrite decide_True.
  - destruct (decide (k = k')) as [->|Hne]; simpl.
    + by rewrite decide_True.
    + by rewrite decide_False.
Qed.

Lemma JsMap_get_set_ne {V} (k k' : string) (v : V) (m : JsMap.t V) :
  k <> k' -> JsMap.get k' (JsMap.set k v m) = JsMap.get k' m.
Proof.
  intros Hne. induction m as [|[k0 v0] m IH]; simpl.
  - rewrite decide_False; [done | congruence].
  - destruct (decide (k = k0)) as [->|Hk]; simpl.
    + rewrite !decide_False; [done | congruence | congruence].
    + destruct (decide (k' = k0)); [done | apply IH].
Qed.

Lemma JsMap_set_values {V} (k : string) (v : V) (m : JsMap.t V) :
  v ∈ JsMap.values (JsMap.set k v m).
Proof.
  unfold JsMap.values. induction m as [|[k' v'] m IH]; simpl.
  - apply list_elem_of_here.
  - destruct (decide (k = k')); simpl.
    + apply list_elem_of_here.
    + by apply list_elem_of_further.
Qed.

Lemma JsMap_set_Forall {V} (P : V -> Prop) k v (m : JsMap.t V) :
  Forall P (JsMap.values m) -> P v -> Forall P (JsMap.values (JsMap.set k v m)).
Proof.
  unfold JsMap.values. intros Hm Hv.
  induction m as [|[k' v'] m IH]; simpl.
  - by constructor.
  - apply Forall_cons in Hm as [Hv' Hm].
    destruct (decide (k = k')); simpl; constructor; auto.
Qed.

Lemma JsMap_get_Forall {V} (P : V -> Prop) k v (m : JsMap.t V) :
  Forall P (JsMap.values m) -> JsMap.get k m = Some v -> P v.
Proof.
  unfold JsMap.values.
  induction m as [|[k' v'] m IH]; simpl; [done|].
  intros [Hv' Hm]%Forall_cons.
  destruct (decide (k = k')); [by intros [= <-] | by apply IH].
Qed.

Lemma len_nonneg {A} (a : list A) : 0 <= JsArray.len a.
Proof. unfold JsArray.len. lia. Qed.

Lemma len_splice1 {A} (i : Z) (a : list A) :
  0 <= i < JsArray.len a ->
  JsArray.len (JsArray.splice1 i a) = JsArray.len a - 1.
Proof.
  unfold JsArray.len, JsArray.splice1. intros H.
  rewrite length_delete; [lia|].
  apply lookup_lt_is_Some. lia.
Qed.

Lemma len_swap {A} (i j : Z) (a : list A) :
  JsArray.len (JsArray.swap i j a) = JsArray.len a.
Proof.
  unfold JsArray.len, JsArray.swap.
  destruct (a !! Z.to_nat i), (a !! Z.to_nat j); try done.
  by rewrite !length_insert.
Qed.

Lemma len_zero_nil {A} (a : list A) : JsArray.len a = 0 <-> a = [].
Proof.
  unfold JsArray.len. destruct a; simpl; split; intros H; try done; lia.
Qed.

(** ** The active profile *)

Lemma getActiveProfile_registered st profile :
  JsMap.get (activeProfileId st) (profiles st) = Some profile ->
  getActiveProfile st = (activeProfileId st, profile, st).
Proof. intros H. unfold getActiveProfile. by rewrite H. Qed.

Lemma activeProfile_eq st :
  activeProfile st =
    match JsMap.get (activeProfileId st) (profiles st) with
    | Some profile => profile
    | None => defaultProfile
    end.
Proof.
  unfold activeProfile, getActiveProfile.
  by destruct (JsMap.get _ _).
Qed.

(** [getActiveProfile] leaves everything but the profile map as it was,
    and it leaves the map as it was when the active profile is
    registered. *)
Lemma afterGetActiveProfile_fields st :
  let st1 := afterGetActiveProfile st in
  activeProfileId st1 = activeProfileId st /\
  cachedImages st1 = cachedImages st /\
  cachedDataUris st1 = cachedDataUris st /\
  currentSlideIndex st1 = currentSlideIndex st /\
  lastSlideChangeTime st1 = lastSlideChangeTime st /\
  isStreamActive st1 = isStreamActive st /\
  manualSlideChange st1 = manualSlideChange st /\
  actualStreamImageUri st1 = actualStreamImageUri st /\
  settings st1 = settings st /\
  store st1 = store st.
Proof.
  unfold afterGetActiveProfile, getActiveProfile.
  destruct (JsMap.get _ _); simpl; repeat split.
Qed.

Lemma afterGetActiveProfile_registered st :
  activeRegistered st -> afterGetActiveProfile st = st.
Proof.
  intros [profile H]. unfold afterGetActiveProfile.
  by rewrite (getActiveProfile_registered _ _ H).
Qed.

Lemma activeProfile_afterGet st :
  activeProfile (afterGetActiveProfile st) = activeProfile st.
Proof.
  rewrite !activeProfile_eq. unfold afterGetActiveProfile, getActiveProfile.
  destruct (JsMap.get (activeProfileId st) (profiles st)) as [p|] eqn:E; simpl.
  - by rewrite E.
  - destruct (decide (DEFAULT_PROFILE_ID = activeProfileId st)) as [Hd|Hd].
    + rewrite <- Hd. by rewrite JsMap_get_set_eq.
    + rewrite JsMap_get_set_ne; [by rewrite E | done].
Qed.

(** Writing [profile'] to the object obtained from [getActiveProfile]:
    the next [getActiveProfile] finds it, unless the active identifier is
    neither registered nor the default one, in which case a fresh default
    profile is returned again. *)
Lemma activeProfile_put st key profile st1 profile' :
  getActiveProfile st = (key, profile, st1) ->
  activeProfile (putProfile key profile' st1) =
    if bool_decide (activeRegistered st \/ activeProfileId st = DEFAULT_PROFILE_ID)
    then profile' else defaultProfile.
Proof.
  unfold getActiveProfile, activeRegistered.
  destruct (JsMap.get (activeProfileId st) (profiles st)) as [p|] eqn:E;
    intros [= <- <- <-].
  - rewrite bool_decide_eq_true_2; [|left; eauto].
    rewrite activeProfile_eq. simpl. by rewrite JsMap_get_set_eq.
  - rewrite activeProfile_eq. simpl.
    destruct (decide (activeProfileId st = DEFAULT_PROFILE_ID)) as [Hd|Hd].
    + rewrite bool_decide_eq_true_2; [|by right].
      rewrite Hd. by rewrite JsMap_get_set_eq.
    + rewrite bool_decide_eq_false_2.
      * rewrite !JsMap_get_set_ne; [by rewrite E | congruence | congruence].
      * intros [[? ?]|?]; [congruence | done].
Qed.

Lemma activeProfile_sync st :
  activeProfile (syncCacheWithActiveProfile st) = activeProfile st.
Proof.
  unfold syncCacheWithActiveProfile.
  pose proof (activeProfile_afterGet st) as H.
  unfold afterGetActiveProfile in H.
  destruct (getActiveProfile st) as [[key profile] st1]. simpl in *.
  rewrite <- H. by rewrite !activeProfile_eq.
Qed.

Lemma activeProfile_save st :
  activeProfile (saveProfilesToDataStore st) = activeProfile st.
Proof.
  unfold saveProfilesToDataStore. rewrite activeProfile_sync.
  by rewrite !activeProfile_eq.
Qed.

(** The three mutations of the profile store end alike: the changed
    profile is written back, the cache is synchronised and the collection
    is saved. *)
Lemma activeProfile_commit st key profile st1 profile' :
  getActiveProfile st = (key, profile, st1) ->
  activeProfile
    (saveProfilesToDataStore
       (syncCacheWithActiveProfile (putProfile key profile' st1))) =
    if bool_decide (activeRegistered st \/ activeProfileId st = DEFAULT_PROFILE_ID)
    then profile' else defaultProfile.
Proof.
  intros H. rewrite activeProfile_save, activeProfile_sync.
  by eapply activeProfile_put.
Qed.

(** ** What the save operations change *)

Lemma sameGlobals_trans st1 st2 st3 :
  sameGlobals st1 st2 -> sameGlobals st2 st3 -> sameGlobals st1 st3.
Proof.
  unfold sameGlobals. intros (?&?&?&?&?&?) (?&?&?&?&?&?).
  repeat split; congruence.
Qed.

Lemma sync_sameGlobals st :
  sameGlobals st (syncCacheWithActiveProfile st) /\
  store (syncCacheWithActiveProfile st) = store st.
Proof.
  unfold syncCacheWithActiveProfile, getActiveProfile.
  destruct (JsMap.get _ _); simpl; by repeat split.
Qed.

Lemma save_sameGlobals st :
  sameGlobals st (saveProfilesToDataStore st).
Proof.
  unfold saveProfilesToDataStore.
  eapply sameGlobals_trans; [|apply sync_sameGlobals]. by repeat split.
Qed.

Lemma save_store st :
  store (saveProfilesToDataStore st) =
    DataStore.set DATASTORE_KEY_PROFILES
      (DProfiles
         (StoredProfilesData.mk
            (map storedOfProfile (JsMap.values (profiles st)))
            (activeProfileId st)))
      (store st).
Proof.
  unfold saveProfilesToDataStore.
  by rewrite (proj2 (sync_sameGlobals _)).
Qed.

(** [saveSlideIndex] on a registered active profile, field by field. *)
Lemma saveSlideIndex_registered index st profile :
  JsMap.get (activeProfileId st) (profiles st) = Some profile ->
  let profiles' :=
    JsMap.set (activeProfileId st)
      (Profile.with_currentIndex index profile) (profiles st) in
  saveSlideIndex index st =
    mkState profiles' (activeProfileId st)
      (Profile.images profile) (Profile.dataUris profile) index
      (lastSlideChangeTime st) (isStreamActive st) (manualSlideChange st)
      (actualStreamImageUri st) (settings st)
      (DataStore.set DATASTORE_KEY_PROFILES
         (DProfiles
            (StoredProfilesData.mk
               (map storedOfProfile (JsMap.values profiles'))
               (activeProfileId st)))
         (store st)).
Proof.
  intros H. unfold saveSlideIndex.
  rewrite (getActiveProfile_registered _ _ H).
  unfold saveProfilesToDataStore, syncCacheWithActiveProfile, getActiveProfile.
  simpl. by rewrite JsMap_get_set_eq.
Qed.

(** [saveSlideIndex] in general: one write to the durable store, holding
    the active profile with the index given. *)
Lemma saveSlideIndex_persists index st :
  sameGlobals st (saveSlideIndex index st) /\
  exists data,
    store (saveSlideIndex index st) =
      DataStore.set DATASTORE_KEY_PROFILES (DProfiles data) (store st) /\
    StoredProfilesData.activeProfileId data = activeProfileId st /\
    storedOfProfile (Profile.with_currentIndex index (activeProfile st))
      ∈ StoredProfilesData.profiles data.
Proof.
  unfold saveSlideIndex, activeProfile.
  pose proof (afterGetActiveProfile_fields st) as Hf.
  unfold afterGetActiveProfile in Hf.
  destruct (getActiveProfile st) as [[key profile] st1]. simpl in *.
  destruct Hf as (Ha & _ & _ & _ & Hl & Hs & Hm & Hu & Hset & Hstore).
  split.
  - eapply sameGlobals_trans; [|apply save_sameGlobals].
    unfold sameGlobals. simpl. by rewrite Ha, Hl, Hs, Hm, Hu, Hset.
  - eexists. rewrite save_store. simpl. rewrite Hstore, Ha.
    split; [done|]. split; [done|]. simpl.
    apply list_elem_of_fmap_2. apply JsMap_set_values.
Qed.

(** ** The branches of [getCustomThumbnail] *)

Lemma showsCustomImage_guard st :
  showsCustomImage st ->
  negb (Settings.replaceEnabled (settings st))
    || (JsArray.len (cachedDataUris st) =? 0) = false.
Proof.
  intros [-> Hne]. simpl. apply Z.eqb_neq. by rewrite len_zero_nil.
Qed.

Lemma getCustomThumbnail_single originalThumbnail now draws st :
  showsCustomImage st ->
  JsArray.len (cachedDataUris st) = 1
    \/ Settings.slideshowEnabled (settings st) = false ->
  let idx :=
    if currentSlideIndex st <? JsArray.len (cachedDataUris st)
    then currentSlideIndex st else 0 in
  let shown := uriOf (JsArray.getSlot (cachedDataUris st) idx) in
  getCustomThumbnail originalThumbnail now draws st =
    Some (shown,
          set_actualStreamImageUri shown
            (set_lastSlideChangeTime now (set_isStreamActive true st))).
Proof.
  intros Hshow Hcase. unfold getCustomThumbnail. simpl.
  rewrite (showsCustomImage_guard _ Hshow).
  by replace ((JsArray.len (cachedDataUris st) =? 1)
           || negb (Settings.slideshowEnabled (settings st))) with true
    by (destruct Hcase as [-> | ->]; [done | by rewrite orb_true_r]).
Qed.

Lemma getCustomThumbnail_manual originalThumbnail now draws st :
  showsCustomImage st ->
  JsArray.len (cachedDataUris st) <> 1 ->
  Settings.slideshowEnabled (settings st) = true ->
  manualSlideChange st = true ->
  let shown :=
    uriOf (JsArray.getSlot (cachedDataUris st) (currentSlideIndex st)) in
  getCustomThumbnail originalThumbnail now draws st =
    Some (shown,
          set_actualStreamImageUri shown
            (set_lastSlideChangeTime now
               (set_manualSlideChange false (set_isStreamActive true st)))).
Proof.
  intros Hshow Hn Hslide Hmanual. unfold getCustomThumbnail. simpl.
  rewrite (showsCustomImage_guard _ Hshow), Hslide, Hmanual. simpl.
  by replace (JsArray.len (cachedDataUris st) =? 1) with false by lia.
Qed.

Lemma getCustomThumbnail_advance originalThumbnail now draws st :
  showsCustomImage st ->
  advancesSlide st ->
  getCustomThumbnail originalThumbnail now draws st =
    match selectedIndex draws st with
    | None => None
    | Some nextIndex =>
        let shown := uriOf (JsArray.getSlot (cachedDataUris st) nextIndex) in
        Some (shown,
              saveSlideIndex nextIndex
                (set_actualStreamImageUri shown
                   (set_lastSlideChangeTime now
                      (set_currentSlideIndex nextIndex
                         (set_isStreamActive true st)))))
    end.
Proof.
  intros Hshow (Hn & Hslide & Hmanual).
  unfold getCustomThumbnail, selectedIndex. simpl.
  rewrite (showsCustomImage_guard _ Hshow), Hslide, Hmanual. simpl.
  by replace (JsArray.len (cachedDataUris st) =? 1) with false by lia.
Qed.

Lemma keepsSlide_or_advancesSlide st :
  showsCustomImage st -> keepsSlide st \/ advancesSlide st.
Proof.
  intros [_ Hne]. unfold keepsSlide, advancesSlide.
  assert (JsArray.len (cachedDataUris st) <> 0) by (by rewrite len_zero_nil).
  pose proof (len_nonneg (cachedDataUris st)).
  destruct (Settings.slideshowEnabled (settings st)),
    (manualSlideChange st); try (left; by auto).
  destruct (decide (JsArray.len (cachedDataUris st) = 1)); [left; by auto|].
  right. repeat split; lia.
Qed.

(** With more than one image the loop returns the first draw that differs
    from the current index, after as many redraws as there are draws equal
    to it before. *)
Lemma drawNextIndex_Some current n draws nextIndex :
  1 < n ->
  drawNextIndex current n draws = Some nextIndex <->
  nextIndex <> current /\
  exists k rest, draws = replicate k current ++ nextIndex :: rest.
Proof.
  intros Hn. induction draws as [|d draws IH]; simpl.
  - split; [done|]. intros (_ & k & rest & H).
    by destruct k.
  - replace (n >? 1) with true by lia. rewrite andb_true_r.
    destruct (d =? current) eqn:Hd.
    + apply Z.eqb_eq in Hd as ->. rewrite IH. split.
      * intros (Hne & k & rest & ->). split; [done|]. by exists (S k), rest.
      * intros (Hne & k & rest & Heq). split; [done|].
        destruct k as [|k]; simpl in Heq; simplify_eq. by exists k, rest.
    + apply Z.eqb_neq in Hd. split.
      * intros [= <-]. split; [done|]. by exists 0%nat, draws.
      * intros (Hne & k & rest & Heq).
        destruct k as [|k]; simpl in Heq; by simplify_eq.
Qed.

Lemma drawNextIndex_is_Some current n draws :
  1 < n ->
  is_Some (drawNextIndex current n draws) <->
  Exists (fun d => d <> current) draws.
Proof.
  intros Hn. induction draws as [|d draws IH]; simpl.
  - split; [by intros [? ?] | by intros ?%Exists_nil].
  - replace (n >? 1) with true by lia. rewrite andb_true_r.
    rewrite Exists_cons. destruct (d =? current) eqn:Hd.
    + apply Z.eqb_eq in Hd as ->. rewrite IH. tauto.
    + apply Z.eqb_neq in Hd. split; [by left | by eauto].
Qed.

(** What an invocation that returns has done when it shows a custom
    image. *)
Lemma getCustomThumbnail_shown
    (originalThumbnail : string) (now : Z) (draws : list Z)
    (st : State) (ret : Uri) (st' : State) :
  showsCustomImage st ->
  getCustomThumbnail originalThumbnail now draws st = Some (ret, st') ->
  lastSlideChangeTime st' = now /\
  isStreamActive st' = true /\
  (keepsSlide st ->
   store st' = store st /\ profiles st' = profiles st /\
   currentSlideIndex st' = currentSlideIndex st) /\
  (advancesSlide st ->
   exists nextIndex,
     selectedIndex draws st = Some nextIndex /\
     ret = uriOf (JsArray.getSlot (cachedDataUris st) nextIndex) /\
     persistsSlideIndex nextIndex st st' /\
     (activeRegistered st ->
      currentSlideIndex st' = nextIndex /\
      Profile.currentIndex (activeProfile st') = nextIndex)).
Proof.
  intros Hshow Hrun.
  destruct (keepsSlide_or_advancesSlide _ Hshow) as [Hkeep | Hadv].
  - assert (~ advancesSlide st) as Hnot.
    { intros (Hn & Hs & Hm). destruct Hkeep as [?|[?|?]]; [lia|congruence..]. }
    assert (st' = set_actualStreamImageUri ret
                    (set_lastSlideChangeTime now (set_isStreamActive true st))
            \/ st' = set_actualStreamImageUri ret
                       (set_lastSlideChangeTime now
                          (set_manualSlideChange false
                             (set_isStreamActive true st)))) as Hst'.
    { destruct (decide (JsArray.len (cachedDataUris st) = 1
                        \/ Settings.slideshowEnabled (settings st) = false))
        as [Hsingle | Hmany].
      - rewrite (getCustomThumbnail_single _ _ _ _ Hshow Hsingle) in Hrun.
        left. by simplify_eq.
      - assert (JsArray.len (cachedDataUris st) <> 1) by tauto.
        assert (Settings.slideshowEnabled (settings st) = true)
          by (destruct (Settings.slideshowEnabled (settings st)); tauto).
        assert (manualSlideChange st = true)
          by (destruct Hkeep as [?|[?|?]]; congruence).
        rewrite getCustomThumbnail_manual in Hrun by done.
        right. by simplify_eq. }
    destruct Hst' as [-> | ->]; by repeat split.
  - assert (~ keepsSlide st) as Hnot.
    { destruct Hadv as (Hn & Hs & Hm).
      intros [?|[?|?]]; [lia|congruence..]. }
    rewrite (getCustomThumbnail_advance _ _ _ _ Hshow Hadv) in Hrun.
    destruct (selectedIndex draws st) as [nextIndex|] eqn:Hsel; [|done].
    simpl in Hrun. injection Hrun as <- <-.
    set (st1 := set_actualStreamImageUri _ _).
    destruct (saveSlideIndex_persists nextIndex st1)
      as ((Ha & Hl & Hs & Hm & Hu & Hset) & Hpersist).
    split; [by rewrite Hl|]. split; [by rewrite Hs|]. split; [done|].
    intros _. exists nextIndex.
    split; [done|]. split; [done|].
    split.
    { destruct Hpersist as (data & Hstore & Hactive & Hin).
      exists data. rewrite activeProfile_eq in Hin |- *.
      by repeat split. }
    intros [profile Hreg].
    rewrite (saveSlideIndex_registered nextIndex st1 profile Hreg).
    rewrite activeProfile_eq. simpl. by rewrite JsMap_get_set_eq.
Qed.

(** An invocation returns, unless it draws at random and every draw it is
    given equals the current index. *)
Lemma getCustomThumbnail_returns originalThumbnail now draws st :
  showsCustomImage st ->
  (advancesSlide st ->
   Settings.slideshowRandom (settings st) = true ->
   Exists (fun d => d <> currentSlideIndex st) draws) ->
  is_Some (getCustomThumbnail originalThumbnail now draws st).
Proof.
  intros Hshow Hdraws.
  destruct (keepsSlide_or_advancesSlide _ Hshow) as [Hkeep | Hadv].
  - destruct (decide (JsArray.len (cachedDataUris st) = 1
                      \/ Settings.slideshowEnabled (settings st) = false))
      as [Hsingle | Hmany].
    + by rewrite (getCustomThumbnail_single _ _ _ _ Hshow Hsingle).
    + assert (JsArray.len (cachedDataUris st) <> 1) by tauto.
      assert (Settings.slideshowEnabled (settings st) = true)
        by (destruct (Settings.slideshowEnabled (settings st)); tauto).
      assert (manualSlideChange st = true)
        by (destruct Hkeep as [?|[?|?]]; congruence).
      by rewrite getCustomThumbnail_manual.
  - rewrite (getCustomThumbnail_advance _ _ _ _ Hshow Hadv).
    unfold selectedIndex.
    destruct (Settings.slideshowRandom (settings st)) eqn:Hrandom; [|done].
    pose proof Hadv as (Hn & _ & _).
    apply (drawNextIndex_is_Some _ _ _ Hn) in Hdraws; [|done..].
    by destruct Hdraws as [nextIndex ->].
Qed.

(** ** C1: the limit of 50 images *)




















(** ** C2: liveness *)

(** What the code does for liveness. The one-second check demotes an
    active stream exactly when a stamp exists and is more than 420000 ms
    old; an invocation of [getCustomThumbnail] always marks the stream
    active, and it renews the stamp exactly when it shows a custom image. *)
Lemma timerInterval_demotes now st :
  isStreamActive st = true ->
  (isStreamActive (timerInterval now st) = false <->
   0 < lastSlideChangeTime st /\ 420000 < now - lastSlideChangeTime st).
Proof.
  intros Hactive. unfold timerInterval. rewrite Hactive. simpl.
  destruct (lastSlideChangeTime st >? 0) eqn:H0;
    destruct (now - lastSlideChangeTime st >? 420000) eqn:H1; simpl;
    rewrite ?Hactive; split; try done; try lia.
Qed.

Lemma getCustomThumbnail_liveness originalThumbnail now draws st ret st' :
  getCustomThumbnail originalThumbnail now draws st = Some (ret, st') ->
  isStreamActive st' = true /\
  (showsCustomImage st -> lastSlideChangeTime st' = now) /\
  (~ showsCustomImage st -> lastSlideChangeTime st' = lastSlideChangeTime st).
Proof.
  intros Hrun. unfold getCustomThumbnail in Hrun. simpl in Hrun.
  destruct (negb _ || _) eqn:Hguard.
  { injection Hrun as _ <-. simpl. split; [done|]. split; [|done].
    intros [Hrepl Hne]. rewrite Hrepl in Hguard. simpl in Hguard.
    apply Z.eqb_eq, len_zero_nil in Hguard. done. }
  assert (showsCustomImage st) as Hshow.
  { apply orb_false_iff in Hguard as [Hrepl Hn]. split.
    - by destruct (Settings.replaceEnabled (settings st)).
    - apply Z.eqb_neq in Hn. by rewrite len_zero_nil in Hn. }
  destruct ((_ =? 1) || _).
  { injection Hrun as _ <-. by repeat split. }
  destruct (manualSlideChange st).
  { injection Hrun as _ <-. by repeat split. }
  destruct (if Settings.slideshowRandom (settings st) then _ else _)
    as [nextIndex|]; [|done].
  injection Hrun as _ <-.
  match goal with
  | |- context [saveSlideIndex ?i ?s] =>
      destruct (saveSlideIndex_persists i s)
        as ((_ & Hl & Hs & _ & _ & _) & _); rewrite Hl, Hs
  end.
  by repeat split.
Qed.

(** ** C3: time stamp and persistence *)

(** C3, as amended. Every invocation of [getCustomThumbnail] that shows a
    custom image returns (in random order, once a draw differs from the
    current index) and records the time of the invocation. An invocation that
    advances the slideshow also persists the index it selects (which is
    the index of the image it returns, and the current index afterwards
    when the active profile is registered). An invocation that keeps the
    slide (single image, slideshow off, or manual override) leaves the
    index, the profiles and the durable store as they were. *)
Theorem C3_shown_image_stamps_time_and_advance_persists
    (originalThumbnail : string) (now : Z) (draws : list Z) (st : State) :
  showsCustomImage st ->
  (advancesSlide st ->
   Settings.slideshowRandom (settings st) = true ->
   Exists (fun d => d <> currentSlideIndex st) draws) ->
  exists ret st',
    getCustomThumbnail originalThumbnail now draws st = Some (ret, st') /\
    lastSlideChangeTime st' = now /\
    isStreamActive st' = true /\
    (keepsSlide st ->
     store st' = store st /\ profiles st' = profiles st /\
     currentSlideIndex st' = currentSlideIndex st) /\
    (advancesSlide st ->
     exists nextIndex,
       selectedIndex draws st = Some nextIndex /\
       ret = uriOf (JsArray.getSlot (cachedDataUris st) nextIndex) /\
       persistsSlideIndex nextIndex st st' /\
       (activeRegistered st ->
        currentSlideIndex st' = nextIndex /\
        Profile.currentIndex (activeProfile st') = nextIndex)).
Proof.
  intros Hshow Hdraws.
  destruct (getCustomThumbnail_returns originalThumbnail now draws st
              Hshow Hdraws) as [[ret st'] Hrun].
  exists ret, st'. split; [done|].
  by apply (getCustomThumbnail_shown originalThumbnail now draws).
Qed.

(** ** C4: deletion, move and the current index *)

Lemma indexInBounds_default : indexInBounds defaultProfile.
Proof. split; simpl; [lia | done]. Qed.

Lemma activeProfile_deleteImageAtIndex index st :
  activeProfile (deleteImageAtIndex index st) = deleted index (activeProfile st)
  \/ activeProfile (deleteImageAtIndex index st) = defaultProfile.
Proof.
  pose proof (activeProfile_afterGet st) as Hget.
  unfold afterGetActiveProfile in Hget.
  assert (Hp : activeProfile st = (getActiveProfile st).1.2) by done.
  unfold deleteImageAtIndex.
  destruct (getActiveProfile st) as [[key profile] st1] eqn:E. simpl in *.
  rewrite Hp. unfold deleted.
  destruct ((index <? 0) || (index >=? JsArray.len (Profile.images profile))).
  - left. congruence.
  - rewrite (activeProfile_commit _ _ _ _ _ E).
    case_bool_decide; [by left | by right].
Qed.

Lemma activeProfile_moveImage fromIndex toIndex st :
  activeProfile (moveImage fromIndex toIndex st)
    = moved fromIndex toIndex (activeProfile st)
  \/ activeProfile (moveImage fromIndex toIndex st) = defaultProfile.
Proof.
  pose proof (activeProfile_afterGet st) as Hget.
  unfold afterGetActiveProfile in Hget.
  assert (Hp : activeProfile st = (getActiveProfile st).1.2) by done.
  unfold moveImage.
  destruct (getActiveProfile st) as [[key profile] st1] eqn:E. simpl in *.
  rewrite Hp. unfold moved.
  destruct (fromIndex =? toIndex); simpl; [left; congruence|].
  destruct ((fromIndex <? 0) || (fromIndex >=? JsArray.len (Profile.images profile)));
    simpl; [left; congruence|].
  destruct ((toIndex <? 0) || (toIndex >=? JsArray.len (Profile.images profile)));
    simpl; [left; congruence|].
  rewrite (activeProfile_commit _ _ _ _ _ E).
  case_bool_decide; [by left | by right].
Qed.

Lemma indexInBounds_deleted index profile :
  indexInBounds profile -> indexInBounds (deleted index profile).
Proof.
  intros [Hlo Hhi]. unfold deleted.
  destruct ((index <? 0) || (index >=? JsArray.len (Profile.images profile)))
    eqn:Hguard; [done|].
  apply orb_false_iff in Hguard as [H0 H1].
  assert (0 <= index < JsArray.len (Profile.images profile)) as Hin by lia.
  clear H0 H1. split; simpl.
  - destruct (_ >=? _); lia.
  - intros Hne.
    assert (JsArray.len (JsArray.splice1 index (Profile.images profile)) <> 0)
      by (by rewrite len_zero_nil).
    pose proof (len_nonneg (JsArray.splice1 index (Profile.images profile))).
    destruct (_ >=? _) eqn:Hcmp; lia.
Qed.

Lemma indexInBounds_moved fromIndex toIndex profile :
  indexInBounds profile -> indexInBounds (moved fromIndex toIndex profile).
Proof.
  intros [Hlo Hhi]. unfold moved.
  destruct (_ || _) eqn:Hguard; [done|].
  assert (fromIndex <> toIndex
          /\ 0 <= fromIndex < JsArray.len (Profile.images profile)
          /\ 0 <= toIndex < JsArray.len (Profile.images profile))
    as (Hne & Hfrom & Hto) by lia.
  clear Hguard. split; simpl.
  - repeat destruct (_ =? _); lia.
  - rewrite len_swap. intros _.
    assert (Profile.images profile <> []) as Hnonempty.
    { intros Hnil. rewrite Hnil in *. unfold JsArray.len in *. simpl in *. lia. }
    specialize (Hhi Hnonempty).
    repeat destruct (_ =? _); lia.
Qed.

(** C4, as amended. Starting from a state whose active profile satisfies
    the index invariant (the index is not negative, and lies below the
    image count when there are images), any [deleteImageAtIndex] followed
    by any [moveImage] leaves the invariant in force: whenever the
    resulting image count is positive the current-slide index lies in
    [0, count). A deletion that takes effect and would leave the index at
    or beyond the new count resets it to 0. *)
Theorem C4_delete_then_move_keeps_index_in_bounds
    (st : State) (index fromIndex toIndex : Z) :
  indexInBounds (activeProfile st) ->
  let st1 := deleteImageAtIndex index st in
  let st2 := moveImage fromIndex toIndex st1 in
  let count := JsArray.len (Profile.images (activeProfile st2)) in
  indexInBounds (activeProfile st1) /\
  indexInBounds (activeProfile st2) /\
  (0 < count -> 0 <= Profile.currentIndex (activeProfile st2) < count) /\
  (0 <= index < JsArray.len (Profile.images (activeProfile st)) ->
   JsArray.len (Profile.images (activeProfile st)) - 1
     <= Profile.currentIndex (activeProfile st) ->
   Profile.currentIndex (activeProfile st1) = 0).
Proof.
  intros Hinv st1 st2 count.
  assert (indexInBounds (activeProfile st1)) as H1.
  { subst st1.
    destruct (activeProfile_deleteImageAtIndex index st) as [-> | ->].
    - by apply indexInBounds_deleted.
    - apply indexInBounds_default. }
  assert (indexInBounds (activeProfile st2)) as H2.
  { subst st2.
    destruct (activeProfile_moveImage fromIndex toIndex st1) as [-> | ->].
    - by apply indexInBounds_moved.
    - apply indexInBounds_default. }
  split; [done|]. split; [done|]. split.
  - intros Hpos. destruct H2 as [Hlo Hhi]. split; [done|].
    apply Hhi. intros Hnil.
    subst count. rewrite Hnil in Hpos. unfold JsArray.len in Hpos.
    simpl in Hpos. lia.
  - intros Hin Hlast. subst st1.
    destruct (activeProfile_deleteImageAtIndex index st) as [-> | ->]; [|done].
    unfold deleted.
    replace ((index <? 0) || (index >=? JsArray.len (Profile.images (activeProfile st))))
      with false by lia.
    simpl. rewrite len_splice1 by done.
    destruct (_ >=? _) eqn:Hcmp; [done | lia].
Qed.

(** ** C5: manual override *)


(** ** C6: sequential selection *)

Lemma sequential_step originalThumbnail now draws n st :
  2 <= n ->
  sequentialSlideshow n st ->
  exists st',
    getCustomThumbnail originalThumbnail now draws st =
      Some (uriOf (JsArray.getSlot (cachedDataUris st)
                     ((currentSlideIndex st + 1) mod n)), st') /\
    currentSlideIndex st' = (currentSlideIndex st + 1) mod n /\
    sequentialSlideshow n st'.
Proof.
  intros Hn (Hshow & Hslide & Hseq & Hmanual & Hlen & Hidx & profile & Hreg & Huris).
  assert (advancesSlide st) as Hadv by (repeat split; [lia | done | done]).
  rewrite (getCustomThumbnail_advance _ _ _ _ Hshow Hadv).
  unfold selectedIndex. rewrite Hseq, Hlen.
  rewrite Z.rem_mod_nonneg by lia. simpl.
  eexists. split; [done|].
  match goal with
  | |- context [saveSlideIndex ?i ?s] =>
      rewrite (saveSlideIndex_registered i s profile Hreg)
  end.
  simpl. split; [done|].
  destruct Hshow as [Hrepl Hne].
  unfold sequentialSlideshow, showsCustomImage. simpl.
  rewrite Huris, JsMap_get_set_eq.
  repeat split; try done.
  - apply Z.mod_pos_bound. lia.
  - eexists. by split.
Qed.

Lemma runTriggers_sequential n calls : forall st,
  2 <= n ->
  sequentialSlideshow n st ->
  exists st',
    runTriggers calls st =
      Some (map (fun k : nat => (currentSlideIndex st + 1 + Z.of_nat k) mod n)
              (seq 0 (length calls)), st') /\
    sequentialSlideshow n st' /\
    currentSlideIndex st' =
      match calls with
      | [] => currentSlideIndex st
      | _ => (currentSlideIndex st + Z.of_nat (length calls)) mod n
      end.
Proof.
  induction calls as [|[[originalThumbnail now] draws] calls IH];
    intros st Hn Hinv.
  - exists st. split; [done|]. by split.
  - destruct (sequential_step originalThumbnail now draws n st Hn Hinv)
      as (st1 & Hrun & Hidx & Hinv1).
    destruct (IH st1 Hn Hinv1) as (st2 & Hrest & Hinv2 & Hlast).
    exists st2. simpl. rewrite Hrun, Hrest.
    split; [|split; [done|]].
    + do 2 f_equal. f_equal.
      * rewrite Hidx. f_equal. lia.
      * rewrite <- seq_shift, map_map. apply map_ext. intros k.
        rewrite Hidx.
        replace ((currentSlideIndex st + 1) mod n + 1 + Z.of_nat k)
          with ((currentSlideIndex st + 1) mod n + (1 + Z.of_nat k)) by lia.
        rewrite Z.add_mod_idemp_l by lia. f_equal. lia.
    + rewrite Hlast, Hidx. destruct calls as [|c calls'].
      * done.
      * rewrite Z.add_mod_idemp_l by lia. f_equal. lia.
Qed.

(** A window of [n] successive residues is a rearrangement of
    [0, 1, ..., n - 1]. *)
Lemma window_permutation (a n : Z) :
  0 < n ->
  map (fun k : nat => (a + Z.of_nat k) mod n) (seq 0 (Z.to_nat n))
    ≡ₚ seqZ 0 n.
Proof.
  intros Hn. apply NoDup_Permutation.
  - apply NoDup_fmap_2_strong; [|apply NoDup_seq].
    intros k1 k2 Hk1 Hk2 Heq.
    apply elem_of_seq in Hk1, Hk2.
    assert (((a + Z.of_nat k1) - (a + Z.of_nat k2)) mod n = 0) as Hdiff.
    { rewrite Zminus_mod, Heq, Z.sub_diag. by apply Z.mod_0_l, Z.neq_sym, Z.lt_neq. }
    apply Z.mod_divide in Hdiff; [|lia].
    destruct Hdiff as [q Hq].
    assert (q = 0) by nia. lia.
  - apply NoDup_seqZ.
  - intros x. rewrite elem_of_seqZ. split.
    + intros Hin. apply list_elem_of_fmap in Hin as (k & -> & _).
      pose proof (Z.mod_pos_bound (a + Z.of_nat k) n Hn). lia.
    + intros Hx. apply list_elem_of_fmap.
      exists (Z.to_nat ((x - a) mod n)).
      pose proof (Z.mod_pos_bound (x - a) n Hn) as Hbound.
      split.
      * rewrite Z2Nat.id by lia.
        rewrite Z.add_mod_idemp_r by lia.
        replace (a + (x - a)) with x by lia.
        symmetry. apply Z.mod_small. lia.
      * apply elem_of_seq. lia.
Qed.

(** C6, as amended. In a sequential slideshow over [n >= 2] images
    (replacement and slideshow on, sequential order, no manual override
    pending, an index that is not negative, the cache holding the images
    of the registered active profile) every invocation sets the index
    to [(index + 1) mod n] and returns the image there; any
    [n] consecutive invocations visit each of the [n] indices exactly
    once, and the next [n] invocations visit them again in the same order;
    with 3 images and index 0, three invocations yield 1, 2, 0. *)
Theorem C6_sequential_slideshow_cycles (n : Z) (st : State) :
  2 <= n ->
  sequentialSlideshow n st ->
  (forall originalThumbnail now draws,
     exists st',
       getCustomThumbnail originalThumbnail now draws st =
         Some (uriOf (JsArray.getSlot (cachedDataUris st)
                        ((currentSlideIndex st + 1) mod n)), st') /\
       currentSlideIndex st' = (currentSlideIndex st + 1) mod n /\
       sequentialSlideshow n st') /\
  (forall calls,
     length calls = Z.to_nat n ->
     exists visited st',
       runTriggers calls st = Some (visited, st') /\
       visited ≡ₚ seqZ 0 n /\
       sequentialSlideshow n st' /\
       forall calls',
         length calls' = Z.to_nat n ->
         exists st'', runTriggers calls' st' = Some (visited, st'')) /\
  (n = 3 -> currentSlideIndex st = 0 ->
   forall calls,
     length calls = 3%nat ->
     exists st', runTriggers calls st = Some ([1; 2; 0], st')).
Proof.
  intros Hn Hinv. split; [|split].
  - intros. by apply sequential_step.
  - intros calls Hlen.
    destruct (runTriggers_sequential n calls st Hn Hinv)
      as (st' & Hrun & Hinv' & Hlast).
    eexists _, st'. split; [exact Hrun|].
    split; [|split; [done|]].
    + rewrite Hlen.
      rewrite <- (window_permutation (currentSlideIndex st + 1) n) by lia.
      done.
    + intros calls' Hlen'.
      destruct (runTriggers_sequential n calls' st' Hn Hinv')
        as (st'' & Hrun' & _ & _).
      exists st''. rewrite Hrun'. f_equal. f_equal.
      rewrite Hlen, Hlen'. apply map_ext. intros k.
      rewrite Hlast. destruct calls as [|c calls0]; [simpl in Hlen; lia|].
      rewrite Hlen, Z2Nat.id by lia.
      replace ((currentSlideIndex st + n) mod n + 1 + Z.of_nat k)
        with ((currentSlideIndex st + n) mod n + (1 + Z.of_nat k)) by lia.
      rewrite Z.add_mod_idemp_l by lia.
      replace (currentSlideIndex st + n + (1 + Z.of_nat k))
        with (currentSlideIndex st + 1 + Z.of_nat k + 1 * n) by lia.
      by rewrite Z.mod_add by lia.
  - intros -> Hzero calls Hlen.
    destruct (runTriggers_sequential 3 calls st Hn Hinv)
      as (st' & Hrun & _ & _).
    exists st'. by rewrite Hrun, Hlen, Hzero.
Qed.

(** ** C7: random selection *)

(** C7, as amended. With replacement on, in random mode with slideshow
    enabled, more than one image and no manual override pending, an
    invocation returns as soon as a draw differs from the current index,
    having redrawn as long as the draw equalled it: the index it selects
    is never the previous one. Nothing forbids it to
    come back to an index after two steps ([random_may_return_after_two]
    below). *)
Theorem C7_random_never_repeats_previous
    (originalThumbnail : string) (now : Z) (draws : list Z) (st : State) :
  showsCustomImage st ->
  advancesSlide st ->
  Settings.slideshowRandom (settings st) = true ->
  (is_Some (getCustomThumbnail originalThumbnail now draws st) <->
   Exists (fun d => d <> currentSlideIndex st) draws) /\
  (forall ret st',
     getCustomThumbnail originalThumbnail now draws st = Some (ret, st') ->
     exists nextIndex k rest,
       draws = replicate k (currentSlideIndex st) ++ nextIndex :: rest /\
       nextIndex <> currentSlideIndex st /\
       ret = uriOf (JsArray.getSlot (cachedDataUris st) nextIndex) /\
       (activeRegistered st ->
        currentSlideIndex st' = nextIndex /\
        currentSlideIndex st' <> currentSlideIndex st)).
Proof.
  intros Hshow Hadv Hrand.
  pose proof Hadv as (Hn & _ & _).
  rewrite (getCustomThumbnail_advance _ _ _ _ Hshow Hadv).
  unfold selectedIndex. rewrite Hrand.
  split.
  - rewrite <- (drawNextIndex_is_Some _ _ _ Hn).
    destruct (drawNextIndex _ _ _); simpl; split; intros [? ?]; by eauto.
  - intros ret st' Hrun.
    destruct (drawNextIndex _ _ _) as [nextIndex|] eqn:Hdraw; [|done].
    simpl in Hrun. injection Hrun as <- <-.
    apply drawNextIndex_Some in Hdraw as (Hne & k & rest & Hdraws); [|done].
    exists nextIndex, k, rest. split; [done|]. split; [done|]. split; [done|].
    intros [profile Hreg].
    match goal with
    | |- context [saveSlideIndex ?i ?s] =>
        rewrite (saveSlideIndex_registered i s profile Hreg)
    end.
    by simpl.
Qed.

(** ** C8: replacement disabled or no image *)

(** C8. Whatever the original payload, when replacement is disabled or
    the cache of the active profile holds no image, [getCustomThumbnail]
    returns that payload unchanged, marks the stream active and sets the
    pointer to the image being shown to [null]; nothing else changes. *)
Theorem C8_disabled_or_empty_returns_original
    (originalThumbnail : string) (now : Z) (draws : list Z) (st : State) :
  Settings.replaceEnabled (settings st) = false \/ cachedDataUris st = [] ->
  exists st',
    getCustomThumbnail originalThumbnail now draws st
      = Some (UStr originalThumbnail, st') /\
    isStreamActive st' = true /\
    actualStreamImageUri st' = UNull /\
    st' = set_actualStreamImageUri UNull (set_isStreamActive true st).
Proof.
  intros Hcase.
  exists (set_actualStreamImageUri UNull (set_isStreamActive true st)).
  split; [|done].
  unfold getCustomThumbnail. simpl.
  destruct Hcase as [-> | ->]; [done|].
  simpl. by rewrite orb_true_r.
Qed.

(** ** C9: migration on load *)

Lemma stored_blob_roundtrip images :
  bytesInRange images ->
  map storedOfBlob (map blobOfStored images) = images.
Proof.
  induction 1 as [|[type data] images Hbytes _ IH]; simpl; [done|].
  rewrite IH. f_equal. unfold storedOfBlob, blobOfStored. simpl. f_equal.
  unfold toUint8Array. simpl in Hbytes.
  induction Hbytes as [|z data Hz _ IHd]; simpl; [done|].
  by rewrite IHd, Z.mod_small.
Qed.

Lemma withProfiles_absent s :
  multiProfileAbsent s ->
  withProfiles (DataStore.get DATASTORE_KEY_PROFILES s) = None.
Proof.
  intros Habsent. unfold withProfiles.
  destruct (DataStore.get DATASTORE_KEY_PROFILES s) as [[data| | |]|] eqn:E;
    try done.
  by rewrite (Habsent data E).
Qed.

Lemma withImages_present oldData s :
  legacyPresent oldData s ->
  withImages (DataStore.get DATASTORE_KEY_SLIDESHOW s) = Some oldData.
Proof.
  intros [Hget Hnonempty]. unfold withImages. rewrite Hget.
  by destruct (SlideshowData.images oldData).
Qed.

Lemma withImages_absent s :
  legacyAbsent s ->
  withImages (DataStore.get DATASTORE_KEY_SLIDESHOW s) = None.
Proof.
  intros Habsent. unfold withImages.
  destruct (DataStore.get DATASTORE_KEY_SLIDESHOW s) as [[ |oldData| | ]|] eqn:E;
    try done.
  by rewrite (Habsent oldData E).
Qed.

(** C9. On load, when the multi-profile record is absent and the legacy
    list holds at least one image, the loader registers a default profile
    with exactly the images of that list, in order, and the legacy index;
    it makes it the active profile, writes the collection under the
    multi-profile key and then deletes the three legacy keys. Starting
    from an empty profile map and well-formed bytes, the record written
    is the default profile with the legacy images themselves. When the
    legacy list is absent too, the loader registers an empty default
    profile and writes nothing. *)
Theorem C9_load_migrates_legacy_storage (st : State) :
  multiProfileAbsent (store st) ->
  (forall oldData,
     legacyPresent oldData (store st) ->
     let blobs := map blobOfStored (SlideshowData.images oldData) in
     let migrated :=
       Profile.mk DEFAULT_PROFILE_ID "Default" blobs
         (map (fun blob => Some (blobToDataUrl env blob)) blobs)
         (loadSlideIndex st) in
     let st' := loadProfilesFromDataStore env st in
     let data :=
       StoredProfilesData.mk
         (map storedOfProfile (JsMap.values (profiles st')))
         DEFAULT_PROFILE_ID in
     profiles st' = JsMap.set DEFAULT_PROFILE_ID migrated (profiles st) /\
     activeProfileId st' = DEFAULT_PROFILE_ID /\
     activeProfile st' = migrated /\
     cachedImages st' = blobs /\
     DataStore.history (store st') =
       DataStore.history (store st)
         ++ [WSet DATASTORE_KEY_PROFILES (DProfiles data);
             WDel DATASTORE_KEY_SLIDESHOW;
             WDel DATASTORE_KEY_INDEX;
             WDel DATASTORE_KEY] /\
     DataStore.get DATASTORE_KEY_PROFILES (store st') = Some (DProfiles data) /\
     DataStore.get DATASTORE_KEY_SLIDESHOW (store st') = None /\
     DataStore.get DATASTORE_KEY_INDEX (store st') = None /\
     DataStore.get DATASTORE_KEY (store st') = None /\
     (profiles st = JsMap.empty ->
      bytesInRange (SlideshowData.images oldData) ->
      StoredProfilesData.profiles data =
        [StoredProfile.mk DEFAULT_PROFILE_ID "Default"
           (SlideshowData.images oldData) (loadSlideIndex st)])) /\
  (legacyAbsent (store st) ->
   let st' := loadProfilesFromDataStore env st in
   profiles st' = JsMap.set DEFAULT_PROFILE_ID defaultProfile (profiles st) /\
   activeProfileId st' = DEFAULT_PROFILE_ID /\
   activeProfile st' = defaultProfile /\
   cachedImages st' = [] /\
   cachedDataUris st' = [] /\
   store st' = store st).
Proof.
  intros Habsent. unfold loadProfilesFromDataStore.
  rewrite (withProfiles_absent _ Habsent). split.
  - intros oldData Hpresent. rewrite (withImages_present _ _ Hpresent).
    unfold saveProfilesToDataStore, syncCacheWithActiveProfile, getActiveProfile.
    simpl. rewrite JsMap_get_set_eq. simpl. rewrite JsMap_get_set_eq. simpl.
    rewrite activeProfile_eq. simpl. rewrite JsMap_get_set_eq.
    unfold DataStore.get, DataStore.del, DataStore.set. simpl.
    split; [done|]. split; [done|]. split; [done|]. split; [done|].
    split; [by rewrite <- !app_assoc|].
    split.
    { do 3 (rewrite lookup_delete_ne by distinct_keys).
      by rewrite lookup_insert_eq. }
    split.
    { do 2 (rewrite lookup_delete_ne by distinct_keys).
      by rewrite lookup_delete_eq. }
    split.
    { rewrite lookup_delete_ne by distinct_keys. by rewrite lookup_delete_eq. }
    split; [by rewrite lookup_delete_eq|].
    intros -> Hbytes. simpl. unfold storedOfProfile. simpl.
    by rewrite stored_blob_roundtrip.
  - intros Hlegacy. rewrite (withImages_absent _ Hlegacy).
    unfold syncCacheWithActiveProfile, getActiveProfile. simpl.
    rewrite JsMap_get_set_eq. simpl.
    rewrite activeProfile_eq. simpl. rewrite JsMap_get_set_eq.
    by repeat split.
Qed.

(** ** C10: rejected deletions and moves *)

(** C10. [deleteImageAtIndex] with an index outside [0, image count), and
    [moveImage] with equal indices or with an index outside that range,
    return right after [getActiveProfile]: nothing is written to the
    durable store, the cache and the globals are untouched, and when the
    active profile is registered the whole state is unchanged (so are its
    image list, its dataUris list and its current-slide index). *)
Theorem C10_rejected_delete_and_move_are_noops
    (st : State) (index fromIndex toIndex : Z) :
  let count := JsArray.len (Profile.images (activeProfile st)) in
  index < 0 \/ count <= index ->
  fromIndex = toIndex \/ fromIndex < 0 \/ count <= fromIndex
    \/ toIndex < 0 \/ count <= toIndex ->
  deleteImageAtIndex index st = afterGetActiveProfile st /\
  moveImage fromIndex toIndex st = afterGetActiveProfile st /\
  store (afterGetActiveProfile st) = store st /\
  cachedImages (afterGetActiveProfile st) = cachedImages st /\
  cachedDataUris (afterGetActiveProfile st) = cachedDataUris st /\
  currentSlideIndex (afterGetActiveProfile st) = currentSlideIndex st /\
  activeProfile (afterGetActiveProfile st) = activeProfile st /\
  (activeRegistered st -> afterGetActiveProfile st = st).
Proof.
  intros count Hdelete Hmove. subst count.
  pose proof (afterGetActiveProfile_fields st) as Hfields. simpl in Hfields.
  destruct Hfields as (_ & Himgs & Huris & Hidx & _ & _ & _ & _ & _ & Hstore).
  split; [|split];
    [| |repeat split; auto using activeProfile_afterGet,
                                 afterGetActiveProfile_registered].
  - unfold deleteImageAtIndex, afterGetActiveProfile.
    unfold activeProfile in Hdelete.
    destruct (getActiveProfile st) as [[key profile] st1]. simpl in *.
    by replace ((index <? 0) || (index >=? JsArray.len (Profile.images profile)))
      with true by lia.
  - unfold moveImage, afterGetActiveProfile.
    unfold activeProfile in Hmove.
    destruct (getActiveProfile st) as [[key profile] st1]. simpl in *.
    destruct (fromIndex =? toIndex) eqn:Heq; [done|].
    destruct ((fromIndex <? 0) || _) eqn:Hfrom; [done|].
    destruct ((toIndex <? 0) || _) eqn:Hto; [done|].
    lia.
Qed.

(** ** More on association maps *)

Lemma JsMap_get_delete_eq {V} (k : string) (m : JsMap.t V) :
  JsMap.get k (JsMap.delete k m) = None.
Proof.
  induction m as [|[k' v'] m IH]; simpl; [done|].
  destruct (decide (k = k')); simpl; [done|].
  by rewrite decide_False.
Qed.

Lemma JsMap_get_delete_ne {V} (k k' : string) (m : JsMap.t V) :
  k <> k' -> JsMap.get k' (JsMap.delete k m) = JsMap.get k' m.
Proof.
  intros Hne. induction m as [|[k0 v0] m IH]; simpl; [done|].
  destruct (decide (k = k0)) as [->|Hk]; simpl.
  - by rewrite decide_False.
  - by rewrite IH.
Qed.

Lemma JsMap_get_None {V} (k : string) (m : JsMap.t V) :
  JsMap.get k m = None <-> k ∉ map fst m.
Proof.
  induction m as [|[k' v'] m IH]; simpl.
  - split; [intros _; apply not_elem_of_nil | done].
  - rewrite not_elem_of_cons.
    destruct (decide (k = k')); [split; [done | intros [? _]; done]|].
    rewrite IH. tauto.
Qed.

Lemma JsMap_get_Some_elem {V} (k : string) (v : V) (m : JsMap.t V) :
  JsMap.get k m = Some v -> (k, v) ∈ m.
Proof.
  induction m as [|[k' v'] m IH]; simpl; [done|].
  destruct (decide (k = k')) as [->|].
  - intros [= ->]. apply list_elem_of_here.
  - intros H. apply list_elem_of_further. by apply IH.
Qed.

Lemma JsMap_set_absent {V} (k : string) (v : V) (m : JsMap.t V) :
  JsMap.get k m = None -> JsMap.set k v m = m ++ [(k, v)].
Proof.
  induction m as [|[k' v'] m IH]; simpl; [done|].
  destruct (decide (k = k')); [done|]. intros H. by rewrite IH.
Qed.

Lemma JsMap_set_keys {V} (k : string) (v : V) (m : JsMap.t V) :
  is_Some (JsMap.get k m) -> map fst (JsMap.set k v m) = map fst m.
Proof.
  induction m as [|[k' v'] m IH]; simpl; [by intros [? ?]|].
  destruct (decide (k = k')); simpl; [done|].
  intros H. by rewrite IH.
Qed.

Lemma JsMap_set_NoDup {V} (k : string) (v : V) (m : JsMap.t V) :
  NoDup (map fst m) -> NoDup (map fst (JsMap.set k v m)).
Proof.
  intros Hm. destruct (JsMap.get k m) as [v0|] eqn:E.
  - rewrite JsMap_set_keys; [done | by exists v0].
  - rewrite JsMap_set_absent by done. rewrite map_app. simpl.
    apply NoDup_app. split; [done|]. split.
    + intros x Hx [->|[]%elem_of_nil]%elem_of_cons.
      by apply JsMap_get_None in E.
    + apply NoDup_singleton.
Qed.

Lemma JsMap_set_entries {V} (P : string * V -> Prop) k v (m : JsMap.t V) :
  Forall P m -> P (k, v) -> Forall P (JsMap.set k v m).
Proof.
  intros Hm Hv. induction m as [|[k' v'] m IH]; simpl.
  - by constructor.
  - apply Forall_cons in Hm as [Hv' Hm].
    destruct (decide (k = k')) as [->|]; constructor; auto.
Qed.

Lemma JsMap_set_size {V} (k : string) (v : V) (m : JsMap.t V) :
  JsMap.size (JsMap.set k v m) =
    if JsMap.has k m then JsMap.size m else JsMap.size m + 1.
Proof.
  unfold JsMap.size, JsMap.has. destruct (JsMap.get k m) as [v0|] eqn:E.
  - assert (length (JsMap.set k v m) = length m) as ->; [|done].
    rewrite <- (length_map fst (JsMap.set k v m)), <- (length_map fst m).
    rewrite JsMap_set_keys; [done | by exists v0].
  - rewrite JsMap_set_absent by done. rewrite length_app. simpl. lia.
Qed.

Lemma JsMap_get_set_is_Some {V} (k k' : string) (v : V) (m : JsMap.t V) :
  is_Some (JsMap.get k' m) -> is_Some (JsMap.get k' (JsMap.set k v m)).
Proof.
  intros H. destruct (decide (k = k')) as [->|Hne].
  - rewrite JsMap_get_set_eq. by eexists.
  - by rewrite JsMap_get_set_ne.
Qed.

Lemma JsMap_delete_sublist {V} (k : string) (m : JsMap.t V) :
  sublist (JsMap.delete k m) m.
Proof.
  induction m as [|[k' v'] m IH]; simpl; [done|].
  destruct (decide (k = k')).
  - by apply sublist_cons.
  - by apply sublist_skip.
Qed.

Lemma Forall_sublist {A} (P : A -> Prop) (a b : list A) :
  Forall P b -> sublist a b -> Forall P a.
Proof.
  rewrite !Forall_forall. intros H Hsub x Hx.
  apply H. by eapply elem_of_sublist.
Qed.

Lemma JsMap_delete_size {V} (k : string) (m : JsMap.t V) :
  JsMap.size (JsMap.delete k m) <= JsMap.size m.
Proof.
  unfold JsMap.size.
  pose proof (sublist_length _ _ (JsMap_delete_sublist k m)). lia.
Qed.

(** ** The invariant of the profile map *)

Lemma storeInvariant_same st st' :
  profiles st' = profiles st ->
  activeProfileId st' = activeProfileId st ->
  storeInvariant env st -> storeInvariant env st'.
Proof.
  intros Hp Ha [H1 H2 H3 H4 H5 H6].
  split; unfold activeRegistered; rewrite ?Hp, ?Ha; done.
Qed.

Lemma sync_registered st :
  activeRegistered st ->
  profiles (syncCacheWithActiveProfile st) = profiles st /\
  activeProfileId (syncCacheWithActiveProfile st) = activeProfileId st.
Proof.
  intros [profile H]. unfold syncCacheWithActiveProfile.
  by rewrite (getActiveProfile_registered _ _ H).
Qed.

Lemma save_registered st :
  activeRegistered st ->
  profiles (saveProfilesToDataStore st) = profiles st /\
  activeProfileId (saveProfilesToDataStore st) = activeProfileId st.
Proof.
  intros H. unfold saveProfilesToDataStore. cbv zeta.
  match goal with
  | |- context [syncCacheWithActiveProfile ?st1] =>
      by destruct (sync_registered st1 H) as [-> ->]
  end.
Qed.

Lemma storeInvariant_sync st :
  storeInvariant env st -> storeInvariant env (syncCacheWithActiveProfile st).
Proof.
  intros H. destruct (sync_registered st (activeIsRegistered _ _ H)).
  by apply (storeInvariant_same st).
Qed.

Lemma storeInvariant_save st :
  storeInvariant env st -> storeInvariant env (saveProfilesToDataStore st).
Proof.
  intros H. destruct (save_registered st (activeIsRegistered _ _ H)).
  by apply (storeInvariant_same st).
Qed.

(** Writing to a registered profile a value with the same identifier and
    matching data URLs. *)
Lemma storeInvariant_put st key profile profile' :
  storeInvariant env st ->
  JsMap.get key (profiles st) = Some profile ->
  Profile.id profile' = Profile.id profile ->
  urisOfImages env profile' ->
  storeInvariant env (putProfile key profile' st).
Proof.
  intros [H1 H2 H3 H4 H5 H6] Hget Hid Huris.
  assert (Profile.id profile = key) as Hkey.
  { apply JsMap_get_Some_elem in Hget.
    by apply (proj1 (Forall_forall _ _) H2) in Hget. }
  split; simpl.
  - by apply JsMap_set_NoDup.
  - apply JsMap_set_entries; [done|]. simpl. congruence.
  - by apply JsMap_set_Forall.
  - by apply JsMap_get_set_is_Some.
  - by apply JsMap_get_set_is_Some.
  - rewrite JsMap_set_size. unfold JsMap.has. by rewrite Hget.
Qed.

(** The mutations of the gallery end alike; on a registered active
    profile they keep the invariant when the value written does. *)
Lemma storeInvariant_commit st profile' :
  storeInvariant env st ->
  Profile.id profile' = Profile.id (activeProfile st) ->
  urisOfImages env profile' ->
  storeInvariant env
    (saveProfilesToDataStore
       (syncCacheWithActiveProfile
          (putProfile (activeProfileId st) profile' st))).
Proof.
  intros H Hid Huris.
  destruct (activeIsRegistered _ _ H) as [profile Hget].
  apply storeInvariant_save, storeInvariant_sync.
  apply (storeInvariant_put st _ profile); try done.
  rewrite activeProfile_eq, Hget in Hid. done.
Qed.

(** ** The mutations of the gallery on a registered active profile *)

Lemma getActiveProfile_active st :
  activeRegistered st ->
  getActiveProfile st = (activeProfileId st, activeProfile st, st).
Proof.
  intros [profile H]. rewrite activeProfile_eq, H.
  by apply getActiveProfile_registered.
Qed.

Lemma commit_registered st profile' :
  activeRegistered st ->
  let profiles' := JsMap.set (activeProfileId st) profile' (profiles st) in
  commit profile' st =
    mkState profiles' (activeProfileId st)
      (Profile.images profile') (Profile.dataUris profile')
      (Profile.currentIndex profile')
      (lastSlideChangeTime st) (isStreamActive st) (manualSlideChange st)
      (actualStreamImageUri st) (settings st)
      (DataStore.set DATASTORE_KEY_PROFILES
         (DProfiles
            (StoredProfilesData.mk
               (map storedOfProfile (JsMap.values profiles'))
               (activeProfileId st)))
         (store st)).
Proof.
  intros _. unfold commit.
  unfold saveProfilesToDataStore, syncCacheWithActiveProfile, getActiveProfile.
  simpl. rewrite JsMap_get_set_eq. simpl. by rewrite JsMap_get_set_eq.
Qed.

Lemma commit_active st profile' :
  activeRegistered st -> activeProfile (commit profile' st) = profile'.
Proof.
  intros H. rewrite commit_registered by done.
  rewrite activeProfile_eq. simpl. by rewrite JsMap_get_set_eq.
Qed.

Lemma addImage_commit blob st :
  activeRegistered st ->
  addImage env blob st = commit (added env blob (activeProfile st)) st.
Proof.
  intros H. unfold addImage. by rewrite (getActiveProfile_active _ H).
Qed.

Lemma deleteAllImages_commit st :
  activeRegistered st ->
  deleteAllImages st = commit (cleared (activeProfile st)) st.
Proof.
  intros H. unfold deleteAllImages. by rewrite (getActiveProfile_active _ H).
Qed.

Lemma saveImagesToDataStore_commit blobs st :
  activeRegistered st ->
  saveImagesToDataStore env blobs st =
    commit (replaced env blobs (activeProfile st)) st.
Proof.
  intros H. unfold saveImagesToDataStore.
  by rewrite (getActiveProfile_active _ H).
Qed.

Lemma deleteImageAtIndex_commit index st :
  activeRegistered st ->
  deleteImageAtIndex index st =
    if (index <? 0) || (index >=? JsArray.len (Profile.images (activeProfile st)))
    then st else commit (deleted index (activeProfile st)) st.
Proof.
  intros H. unfold deleteImageAtIndex, deleted.
  rewrite (getActiveProfile_active _ H).
  by destruct (_ || _).
Qed.

Lemma moveImage_commit fromIndex toIndex st :
  activeRegistered st ->
  moveImage fromIndex toIndex st =
    if (fromIndex =? toIndex)
       || (fromIndex <? 0)
       || (fromIndex >=? JsArray.len (Profile.images (activeProfile st)))
       || (toIndex <? 0)
       || (toIndex >=? JsArray.len (Profile.images (activeProfile st)))
    then st else commit (moved fromIndex toIndex (activeProfile st)) st.
Proof.
  intros H. unfold moveImage, moved.
  rewrite (getActiveProfile_active _ H).
  destruct (fromIndex =? toIndex); [done|].
  destruct (fromIndex <? 0); [done|].
  destruct (fromIndex >=? _); [done|].
  destruct (toIndex <? 0); [done|].
  by destruct (toIndex >=? _).
Qed.

Lemma saveSlideIndex_commit index st :
  activeRegistered st ->
  saveSlideIndex index st =
    commit (Profile.with_currentIndex index (activeProfile st)) st.
Proof.
  intros [profile H]. rewrite (saveSlideIndex_registered _ _ _ H).
  rewrite commit_registered by by exists profile.
  by rewrite activeProfile_eq, H.
Qed.

(** ** Arrays of data URLs *)

Lemma splice1_map {A B} (f : A -> B) (i : Z) (a : list A) :
  JsArray.splice1 i (map f a) = map f (JsArray.splice1 i a).
Proof. unfold JsArray.splice1. symmetry. apply (list_fmap_delete f). Qed.

Lemma swapSlots_map {A B} (f : A -> B) (i j : Z) (a : list A) :
  0 <= i < JsArray.len a -> 0 <= j < JsArray.len a ->
  JsArray.swapSlots i j (map (fun x => Some (f x)) a) =
    map (fun x => Some (f x)) (JsArray.swap i j a).
Proof.
  unfold JsArray.len. intros Hi Hj.
  destruct (lookup_lt_is_Some_2 a (Z.to_nat i)) as [x Hx]; [lia|].
  destruct (lookup_lt_is_Some_2 a (Z.to_nat j)) as [y Hy]; [lia|].
  unfold JsArray.swapSlots, JsArray.swap, JsArray.getSlot. rewrite Hx, Hy.
  replace (i <? 0) with false by lia. replace (j <? 0) with false by lia.
  change (map (fun x => Some (f x)) a) with ((fun x => Some (f x)) <$> a).
  rewrite !list_lookup_fmap, Hx, Hy. simpl.
  unfold JsArray.setSlot.
  rewrite (decide_True (P := (Z.to_nat i < length _)%nat))
    by (rewrite length_fmap; lia).
  rewrite decide_True by (rewrite length_insert, length_fmap; lia).
  change (map (fun x => Some (f x)) (<[Z.to_nat j:=x]> (<[Z.to_nat i:=y]> a)))
    with ((fun x => Some (f x)) <$> <[Z.to_nat j:=x]> (<[Z.to_nat i:=y]> a)).
  by rewrite !list_fmap_insert.
Qed.

Lemma urisOfImages_added blob profile :
  urisOfImages env profile -> urisOfImages env (added env blob profile).
Proof.
  unfold urisOfImages. simpl. intros ->. by rewrite map_app.
Qed.

Lemma urisOfImages_deleted index profile :
  urisOfImages env profile -> urisOfImages env (deleted index profile).
Proof.
  unfold urisOfImages, deleted. intros H.
  destruct (_ || _); [done|]. simpl. by rewrite H, splice1_map.
Qed.

Lemma urisOfImages_moved fromIndex toIndex profile :
  urisOfImages env profile -> urisOfImages env (moved fromIndex toIndex profile).
Proof.
  unfold urisOfImages, moved. intros H.
  destruct (_ || _) eqn:Hguard; [done|]. simpl. rewrite H.
  apply swapSlots_map; lia.
Qed.

(** ** The calls keep the invariant of the profile map *)

Lemma newProfileId_not_default now suffix :
  newProfileId now suffix <> DEFAULT_PROFILE_ID.
Proof. unfold newProfileId, DEFAULT_PROFILE_ID. discriminate. Qed.

Lemma storeInvariant_activeProfile st :
  storeInvariant env st ->
  JsMap.get (activeProfileId st) (profiles st) = Some (activeProfile st) /\
  Profile.id (activeProfile st) = activeProfileId st /\
  urisOfImages env (activeProfile st).
Proof.
  intros H. destruct (activeIsRegistered _ _ H) as [profile Hget].
  rewrite activeProfile_eq, Hget. split; [done|]. split.
  - apply JsMap_get_Some_elem in Hget.
    by apply (proj1 (Forall_forall _ _) (keysAreIds _ _ H)) in Hget.
  - by apply (JsMap_get_Forall _ _ _ _ (urisMatch _ _ H) Hget).
Qed.

Lemma storeInvariant_commit_active st profile' :
  storeInvariant env st ->
  Profile.id profile' = Profile.id (activeProfile st) ->
  urisOfImages env profile' ->
  storeInvariant env (commit profile' st).
Proof. apply storeInvariant_commit. Qed.

Lemma storeInvariant_createProfile now suffix name st :
  storeInvariant env st ->
  storeInvariant env (createProfile now suffix name st).2.
Proof.
  intros H. unfold createProfile.
  destruct (_ >=? _) eqn:Hfull; [done|]. simpl.
  destruct H as [H1 H2 H3 H4 H5 H6]. split; simpl.
  - by apply JsMap_set_NoDup.
  - by apply JsMap_set_entries.
  - by apply JsMap_set_Forall.
  - by apply JsMap_get_set_is_Some.
  - by apply JsMap_get_set_is_Some.
  - rewrite JsMap_set_size. destruct (JsMap.has _ _); lia.
Qed.

Lemma storeInvariant_deleteProfile profileId st :
  storeInvariant env st ->
  storeInvariant env (deleteProfile profileId st).2.
Proof.
  intros H. unfold deleteProfile.
  destruct (JsMap.get profileId (profiles st)) as [profile|] eqn:Hget; [|done].
  destruct (_ >? 0); [done|].
  destruct (decide (profileId = DEFAULT_PROFILE_ID)) as [|Hdefault]; [done|].
  destruct H as [H1 H2 H3 H4 H5 H6].
  assert (NoDup (map fst (JsMap.delete profileId (profiles st)))) as H1'.
  { eapply sublist_NoDup; [exact H1|].
    apply (fmap_sublist fst), JsMap_delete_sublist. }
  assert (Forall (fun entry => Profile.id entry.2 = entry.1)
            (JsMap.delete profileId (profiles st))) as H2'.
  { eapply Forall_sublist; [exact H2 | apply JsMap_delete_sublist]. }
  assert (Forall (urisOfImages env)
            (JsMap.values (JsMap.delete profileId (profiles st)))) as H3'.
  { eapply Forall_sublist; [exact H3|].
    apply (fmap_sublist snd), JsMap_delete_sublist. }
  assert (is_Some (JsMap.get DEFAULT_PROFILE_ID
                     (JsMap.delete profileId (profiles st)))) as H4'.
  { by rewrite JsMap_get_delete_ne. }
  pose proof (JsMap_delete_size profileId (profiles st)) as Hsize.
  cbv zeta. simpl activeProfileId.
  destruct (decide (activeProfileId st = profileId)) as [Hactive|Hactive]; simpl.
  - apply storeInvariant_sync. split; simpl; try done. lia.
  - split; simpl; try done; [|lia].
    unfold activeRegistered. simpl. by rewrite JsMap_get_delete_ne.
Qed.

Lemma urisOfImages_renamed newName profile :
  urisOfImages env profile -> urisOfImages env (renamed newName profile).
Proof. done. Qed.

Lemma storeInvariant_renameProfile profileId newName st :
  storeInvariant env st ->
  storeInvariant env (renameProfile profileId newName st).2.
Proof.
  intros H. unfold renameProfile.
  destruct (JsMap.get profileId (profiles st)) as [profile|] eqn:Hget; [|done].
  simpl. apply (storeInvariant_put st _ profile); try done.
  apply (urisOfImages_renamed newName).
  by apply (JsMap_get_Forall _ _ _ _ (urisMatch _ _ H) Hget).
Qed.

Lemma storeInvariant_setActiveProfile profileId st :
  storeInvariant env st ->
  storeInvariant env (setActiveProfile profileId st).2.
Proof.
  intros H. unfold setActiveProfile, JsMap.has.
  destruct (JsMap.get profileId (profiles st)) as [profile|] eqn:Hget; [|done].
  simpl. apply storeInvariant_sync.
  destruct H as [H1 H2 H3 H4 H5 H6]. split; simpl; try done.
  unfold activeRegistered. simpl. by exists profile.
Qed.

Lemma storeInvariant_saveSlideIndex index st :
  storeInvariant env st -> storeInvariant env (saveSlideIndex index st).
Proof.
  intros H. rewrite saveSlideIndex_commit by apply (activeIsRegistered _ _ H).
  apply storeInvariant_commit; [done..|].
  apply (storeInvariant_activeProfile st H).
Qed.

Lemma storeInvariant_getCustomThumbnail originalThumbnail now draws st ret st' :
  storeInvariant env st ->
  getCustomThumbnail originalThumbnail now draws st = Some (ret, st') ->
  storeInvariant env st'.
Proof.
  intros H. unfold getCustomThumbnail.
  destruct (_ || _); [intros [= <- <-]; by apply (storeInvariant_same st)|].
  destruct (_ || _); [intros [= <- <-]; by apply (storeInvariant_same st)|].
  destruct (manualSlideChange _);
    [intros [= <- <-]; by apply (storeInvariant_same st)|].
  destruct (if Settings.slideshowRandom _ then _ else _) as [nextIndex|];
    [|done].
  intros [= <- <-]. apply storeInvariant_saveSlideIndex.
  by apply (storeInvariant_same st).
Qed.

Lemma storeInvariant_handleSave m st :
  storeInvariant env st -> storeInvariant env (handleSave m st).
Proof.
  intros H. unfold handleSave. apply storeInvariant_saveSlideIndex.
  apply (storeInvariant_same st); [| |done]; by destruct (_ =? _).
Qed.

Lemma storeInvariant_perform call st st' :
  storeInvariant env st -> perform env call st = Some st' ->
  storeInvariant env st'.
Proof.
  intros H.
  pose proof (activeIsRegistered _ _ H) as Hactive.
  pose proof (storeInvariant_activeProfile st H) as (Hget & Hid & Huris).
  destruct call; simpl.
  - intros [= <-]. by apply storeInvariant_createProfile.
  - intros [= <-]. by apply storeInvariant_deleteProfile.
  - intros [= <-]. by apply storeInvariant_renameProfile.
  - intros [= <-]. by apply storeInvariant_setActiveProfile.
  - intros [= <-]. by apply storeInvariant_saveSlideIndex.
  - intros [= <-]. rewrite saveImagesToDataStore_commit by done.
    by apply storeInvariant_commit.
  - intros [= <-]. rewrite deleteAllImages_commit by done.
    by apply storeInvariant_commit.
  - intros [= <-]. rewrite deleteImageAtIndex_commit by done.
    destruct (_ || _) eqn:Hguard; [done|].
    apply storeInvariant_commit; [done| |by apply urisOfImages_deleted].
    unfold deleted. by rewrite Hguard.
  - intros [= <-]. rewrite moveImage_commit by done.
    destruct (_ || _) eqn:Hguard; [done|].
    apply storeInvariant_commit; [done| |by apply urisOfImages_moved].
    unfold moved. by rewrite Hguard.
  - intros [= <-]. rewrite addImage_commit by done.
    apply storeInvariant_commit; [done..|by apply urisOfImages_added].
  - destruct (getCustomThumbnail _ _ _ _) as [[ret st1]|] eqn:Hrun; [|done].
    intros [= <-]. by eapply storeInvariant_getCustomThumbnail.
  - intros [= <-]. unfold timerInterval.
    destruct (_ && _); [by apply (storeInvariant_same st) | done].
  - intros [= <-]. by apply storeInvariant_handleSave.
Qed.

Lemma storeInvariant_start s :
  multiProfileAbsent s -> legacyAbsent s ->
  storeInvariant env (start env (initialState s)).
Proof.
  intros Hmulti Hlegacy. unfold start, loadProfilesFromDataStore. simpl.
  rewrite (withProfiles_absent _ Hmulti), (withImages_absent _ Hlegacy).
  unfold syncCacheWithActiveProfile, getActiveProfile. simpl.
  split; simpl.
  - apply NoDup_singleton.
  - by repeat constructor.
  - by repeat constructor.
  - by eexists.
  - by eexists.
  - unfold JsMap.size, MAX_PROFILES. simpl. lia.
Qed.

(** X1. The invariant of the profile map. It holds once the plugin has
    started on a store that holds neither a multi-profile record nor a
    legacy list, and every call of the functions of the store, of
    [getCustomThumbnail], of the one-second check and of [handleSave]
    keeps it: keys stay distinct and equal to the identifiers of their
    profiles, every profile lists the data URLs of its images in order,
    the default profile and the active profile stay registered, and there
    are never more than [MAX_PROFILES] profiles. *)
Theorem calls_keep_store_invariant
    (s : DataStore.t) (calls : list Call) (st st' : State) :
  (multiProfileAbsent s -> legacyAbsent s ->
   storeInvariant env (start env (initialState s))) /\
  (storeInvariant env st -> performAll env calls st = Some st' ->
   storeInvariant env st').
Proof.
  split; [apply storeInvariant_start|].
  revert st. induction calls as [|call calls IH]; intros st H; simpl.
  - by intros [= <-].
  - destruct (perform env call st) as [st1|] eqn:Hcall; [|done].
    apply IH. by eapply storeInvariant_perform.
Qed.

(** ** The calls keep the invariant of the gallery *)

Lemma activeProfile_same st st' :
  profiles st' = profiles st ->
  activeProfileId st' = activeProfileId st ->
  activeProfile st' = activeProfile st.
Proof. intros Hp Ha. by rewrite !activeProfile_eq, Hp, Ha. Qed.

Lemma galleryInvariant_same st st' :
  profiles st' = profiles st ->
  activeProfileId st' = activeProfileId st ->
  cachedImages st' = cachedImages st ->
  cachedDataUris st' = cachedDataUris st ->
  currentSlideIndex st' = currentSlideIndex st ->
  galleryInvariant st -> galleryInvariant st'.
Proof.
  intros Hp Ha Hi Hu Hc [H1 H2 H3 H4].
  split; rewrite ?(activeProfile_same st st' Hp Ha); congruence.
Qed.

Lemma galleryInvariant_sync st :
  activeRegistered st ->
  Forall indexValid (JsMap.values (profiles st)) ->
  galleryInvariant (syncCacheWithActiveProfile st).
Proof.
  intros Hactive Hvalid.
  pose proof (activeProfile_sync st) as Hprofile.
  unfold syncCacheWithActiveProfile in *.
  rewrite (getActiveProfile_active _ Hactive) in *.
  split; simpl; by rewrite ?Hprofile.
Qed.

Lemma galleryInvariant_commit st profile' :
  activeRegistered st ->
  Forall indexValid (JsMap.values (profiles st)) ->
  indexValid profile' ->
  galleryInvariant (commit profile' st).
Proof.
  intros Hactive Hvalid Hprofile.
  rewrite commit_registered by done. cbv zeta.
  split; rewrite ?activeProfile_eq; simpl; rewrite ?JsMap_get_set_eq; try done.
  by apply JsMap_set_Forall.
Qed.

Lemma indexValid_active st :
  Forall indexValid (JsMap.values (profiles st)) -> indexValid (activeProfile st).
Proof.
  intros H. rewrite activeProfile_eq.
  destruct (JsMap.get _ _) as [profile|] eqn:Hget.
  - by apply (JsMap_get_Forall _ _ _ _ H Hget).
  - unfold indexValid. simpl. lia.
Qed.

Lemma indexValid_added blob profile :
  indexValid profile -> indexValid (added env blob profile).
Proof.
  unfold indexValid, added, JsArray.len. simpl. rewrite length_app. simpl. lia.
Qed.

Lemma indexValid_deleted index profile :
  indexValid profile -> indexValid (deleted index profile).
Proof.
  unfold indexValid, deleted. intros H.
  destruct (_ || _) eqn:Hguard; [done|]. simpl.
  assert (0 <= index < JsArray.len (Profile.images profile)) as Hin by lia.
  clear Hguard. rewrite len_splice1 by done.
  destruct (_ >=? _) eqn:Hreset; lia.
Qed.

Lemma indexValid_moved fromIndex toIndex profile :
  indexValid profile -> indexValid (moved fromIndex toIndex profile).
Proof.
  unfold indexValid, moved. intros H.
  destruct (_ || _) eqn:Hguard; [done|]. simpl. rewrite len_swap.
  assert (0 <= fromIndex < JsArray.len (Profile.images profile)
          /\ 0 <= toIndex < JsArray.len (Profile.images profile))
    as [Hfrom Hto] by lia.
  clear Hguard.
  destruct (_ =? fromIndex); [lia|].
  destruct (_ =? toIndex); lia.
Qed.

Lemma urisOfImages_len profile :
  urisOfImages env profile ->
  JsArray.len (Profile.dataUris profile) = JsArray.len (Profile.images profile).
Proof. unfold urisOfImages, JsArray.len. intros ->. by rewrite length_map. Qed.

Lemma drawNextIndex_drawn current n draws nextIndex :
  drawNextIndex current n draws = Some nextIndex -> nextIndex ∈ draws.
Proof.
  induction draws as [|d draws IH]; simpl; [done|].
  destruct (_ && _).
  - intros H. apply list_elem_of_further. by apply IH.
  - intros [= ->]. apply list_elem_of_here.
Qed.

Lemma galleryInvariant_saveSlideIndex index st :
  activeRegistered st ->
  Forall indexValid (JsMap.values (profiles st)) ->
  0 <= index < Z.max 1 (JsArray.len (Profile.images (activeProfile st))) ->
  galleryInvariant (saveSlideIndex index st).
Proof.
  intros Hactive Hvalid Hindex. rewrite saveSlideIndex_commit by done.
  by apply galleryInvariant_commit.
Qed.

Lemma galleryInvariant_getCustomThumbnail originalThumbnail now draws st ret st' :
  storeInvariant env st -> galleryInvariant st ->
  Forall (fun d => 0 <= d < JsArray.len (cachedDataUris st)) draws ->
  getCustomThumbnail originalThumbnail now draws st = Some (ret, st') ->
  galleryInvariant st'.
Proof.
  intros Hstore Hgallery Hdraws.
  pose proof (storeInvariant_activeProfile st Hstore) as (_ & _ & Huris).
  pose proof (indexValid_active st (indicesValid _ Hgallery)) as Hvalid.
  pose proof (urisOfImages_len _ Huris) as Hlen.
  rewrite <- (cacheHoldsUris _ Hgallery) in Hlen.
  unfold indexValid in Hvalid.
  rewrite <- (cacheHoldsIndex _ Hgallery) in Hvalid.
  unfold getCustomThumbnail.
  destruct (negb _ || (_ =? 0)) eqn:Hshow;
    [intros [= <- <-]; by apply (galleryInvariant_same st)|].
  destruct ((_ =? 1) || negb _) eqn:Hsingle;
    [intros [= <- <-]; by apply (galleryInvariant_same st)|].
  destruct (manualSlideChange _);
    [intros [= <- <-]; by apply (galleryInvariant_same st)|].
  simpl in Hshow, Hsingle.
  destruct (if Settings.slideshowRandom _ then _ else _) as [nextIndex|]
    eqn:Hnext; [|done].
  intros [= <- <-]. apply galleryInvariant_saveSlideIndex.
  - apply (activeIsRegistered _ _ Hstore).
  - apply (indicesValid _ Hgallery).
  - match goal with
    | |- context [activeProfile ?st1] =>
        rewrite (activeProfile_same st st1) by done
    end.
    rewrite <- Hlen. simpl in Hnext.
    pose proof (len_nonneg (cachedDataUris st)) as Hcount.
    destruct (Settings.slideshowRandom _).
    + apply drawNextIndex_drawn in Hnext.
      apply (proj1 (Forall_forall _ _) Hdraws) in Hnext. lia.
    + injection Hnext as <-.
      pose proof (Z.rem_bound_pos (currentSlideIndex st + 1)
                    (JsArray.len (cachedDataUris st))). lia.
Qed.

Lemma galleryInvariant_perform call st st' :
  storeInvariant env st -> galleryInvariant st -> admissible call st ->
  perform env call st = Some st' ->
  galleryInvariant st'.
Proof.
  intros Hstore Hgallery.
  pose proof (activeIsRegistered _ _ Hstore) as Hactive.
  pose proof (storeInvariant_activeProfile st Hstore) as (Hget & Hid & Huris).
  pose proof (indicesValid _ Hgallery) as Hvalid.
  pose proof (indexValid_active st Hvalid) as Hcurrent.
  destruct call
    as [now sfx name | profileId | profileId newName | profileId | index
       | blobs | | index | fromIndex toIndex | blob
       | originalThumbnail now draws | now | m];
    simpl; intros Hadmissible.
  - intros [= <-]. unfold createProfile.
    destruct (_ >=? _); [done|]. simpl.
    destruct Hgallery as [H1 H2 H3 H4].
    assert (activeProfile
              (set_profiles
                 (JsMap.set (newProfileId now sfx)
                    (Profile.mk (newProfileId now sfx) name [] [] 0)
                    (profiles st)) st) = activeProfile st) as Hsame.
    { rewrite !activeProfile_eq. simpl. by rewrite JsMap_get_set_ne. }
    split; rewrite ?Hsame; simpl; try done.
    apply JsMap_set_Forall; [done|]. unfold indexValid. simpl. lia.
  - intros [= <-]. unfold deleteProfile.
    destruct (JsMap.get profileId (profiles st)) as [profile|] eqn:Hdeleted;
      [|done].
    destruct (_ >? 0); [done|].
    destruct (decide (profileId = DEFAULT_PROFILE_ID)) as [|Hdefault]; [done|].
    assert (Forall indexValid
              (JsMap.values (JsMap.delete profileId (profiles st)))) as Hvalid'.
    { eapply Forall_sublist; [exact Hvalid|].
      apply (fmap_sublist snd), JsMap_delete_sublist. }
    cbv zeta. simpl activeProfileId.
    destruct (decide (activeProfileId st = profileId)) as [Heq|Hne]; simpl.
    + apply galleryInvariant_sync; [|done].
      unfold activeRegistered. simpl. rewrite JsMap_get_delete_ne by done.
      apply (defaultRegistered _ _ Hstore).
    + destruct Hgallery as [H1 H2 H3 H4].
      assert (activeProfile
                (set_profiles (JsMap.delete profileId (profiles st)) st)
              = activeProfile st) as Hsame.
      { rewrite !activeProfile_eq. simpl.
        by rewrite JsMap_get_delete_ne by done. }
      split; rewrite ?Hsame; done.
  - intros [= <-]. unfold renameProfile.
    destruct (JsMap.get profileId (profiles st)) as [profile|] eqn:Hrenamed;
      [|done].
    simpl. destruct Hgallery as [H1 H2 H3 H4].
    assert (Forall indexValid
              (JsMap.values
                 (JsMap.set profileId (renamed newName profile) (profiles st))))
      as Hvalid'.
    { apply JsMap_set_Forall; [done|].
      by apply (JsMap_get_Forall _ _ _ _ Hvalid Hrenamed). }
    split; [done|..]; rewrite !activeProfile_eq in *; simpl;
      (destruct (decide (profileId = activeProfileId st)) as [->|Hne];
       [rewrite JsMap_get_set_eq; rewrite Hrenamed in *; done
       |rewrite JsMap_get_set_ne by done; done]).
  - intros [= <-]. unfold setActiveProfile, JsMap.has.
    destruct (JsMap.get profileId (profiles st)) as [profile|] eqn:Hswitched;
      [|done].
    simpl. apply galleryInvariant_sync; [|done].
    unfold activeRegistered. simpl. by exists profile.
  - intros [= <-]. by apply galleryInvariant_saveSlideIndex.
  - intros [= <-]. rewrite saveImagesToDataStore_commit by done.
    apply galleryInvariant_commit; [done..|].
    unfold indexValid in *. simpl. lia.
  - intros [= <-]. rewrite deleteAllImages_commit by done.
    apply galleryInvariant_commit; [done..|].
    unfold indexValid. simpl. lia.
  - intros [= <-]. rewrite deleteImageAtIndex_commit by done.
    destruct (_ || _); [done|].
    apply galleryInvariant_commit; [done..|by apply indexValid_deleted].
  - intros [= <-]. rewrite moveImage_commit by done.
    destruct (_ || _); [done|].
    apply galleryInvariant_commit; [done..|by apply indexValid_moved].
  - intros [= <-]. rewrite addImage_commit by done.
    apply galleryInvariant_commit; [done..|by apply indexValid_added].
  - destruct (getCustomThumbnail _ _ _ _) as [[ret st1]|] eqn:Hrun; [|done].
    intros [= <-]. by eapply galleryInvariant_getCustomThumbnail.
  - intros [= <-]. unfold timerInterval.
    destruct (_ && _); [by apply (galleryInvariant_same st) | done].
  - intros [= <-]. unfold handleSave.
    apply galleryInvariant_saveSlideIndex.
    + by destruct (_ =? _).
    + by destruct (_ =? _).
    + match goal with
      | |- context [activeProfile ?st1] =>
          rewrite (activeProfile_same st st1)
            by (simpl; by destruct (_ =? _))
      end.
      done.
Qed.

Lemma galleryInvariant_start s :
  multiProfileAbsent s -> legacyAbsent s ->
  galleryInvariant (start env (initialState s)).
Proof.
  intros Hmulti Hlegacy. unfold start, loadProfilesFromDataStore. simpl.
  rewrite (withProfiles_absent _ Hmulti), (withImages_absent _ Hlegacy).
  unfold syncCacheWithActiveProfile, getActiveProfile. simpl.
  split; simpl; try done.
  repeat constructor. unfold indexValid. simpl. lia.
Qed.

(** X2. The invariant of the gallery. It holds once the plugin has
    started on a store without a multi-profile record and without a
    legacy list, and a call keeps it, together with the invariant of the
    profile map, when the index it saves designates an image of the
    active profile, the random draws lie below the image count and a new
    profile identifier is not the active one: the current-slide index of
    every profile designates one of its images (it is 0 when there is
    none), and the cache holds the images, the data URLs and the index of
    the active profile. *)
Theorem calls_keep_gallery_invariant
    (s : DataStore.t) (call : Call) (st st' : State) :
  (multiProfileAbsent s -> legacyAbsent s ->
   galleryInvariant (start env (initialState s))) /\
  (storeInvariant env st -> galleryInvariant st -> admissible call st ->
   perform env call st = Some st' ->
   storeInvariant env st' /\ galleryInvariant st').
Proof.
  split; [apply galleryInvariant_start|].
  intros Hstore Hgallery Hadmissible Hcall. split.
  - by eapply storeInvariant_perform.
  - by eapply galleryInvariant_perform.
Qed.

(** ** The image that is shown *)

Lemma getSlot_uris profile i :
  urisOfImages env profile ->
  0 <= i < JsArray.len (Profile.images profile) ->
  exists blob,
    Profile.images profile !! Z.to_nat i = Some blob /\
    uriOf (JsArray.getSlot (Profile.dataUris profile) i)
      = UStr (blobToDataUrl env blob).
Proof.
  unfold urisOfImages, JsArray.len, JsArray.getSlot. intros -> Hi.
  destruct (lookup_lt_is_Some_2 (Profile.images profile) (Z.to_nat i))
    as [blob Hblob]; [lia|].
  exists blob. split; [done|].
  replace (i <? 0) with false by lia.
  change (map (fun blob => Some (blobToDataUrl env blob)) (Profile.images profile))
    with ((fun blob => Some (blobToDataUrl env blob)) <$> Profile.images profile).
  by rewrite list_lookup_fmap, Hblob.
Qed.

Lemma showsCustomImage_count st :
  showsCustomImage st -> 0 < JsArray.len (cachedDataUris st).
Proof.
  intros [_ Hnonempty]. pose proof (len_nonneg (cachedDataUris st)).
  assert (JsArray.len (cachedDataUris st) <> 0) by by rewrite len_zero_nil.
  lia.
Qed.

(** X3. When a custom image is shown in a state that satisfies the two
    invariants, [getCustomThumbnail] returns the data URL of an image of
    the active profile, namely of the image at the current-slide index
    that the invocation leaves; that index lies within the images, the
    URL is recorded as the image on the stream, and the list of images is
    untouched. (The random draws lie below the image count and one of
    them differs from the current index.) *)
Theorem thumbnail_is_the_image_at_the_current_index
    (originalThumbnail : string) (now : Z) (draws : list Z) (st : State) :
  storeInvariant env st -> galleryInvariant st ->
  showsCustomImage st ->
  Forall (fun d => 0 <= d < JsArray.len (cachedDataUris st)) draws ->
  (advancesSlide st -> Settings.slideshowRandom (settings st) = true ->
   Exists (fun d => d <> currentSlideIndex st) draws) ->
  exists ret st' blob,
    getCustomThumbnail originalThumbnail now draws st = Some (ret, st') /\
    ret = UStr (blobToDataUrl env blob) /\
    actualStreamImageUri st' = ret /\
    Profile.images (activeProfile st') = Profile.images (activeProfile st) /\
    0 <= currentSlideIndex st' < JsArray.len (Profile.images (activeProfile st)) /\
    Profile.images (activeProfile st) !! Z.to_nat (currentSlideIndex st')
      = Some blob.
Proof.
  intros Hstore Hgallery Hshows Hdraws Hrandom.
  pose proof (activeIsRegistered _ _ Hstore) as Hactive.
  pose proof (storeInvariant_activeProfile st Hstore) as (Hget & _ & Huris).
  pose proof (indexValid_active st (indicesValid _ Hgallery)) as Hvalid.
  pose proof (urisOfImages_len _ Huris) as Hlen.
  pose proof (showsCustomImage_count st Hshows) as Hcount.
  unfold indexValid in Hvalid.
  rewrite <- (cacheHoldsIndex _ Hgallery) in Hvalid.
  rewrite (cacheHoldsUris _ Hgallery) in Hcount.
  assert (0 <= currentSlideIndex st
            < JsArray.len (Profile.images (activeProfile st))) as Hcurrent by lia.
  destruct (keepsSlide_or_advancesSlide st Hshows) as [Hkeeps | Hadvances].
  - destruct (getSlot_uris _ _ Huris Hcurrent) as (blob & Hblob & Hshown).
    assert (exists st',
              getCustomThumbnail originalThumbnail now draws st =
                Some (uriOf (JsArray.getSlot (cachedDataUris st)
                               (currentSlideIndex st)), st') /\
              actualStreamImageUri st' =
                uriOf (JsArray.getSlot (cachedDataUris st) (currentSlideIndex st)) /\
              currentSlideIndex st' = currentSlideIndex st /\
              profiles st' = profiles st /\
              activeProfileId st' = activeProfileId st)
      as (st' & Hrun & Hactual & Hindex & Hprofiles & Hid).
    { destruct (decide (JsArray.len (cachedDataUris st) = 1
                        \/ Settings.slideshowEnabled (settings st) = false))
        as [Hsingle | Hmany].
      - eexists. rewrite (getCustomThumbnail_single _ _ _ _ Hshows Hsingle).
        cbv zeta.
        replace (currentSlideIndex st <? JsArray.len (cachedDataUris st))
          with true
          by (rewrite (cacheHoldsUris _ Hgallery); lia).
        by repeat split.
      - assert (manualSlideChange st = true) as Hmanual
          by (destruct Hkeeps as [?|[?|?]]; tauto).
        assert (JsArray.len (cachedDataUris st) <> 1) as Hcount1 by tauto.
        assert (Settings.slideshowEnabled (settings st) = true) as Hslideshow
          by (destruct (Settings.slideshowEnabled (settings st)); tauto).
        eexists.
        rewrite (getCustomThumbnail_manual _ _ _ _ Hshows Hcount1 Hslideshow
                   Hmanual).
        by repeat split. }
    exists (UStr (blobToDataUrl env blob)), st', blob.
    rewrite (cacheHoldsUris _ Hgallery) in Hrun, Hactual.
    rewrite Hshown in Hrun, Hactual.
    rewrite (activeProfile_same st st' Hprofiles Hid), Hindex.
    repeat split; try done; lia.
  - pose proof (getCustomThumbnail_advance originalThumbnail now draws st
                  Hshows Hadvances) as Hrun.
    assert (exists nextIndex,
              selectedIndex draws st = Some nextIndex /\
              0 <= nextIndex < JsArray.len (Profile.images (activeProfile st)))
      as (nextIndex & Hselected & Hnext).
    { unfold selectedIndex.
      destruct (Settings.slideshowRandom (settings st)) eqn:Hmode.
      - pose proof (Hrandom Hadvances eq_refl) as Hdiffers.
        destruct Hadvances as (Hmany & _ & _).
        destruct (proj2 (drawNextIndex_is_Some (currentSlideIndex st) _ draws Hmany)
                    Hdiffers)
          as [nextIndex Hdrawn].
        exists nextIndex. split; [done|].
        apply drawNextIndex_drawn in Hdrawn.
        apply (proj1 (Forall_forall _ _) Hdraws) in Hdrawn.
        rewrite (cacheHoldsUris _ Hgallery) in Hdrawn. lia.
      - eexists. split; [done|].
        rewrite (cacheHoldsUris _ Hgallery), Hlen.
        pose proof (Z.rem_bound_pos (currentSlideIndex st + 1)
                      (JsArray.len (Profile.images (activeProfile st)))).
        lia. }
    rewrite Hselected in Hrun. cbv zeta in Hrun.
    destruct (getSlot_uris _ _ Huris Hnext) as (blob & Hblob & Hshown).
    rewrite (cacheHoldsUris _ Hgallery), Hshown in Hrun.
    set (st1 := set_actualStreamImageUri _ _) in Hrun.
    assert (activeRegistered st1) as Hactive1 by done.
    assert (activeProfile st1 = activeProfile st) as Hsame
      by by apply activeProfile_same.
    assert (actualStreamImageUri st1 = UStr (blobToDataUrl env blob))
      as Hactual by done.
    clearbody st1.
    rewrite saveSlideIndex_commit in Hrun by done.
    eexists _, _, blob. split; [exact Hrun|].
    rewrite commit_active by done.
    rewrite commit_registered by done. simpl. rewrite Hsame.
    repeat split; try done; lia.
Qed.

(** ** Persistence *)

Lemma persisted_commit st profile' :
  activeRegistered st -> persisted (commit profile' st).
Proof.
  intros H. unfold persisted. rewrite commit_registered by done. simpl.
  unfold DataStore.get, DataStore.set. simpl. by rewrite lookup_insert_eq.
Qed.

(** X4. Every mutation of the gallery is persisted. On a registered
    active profile, [addImage], [deleteAllImages], [saveImagesToDataStore],
    [saveSlideIndex], [handleSave], a [deleteImageAtIndex] within the
    images and a [moveImage] between two different positions within the
    images leave the multi-profile key of the durable store holding
    exactly the serialisation of the profile map and of the active
    identifier of the state they return. *)
Theorem gallery_mutations_are_persisted
    (blob : Blob.t) (blobs : list Blob.t) (index fromIndex toIndex : Z)
    (m : Modal) (st : State) :
  activeRegistered st ->
  let count := JsArray.len (Profile.images (activeProfile st)) in
  persisted (addImage env blob st) /\
  persisted (deleteAllImages st) /\
  persisted (saveImagesToDataStore env blobs st) /\
  persisted (saveSlideIndex index st) /\
  persisted (handleSave m st) /\
  (0 <= index < count -> persisted (deleteImageAtIndex index st)) /\
  (fromIndex <> toIndex -> 0 <= fromIndex < count -> 0 <= toIndex < count ->
   persisted (moveImage fromIndex toIndex st)).
Proof.
  intros Hactive count. subst count.
  rewrite addImage_commit, deleteAllImages_commit,
    saveImagesToDataStore_commit, saveSlideIndex_commit,
    deleteImageAtIndex_commit, moveImage_commit by done.
  repeat split; try by apply persisted_commit.
  - unfold handleSave. cbv zeta.
    rewrite saveSlideIndex_commit by (by destruct (_ =? _)).
    apply persisted_commit. by destruct (_ =? _).
  - intros Hin.
    replace ((index <? 0)
             || (index >=? JsArray.len (Profile.images (activeProfile st))))
      with false by lia.
    by apply persisted_commit.
  - intros Hne Hfrom Hto.
    replace ((fromIndex =? toIndex) || (fromIndex <? 0)
             || (fromIndex >=? JsArray.len (Profile.images (activeProfile st)))
             || (toIndex <? 0)
             || (toIndex >=? JsArray.len (Profile.images (activeProfile st))))
      with false by lia.
    by apply persisted_commit.
Qed.

(** ** Restart *)

Lemma blob_stored_roundtrip blob :
  Forall (fun z => 0 <= z < 256) (Blob.bytes blob) ->
  blobOfStored (storedOfBlob blob) = blob.
Proof.
  destruct blob as [type bytes]. unfold blobOfStored, storedOfBlob. simpl.
  intros Hbytes. f_equal. unfold toUint8Array.
  induction Hbytes as [|z bytes Hz _ IH]; simpl; [done|].
  by rewrite IH, Z.mod_small.
Qed.

Lemma profileOfStored_storedOfProfile profile :
  urisOfImages env profile ->
  Forall (fun blob => Forall (fun z => 0 <= z < 256) (Blob.bytes blob))
    (Profile.images profile) ->
  profileOfStored env (storedOfProfile profile) = profile.
Proof.
  destruct profile as [id name images dataUris currentIndex].
  unfold urisOfImages, profileOfStored, storedOfProfile. simpl.
  intros -> Hbytes.
  assert (map blobOfStored (map storedOfBlob images) = images) as ->; [|done].
  induction Hbytes as [|blob images Hblob _ IH]; simpl; [done|].
  by rewrite IH, blob_stored_roundtrip.
Qed.

(** Registering again, in order, the profiles that were serialised. *)
Lemma register_stored (entries registered : JsMap.t Profile.t) :
  NoDup (map fst (registered ++ entries)) ->
  Forall (fun entry => Profile.id entry.2 = entry.1) entries ->
  Forall (urisOfImages env) (JsMap.values entries) ->
  Forall
    (fun profile =>
       Forall (fun blob => Forall (fun z => 0 <= z < 256) (Blob.bytes blob))
         (Profile.images profile))
    (JsMap.values entries) ->
  fold_left
    (fun m stored =>
       JsMap.set (StoredProfile.id stored) (profileOfStored env stored) m)
    (map storedOfProfile (JsMap.values entries)) registered
  = registered ++ entries.
Proof.
  revert registered.
  induction entries as [|[key profile] entries IH];
    intros registered Hkeys Hids Huris Hbytes; simpl.
  - by rewrite app_nil_r.
  - apply Forall_cons in Hids as [Hid Hids].
    apply Forall_cons in Huris as [Huri Huris].
    apply Forall_cons in Hbytes as [Hbyte Hbytes].
    simpl in Hid. rewrite Hid.
    rewrite profileOfStored_storedOfProfile by done.
    rewrite JsMap_set_absent.
    + rewrite IH; [by rewrite <- app_assoc| |done..].
      by rewrite <- app_assoc.
    + apply JsMap_get_None.
      rewrite map_app in Hkeys. apply NoDup_app in Hkeys as (_ & Hdisjoint & _).
      intros Hin. apply (Hdisjoint key Hin). apply list_elem_of_here.
Qed.

(** Loading what a state that satisfies the invariant has persisted. *)
Lemma load_persisted st st0 :
  storeInvariant env st -> persisted st -> blobsAreBytes st ->
  activeProfileId st <> "" ->
  store st0 = store st ->
  let st' := loadProfilesFromDataStore env st0 in
  profiles st' = profiles st /\
  activeProfileId st' = activeProfileId st /\
  cachedImages st' = Profile.images (activeProfile st) /\
  cachedDataUris st' = Profile.dataUris (activeProfile st) /\
  currentSlideIndex st' = Profile.currentIndex (activeProfile st) /\
  lastSlideChangeTime st' = lastSlideChangeTime st0 /\
  isStreamActive st' = isStreamActive st0 /\
  manualSlideChange st' = manualSlideChange st0 /\
  actualStreamImageUri st' = actualStreamImageUri st0 /\
  settings st' = settings st0 /\
  store st' = store st.
Proof.
  intros Hinv Hpersisted Hbytes Hnonempty Hstore.
  pose proof (storeInvariant_activeProfile st Hinv) as (Hget & _ & _).
  destruct Hinv as [H1 H2 H3 H4 H5 H6].
  unfold loadProfilesFromDataStore. rewrite Hstore, Hpersisted.
  assert (withProfiles
            (Some (DProfiles
                     (StoredProfilesData.mk
                        (map storedOfProfile (JsMap.values (profiles st)))
                        (activeProfileId st))))
          = Some (StoredProfilesData.mk
                    (map storedOfProfile (JsMap.values (profiles st)))
                    (activeProfileId st))) as ->.
  { unfold withProfiles. simpl.
    destruct (profiles st) as [|entry entries]; [done|done]. }
  simpl. rewrite decide_False by done.
  rewrite (register_stored (profiles st) JsMap.empty) by done. simpl.
  unfold syncCacheWithActiveProfile, getActiveProfile. simpl.
  rewrite Hget. simpl. by repeat split.
Qed.

(** X5. What has been persisted is what a restart loads. When the state
    satisfies the invariant of the profile map, the durable store mirrors
    it, the bytes of the images are bytes and the active identifier is
    not empty, then stopping and starting the plugin, and starting it
    afresh on the same durable store, both give back the same profile
    map and the same active identifier, with the cache holding the
    images, the data URLs and the index of the active profile; the
    durable store is left as it is. *)
Theorem restart_restores_what_was_persisted (st : State) :
  storeInvariant env st -> persisted st -> blobsAreBytes st ->
  activeProfileId st <> "" ->
  let restored st' :=
    profiles st' = profiles st /\
    activeProfileId st' = activeProfileId st /\
    cachedImages st' = Profile.images (activeProfile st) /\
    cachedDataUris st' = Profile.dataUris (activeProfile st) /\
    currentSlideIndex st' = Profile.currentIndex (activeProfile st) /\
    store st' = store st in
  restored (start env (stop st)) /\
  restored (start env (initialState (store st))).
Proof.
  intros Hinv Hpersisted Hbytes Hnonempty.
  pose proof (storeInvariant_activeProfile st Hinv) as (Hget & _ & _).
  assert (forall st0, store st0 = store st ->
            let st' := start env st0 in
            profiles st' = profiles st /\
            activeProfileId st' = activeProfileId st /\
            cachedImages st' = Profile.images (activeProfile st) /\
            cachedDataUris st' = Profile.dataUris (activeProfile st) /\
            currentSlideIndex st' = Profile.currentIndex (activeProfile st) /\
            store st' = store st) as Hstart.
  { intros st0 Hstore.
    pose proof (load_persisted st st0 Hinv Hpersisted Hbytes Hnonempty Hstore)
      as Hload.
    cbv zeta in Hload.
    destruct Hload as (Hp & Ha & Hi & Hu & Hc & _ & _ & _ & _ & _ & Hs).
    unfold start.
    set (st1 := loadProfilesFromDataStore env st0) in *. clearbody st1.
    unfold syncCacheWithActiveProfile, getActiveProfile.
    rewrite Hp, Ha, Hget. simpl. rewrite Hp, Ha, Hget. simpl.
    by repeat split. }
  split; by apply Hstart.
Qed.

(** ** Loading a multi-profile record *)

Lemma register_fresh (stored : list StoredProfile.t)
    (registered : JsMap.t Profile.t) :
  NoDup (map fst registered ++ map StoredProfile.id stored) ->
  fold_left
    (fun m stored =>
       JsMap.set (StoredProfile.id stored) (profileOfStored env stored) m)
    stored registered
  = registered
      ++ map (fun stored => (StoredProfile.id stored, profileOfStored env stored))
           stored.
Proof.
  revert registered.
  induction stored as [|first stored IH]; intros registered Hkeys; simpl.
  - by rewrite app_nil_r.
  - rewrite JsMap_set_absent.
    + rewrite IH; [by rewrite <- app_assoc|].
      rewrite map_app. simpl. by rewrite <- app_assoc.
    + apply JsMap_get_None.
      apply NoDup_app in Hkeys as (_ & Hdisjoint & _).
      intros Hin. apply (Hdisjoint _ Hin). apply list_elem_of_here.
Qed.

(** X6. Loading a multi-profile record. When the multi-profile key holds
    a record that lists at least one profile, [loadProfilesFromDataStore]
    writes nothing to the durable store (the legacy keys, if any, stay
    as they are and are not read), and it takes the stored active
    identifier, or the default one when that is empty. When moreover the
    stored identifiers are distinct and the active one is among them,
    the profile map is replaced by the stored profiles, in order, each
    with its bytes taken modulo 256 and the data URLs of its images, and
    the cache holds the images of the active one. *)
Theorem load_reads_the_multi_profile_record
    (st : State) (data : StoredProfilesData.t) :
  DataStore.get DATASTORE_KEY_PROFILES (store st) = Some (DProfiles data) ->
  StoredProfilesData.profiles data <> [] ->
  let st' := loadProfilesFromDataStore env st in
  let active :=
    if decide (StoredProfilesData.activeProfileId data = "")
    then DEFAULT_PROFILE_ID else StoredProfilesData.activeProfileId data in
  store st' = store st /\
  activeProfileId st' = active /\
  (NoDup (map StoredProfile.id (StoredProfilesData.profiles data)) ->
   forall stored,
     stored ∈ StoredProfilesData.profiles data ->
     StoredProfile.id stored = active ->
     profiles st' =
       map (fun stored => (StoredProfile.id stored, profileOfStored env stored))
         (StoredProfilesData.profiles data) /\
     activeProfile st' = profileOfStored env stored /\
     cachedImages st' = map blobOfStored (StoredProfile.images stored) /\
     currentSlideIndex st' = StoredProfile.currentIndex stored).
Proof.
  intros Hget Hnonempty st' active. subst st' active.
  unfold loadProfilesFromDataStore. rewrite Hget.
  assert (withProfiles (Some (DProfiles data)) = Some data) as ->.
  { unfold withProfiles. by destruct (StoredProfilesData.profiles data). }
  split; [|split].
  - by rewrite (proj2 (sync_sameGlobals _)).
  - by rewrite (proj1 (proj1 (sync_sameGlobals _))).
  - intros Hdistinct stored Hin Hactive.
    rewrite (register_fresh _ JsMap.empty) by done. simpl.
    set (entries :=
           map (fun stored => (StoredProfile.id stored, profileOfStored env stored))
             (StoredProfilesData.profiles data)).
    assert (JsMap.get (StoredProfile.id stored) entries
            = Some (profileOfStored env stored)) as Hregistered.
    { subst entries. clear Hget Hnonempty Hactive.
      induction (StoredProfilesData.profiles data) as [|first rest IH];
        [by apply elem_of_nil in Hin|].
      simpl in *. apply NoDup_cons in Hdistinct as [Hfirst Hrest].
      apply elem_of_cons in Hin as [->|Hin].
      - by rewrite decide_True.
      - rewrite decide_False; [by apply IH|].
        intros Heq. apply Hfirst. rewrite <- Heq.
        by apply (list_elem_of_fmap_2 StoredProfile.id). }
    rewrite Hactive in Hregistered.
    unfold syncCacheWithActiveProfile, getActiveProfile. simpl.
    rewrite Hregistered. simpl.
    rewrite activeProfile_eq. simpl. by rewrite Hregistered.
Qed.

(** ** Profiles *)

(** X7. [createProfile] and the limit on the number of profiles. With
    [MAX_PROFILES] profiles or more the call returns [null] and changes
    nothing. Below the limit it registers, under an identifier that is
    never the default one, a profile with the name given, no image and
    the index 0, and returns it; no other key of the map changes, the
    number of profiles stays within the limit, and nothing but the map
    changes (the durable store in particular is not written). When the
    identifier is not registered yet, the new profile comes last in the
    profile list. *)
Theorem createProfile_respects_the_limit
    (now : Z) (sfx name : string) (st : State) :
  let id := newProfileId now sfx in
  let created := Profile.mk id name [] [] 0 in
  id <> DEFAULT_PROFILE_ID /\
  (MAX_PROFILES <= JsMap.size (profiles st) ->
   createProfile now sfx name st = (None, st)) /\
  (JsMap.size (profiles st) < MAX_PROFILES ->
   createProfile now sfx name st =
     (Some created, set_profiles (JsMap.set id created (profiles st)) st) /\
   let st' := (createProfile now sfx name st).2 in
   JsMap.get id (profiles st') = Some created /\
   (forall key, key <> id ->
      JsMap.get key (profiles st') = JsMap.get key (profiles st)) /\
   JsMap.size (profiles st') <= MAX_PROFILES /\
   (JsMap.get id (profiles st) = None ->
    getProfileList st' = getProfileList st ++ [created])).
Proof.
  cbv zeta. split; [apply newProfileId_not_default|].
  unfold createProfile. split.
  - intros Hfull. by replace (_ >=? _) with true by lia.
  - intros Hroom. replace (_ >=? _) with false by lia. simpl.
    split; [done|]. split; [apply JsMap_get_set_eq|]. split.
    + intros key Hkey. by apply JsMap_get_set_ne.
    + split.
      * rewrite JsMap_set_size. destruct (JsMap.has _ _); lia.
      * intros Hfresh. unfold getProfileList, JsMap.values. simpl.
        rewrite JsMap_set_absent by done. by rewrite map_app.
Qed.

Lemma deleteProfile_result profileId st :
  (deleteProfile profileId st).1 =
    match JsMap.get profileId (profiles st) with
    | None => false
    | Some profile =>
        negb (JsArray.len (Profile.images profile) >? 0)
        && negb (bool_decide (profileId = DEFAULT_PROFILE_ID))
    end.
Proof.
  unfold deleteProfile.
  destruct (JsMap.get profileId (profiles st)) as [profile|]; [|done].
  destruct (_ >? 0); [done|]. simpl.
  destruct (decide (profileId = DEFAULT_PROFILE_ID)).
  - by rewrite bool_decide_eq_true_2.
  - rewrite bool_decide_eq_false_2 by done. cbv zeta. simpl.
    by destruct (decide (activeProfileId st = profileId)).
Qed.

(** X8. [deleteProfile] spares the images and the default profile. It
    succeeds exactly when the identifier is registered, its profile has
    no image and it is not the default profile; otherwise it changes
    nothing. On success the identifier is no longer registered and is
    not the active one, and the durable store is not written. In every
    case a profile that holds images, and the default profile, stay
    registered as they are, as does every profile but the deleted one
    and the default one. *)
Theorem deleteProfile_spares_images_and_default
    (profileId : string) (st : State) :
  let deleted := (deleteProfile profileId st).1 in
  let st' := (deleteProfile profileId st).2 in
  (deleted = true <->
   exists profile,
     JsMap.get profileId (profiles st) = Some profile /\
     Profile.images profile = [] /\ profileId <> DEFAULT_PROFILE_ID) /\
  (deleted = false -> st' = st) /\
  (deleted = true ->
   JsMap.get profileId (profiles st') = None /\
   activeProfileId st' <> profileId /\
   activeProfileId st' =
     (if decide (activeProfileId st = profileId)
      then DEFAULT_PROFILE_ID else activeProfileId st)) /\
  store st' = store st /\
  (forall key profile,
     JsMap.get key (profiles st) = Some profile ->
     Profile.images profile <> [] \/ key = DEFAULT_PROFILE_ID
       \/ key <> profileId ->
     JsMap.get key (profiles st') = Some profile).
Proof.
  cbv zeta. rewrite deleteProfile_result. unfold deleteProfile.
  destruct (JsMap.get profileId (profiles st)) as [profile|] eqn:Hget.
  2:{ split; [split; [done | by intros (? & ? & _)]|].
      split; [done|]. split; [done|]. split; [done|]. simpl; by intros key p Hkey _. }
  pose proof (len_nonneg (Profile.images profile)) as Hlen.
  pose proof (len_zero_nil (Profile.images profile)) as Hnil.
  destruct (JsArray.len (Profile.images profile) >? 0) eqn:Himages; simpl.
  { split.
    - split; [done|]. intros (p & [= <-] & Hempty & _).
      apply Hnil in Hempty. lia.
    - split; [done|]. split; [done|]. split; [done|]. simpl; by intros key p Hkey _. }
  assert (Profile.images profile = []) as Hempty by (apply Hnil; lia).
  destruct (decide (profileId = DEFAULT_PROFILE_ID)) as [Hdefault|Hdefault].
  { rewrite bool_decide_eq_true_2 by done. simpl. split.
    - split; [done|]. by intros (p & _ & _ & Hne).
    - split; [done|]. split; [done|]. split; [done|]. simpl; by intros key p Hkey _. }
  rewrite bool_decide_eq_false_2 by done. simpl.
  split; [split; [by exists profile | done]|].
  split; [done|]. cbv zeta. simpl activeProfileId.
  set (st1 := set_profiles (JsMap.delete profileId (profiles st)) st).
  destruct (decide (activeProfileId st = profileId)) as [Hactive|Hactive]; simpl.
  - set (st2 := set_activeProfileId DEFAULT_PROFILE_ID st1).
    pose proof (sync_sameGlobals st2) as [(Hid & _) Hstore].
    assert (forall key, key <> profileId ->
              is_Some (JsMap.get key (profiles st)) ->
              JsMap.get key (profiles (syncCacheWithActiveProfile st2))
              = JsMap.get key (profiles st)) as Hkept.
    { intros key Hkey Hsome.
      unfold syncCacheWithActiveProfile, getActiveProfile. simpl.
      destruct (JsMap.get DEFAULT_PROFILE_ID (JsMap.delete profileId (profiles st)))
        as [default|] eqn:Hdef; simpl.
      - by rewrite JsMap_get_delete_ne.
      - rewrite JsMap_get_delete_ne in Hdef by done.
        rewrite JsMap_get_set_ne; [by rewrite JsMap_get_delete_ne|].
        intros <-. rewrite Hdef in Hsome. by destruct Hsome. }
    split.
    + split; [|split; [rewrite Hid; simpl; congruence | by rewrite Hid]].
      unfold syncCacheWithActiveProfile, getActiveProfile. simpl.
      destruct (JsMap.get DEFAULT_PROFILE_ID (JsMap.delete profileId (profiles st)));
        simpl.
      * apply JsMap_get_delete_eq.
      * rewrite JsMap_get_set_ne by congruence. apply JsMap_get_delete_eq.
    + split; [by rewrite Hstore|].
      intros key p Hkey Hkeep. rewrite Hkept; [done| |by exists p].
      intros ->. rewrite Hget in Hkey. injection Hkey as <-. tauto.
  - split; [split; [apply JsMap_get_delete_eq | done]|].
    split; [done|].
    intros key p Hkey Hkeep. rewrite JsMap_get_delete_ne; [done|].
    intros <-. rewrite Hget in Hkey. injection Hkey as <-. tauto.
Qed.

Lemma JsMap_set_ids k profile profile' (m : JsMap.t Profile.t) :
  JsMap.get k m = Some profile ->
  Profile.id profile' = Profile.id profile ->
  map Profile.id (JsMap.values (JsMap.set k profile' m))
  = map Profile.id (JsMap.values m).
Proof.
  unfold JsMap.values.
  induction m as [|[k' p'] m IH]; simpl; [done|].
  destruct (decide (k = k')) as [->|Hne]; simpl.
  - intros [= ->] Hid. by rewrite Hid.
  - intros Hget Hid. by rewrite IH.
Qed.

(** X9. [renameProfile] changes a name and nothing else. On an
    identifier that is not registered it changes nothing. Otherwise the
    profile registered under the identifier keeps its identifier, its
    images, its data URLs and its index and takes the new name; the
    other profiles, the order of the profile list, the cache and the
    durable store are as before (the renaming by itself is not
    persisted). *)
Theorem renameProfile_changes_only_the_name
    (profileId newName : string) (st : State) :
  let st' := (renameProfile profileId newName st).2 in
  (JsMap.get profileId (profiles st) = None ->
   renameProfile profileId newName st = (false, st)) /\
  (forall profile,
     JsMap.get profileId (profiles st) = Some profile ->
     (renameProfile profileId newName st).1 = true /\
     JsMap.get profileId (profiles st') = Some (renamed newName profile) /\
     (forall key, key <> profileId ->
        JsMap.get key (profiles st') = JsMap.get key (profiles st)) /\
     map Profile.id (getProfileList st') = map Profile.id (getProfileList st) /\
     Profile.images (activeProfile st') = Profile.images (activeProfile st) /\
     Profile.currentIndex (activeProfile st')
       = Profile.currentIndex (activeProfile st) /\
     st' = set_profiles (profiles st') st).
Proof.
  cbv zeta. unfold renameProfile. split.
  - by intros ->.
  - intros profile Hget. rewrite Hget. simpl.
    split; [done|]. split; [apply JsMap_get_set_eq|]. split.
    { intros key Hkey. by apply JsMap_get_set_ne. }
    split; [by apply (JsMap_set_ids _ profile)|].
    rewrite !activeProfile_eq. simpl.
    destruct (decide (profileId = activeProfileId st)) as [->|Hne].
    + by rewrite JsMap_get_set_eq, Hget.
    + by rewrite JsMap_get_set_ne.
Qed.

(** ** Reordering and deleting images *)

Lemma swap_lookup {A} (i j : Z) (a : list A) (k : nat) :
  0 <= i < JsArray.len a -> 0 <= j < JsArray.len a ->
  JsArray.swap i j a !! k =
    if decide (k = Z.to_nat j) then a !! Z.to_nat i
    else if decide (k = Z.to_nat i) then a !! Z.to_nat j
    else a !! k.
Proof.
  unfold JsArray.len, JsArray.swap. intros Hi Hj.
  destruct (lookup_lt_is_Some_2 a (Z.to_nat i)) as [x Hx]; [lia|].
  destruct (lookup_lt_is_Some_2 a (Z.to_nat j)) as [y Hy]; [lia|].
  rewrite Hx, Hy.
  destruct (decide (k = Z.to_nat j)) as [->|Hkj].
  - rewrite list_lookup_insert_eq; [done|]. rewrite length_insert. lia.
  - rewrite list_lookup_insert_ne by done.
    destruct (decide (k = Z.to_nat i)) as [->|Hki].
    + rewrite list_lookup_insert_eq; [done | lia].
    + by rewrite list_lookup_insert_ne.
Qed.

Lemma swap_swap {A} (i j : Z) (a : list A) :
  0 <= i < JsArray.len a -> 0 <= j < JsArray.len a ->
  JsArray.swap i j (JsArray.swap i j a) = a.
Proof.
  intros Hi Hj. apply list_eq. intros k.
  rewrite !swap_lookup by (rewrite ?len_swap; done).
  repeat case_decide; congruence.
Qed.

Lemma swap_Permutation {A} (i j : Z) (a : list A) :
  JsArray.swap i j a ≡ₚ a.
Proof.
  unfold JsArray.swap.
  destruct (a !! Z.to_nat i) as [x|] eqn:Hx; [|done].
  destruct (a !! Z.to_nat j) as [y|] eqn:Hy; [|done].
  by apply Permutation_insert_swap.
Qed.

Lemma moved_accepted fromIndex toIndex profile :
  fromIndex <> toIndex ->
  0 <= fromIndex < JsArray.len (Profile.images profile) ->
  0 <= toIndex < JsArray.len (Profile.images profile) ->
  moved fromIndex toIndex profile =
    Profile.mk (Profile.id profile) (Profile.name profile)
      (JsArray.swap fromIndex toIndex (Profile.images profile))
      (JsArray.swapSlots fromIndex toIndex (Profile.dataUris profile))
      (if Profile.currentIndex profile =? fromIndex then toIndex
       else if Profile.currentIndex profile =? toIndex then fromIndex
       else Profile.currentIndex profile).
Proof.
  intros Hne Hfrom Hto. unfold moved.
  by replace ((fromIndex =? toIndex) || (fromIndex <? 0)
              || (fromIndex >=? JsArray.len (Profile.images profile))
              || (toIndex <? 0)
              || (toIndex >=? JsArray.len (Profile.images profile)))
    with false by lia.
Qed.

Lemma moved_moved fromIndex toIndex profile :
  urisOfImages env profile ->
  fromIndex <> toIndex ->
  0 <= fromIndex < JsArray.len (Profile.images profile) ->
  0 <= toIndex < JsArray.len (Profile.images profile) ->
  moved fromIndex toIndex (moved fromIndex toIndex profile) = profile.
Proof.
  intros Huris Hne Hfrom Hto.
  rewrite (moved_accepted fromIndex toIndex profile) by done.
  rewrite moved_accepted by (simpl; rewrite ?len_swap; done). simpl.
  rewrite Huris.
  rewrite !swapSlots_map by (rewrite ?len_swap; done).
  rewrite swap_swap by done. rewrite <- Huris.
  destruct profile as [id name images dataUris currentIndex]. simpl in *.
  f_equal.
  destruct (currentIndex =? fromIndex) eqn:H1.
  - rewrite Z.eqb_refl. replace (toIndex =? fromIndex) with false by lia. lia.
  - destruct (currentIndex =? toIndex) eqn:H2.
    + rewrite Z.eqb_refl. lia.
    + by rewrite H1, H2.
Qed.

Lemma JsMap_set_set {V} (k : string) (v v' : V) (m : JsMap.t V) :
  JsMap.set k v (JsMap.set k v' m) = JsMap.set k v m.
Proof.
  induction m as [|[k' v0] m IH]; simpl.
  - by rewrite decide_True.
  - destruct (decide (k = k')) as [->|Hne]; simpl.
    + by rewrite decide_True.
    + rewrite decide_False by done. by rewrite IH.
Qed.

Lemma JsMap_set_same {V} (k : string) (v : V) (m : JsMap.t V) :
  JsMap.get k m = Some v -> JsMap.set k v m = m.
Proof.
  induction m as [|[k' v0] m IH]; simpl; [done|].
  destruct (decide (k = k')) as [->|Hne].
  - by intros [= ->].
  - intros H. by rewrite IH.
Qed.

(** X10. [moveImage] exchanges two images, and the selection follows
    its image. On a state that satisfies the invariant of the profile
    map, moving between two different positions within the images of the
    active profile exchanges the images at the two positions and leaves
    the others in place, so that the images are a permutation of what
    they were; the image at the current index is the same image as
    before; and moving again between the same two positions restores
    the profile map and the active profile. *)
Theorem moveImage_swaps_and_selection_follows
    (fromIndex toIndex : Z) (st : State) :
  storeInvariant env st ->
  let profile := activeProfile st in
  let images := Profile.images profile in
  fromIndex <> toIndex ->
  0 <= fromIndex < JsArray.len images ->
  0 <= toIndex < JsArray.len images ->
  let st1 := moveImage fromIndex toIndex st in
  let profile1 := activeProfile st1 in
  let images1 := Profile.images profile1 in
  images1 ≡ₚ images /\
  images1 !! Z.to_nat toIndex = images !! Z.to_nat fromIndex /\
  images1 !! Z.to_nat fromIndex = images !! Z.to_nat toIndex /\
  (forall k, k <> Z.to_nat fromIndex -> k <> Z.to_nat toIndex ->
     images1 !! k = images !! k) /\
  (0 <= Profile.currentIndex profile ->
   images1 !! Z.to_nat (Profile.currentIndex profile1)
     = images !! Z.to_nat (Profile.currentIndex profile)) /\
  activeProfile (moveImage fromIndex toIndex st1) = profile /\
  profiles (moveImage fromIndex toIndex st1) = profiles st.
Proof.
  intros Hinv profile images Hne Hfrom Hto st1 profile1 images1.
  pose proof (activeIsRegistered _ _ Hinv) as Hactive.
  pose proof (storeInvariant_activeProfile st Hinv) as (Hget & _ & Huris).
  assert (st1 = commit (moved fromIndex toIndex profile) st) as Hst1.
  { subst st1. rewrite moveImage_commit by done.
    by replace (_ || _) with false by (subst images profile; lia). }
  assert (profile1 = moved fromIndex toIndex profile) as Hprofile1.
  { subst profile1. rewrite Hst1. by apply commit_active. }
  assert (images1 = JsArray.swap fromIndex toIndex images) as Himages1.
  { subst images1. rewrite Hprofile1. by rewrite moved_accepted. }
  assert (activeRegistered st1) as Hactive1.
  { rewrite Hst1, commit_registered by done. unfold activeRegistered. simpl.
    rewrite JsMap_get_set_eq. by eexists. }
  split; [rewrite Himages1; apply swap_Permutation|].
  split.
  { rewrite Himages1, swap_lookup by done. by rewrite decide_True. }
  split.
  { rewrite Himages1, swap_lookup by done.
    rewrite decide_False by lia. by rewrite decide_True. }
  split.
  { intros k Hk1 Hk2. rewrite Himages1, swap_lookup by done.
    by rewrite !decide_False. }
  split.
  { intros Hcurrent. rewrite Himages1, swap_lookup by done.
    rewrite Hprofile1, moved_accepted by done. simpl.
    fold profile.
    destruct (Profile.currentIndex profile =? fromIndex) eqn:H1.
    - rewrite decide_True by done. f_equal. lia.
    - destruct (Profile.currentIndex profile =? toIndex) eqn:H2.
      + rewrite decide_False by lia. rewrite decide_True by done.
        f_equal. lia.
      + rewrite !decide_False by lia. done. }
  assert (moveImage fromIndex toIndex st1 = commit profile st1) as Hst2.
  { rewrite moveImage_commit by done. fold profile1. rewrite Hprofile1.
    rewrite moved_moved by done.
    rewrite moved_accepted by done. simpl. rewrite len_swap.
    by replace (_ || _) with false by (subst images; lia). }
  rewrite Hst2. split; [by apply commit_active|].
  rewrite commit_registered by done. simpl.
  rewrite Hst1, commit_registered by done. simpl.
  rewrite JsMap_set_set. by apply JsMap_set_same.
Qed.

Lemma deleted_accepted index profile :
  0 <= index < JsArray.len (Profile.images profile) ->
  deleted index profile =
    Profile.mk (Profile.id profile) (Profile.name profile)
      (JsArray.splice1 index (Profile.images profile))
      (JsArray.splice1 index (Profile.dataUris profile))
      (if Profile.currentIndex profile
            >=? JsArray.len (Profile.images profile) - 1
       then 0 else Profile.currentIndex profile).
Proof.
  intros Hin. unfold deleted.
  replace ((index <? 0) || (index >=? JsArray.len (Profile.images profile)))
    with false by lia.
  by rewrite len_splice1.
Qed.

(** X11. [deleteImageAtIndex] removes one image and keeps the index
    unless it falls off the end. For an index within the images of a
    registered active profile, the images and the data URLs lose the
    element at that position and keep the others in order. The
    current-slide index is kept when it still designates an image and
    is reset to 0 otherwise; hence the selection stays on its image when
    an image after it is deleted, and passes to the image that followed
    it when the selected image, or an image before it, is deleted. *)
Theorem deleteImageAtIndex_removes_one_image (index : Z) (st : State) :
  activeRegistered st ->
  let profile := activeProfile st in
  let images := Profile.images profile in
  let count := JsArray.len images in
  let current := Profile.currentIndex profile in
  0 <= index < count ->
  let profile1 := activeProfile (deleteImageAtIndex index st) in
  let images1 := Profile.images profile1 in
  let current1 := Profile.currentIndex profile1 in
  images1 = take (Z.to_nat index) images ++ drop (S (Z.to_nat index)) images /\
  Profile.dataUris profile1 =
    take (Z.to_nat index) (Profile.dataUris profile)
      ++ drop (S (Z.to_nat index)) (Profile.dataUris profile) /\
  JsArray.len images1 = count - 1 /\
  current1 = (if current >=? count - 1 then 0 else current) /\
  (0 <= current < index -> images1 !! Z.to_nat current1 = images !! Z.to_nat current) /\
  (index <= current < count - 1 ->
   images1 !! Z.to_nat current1 = images !! Z.to_nat (current + 1)) /\
  (count - 1 <= current -> current1 = 0).
Proof.
  intros Hactive profile images count current Hin profile1 images1 current1.
  assert (profile1 = deleted index profile) as Hprofile1.
  { subst profile1. rewrite deleteImageAtIndex_commit by done.
    replace (_ || _) with false by (subst count images profile; lia).
    by apply commit_active. }
  subst images1 current1. rewrite Hprofile1, deleted_accepted by done.
  simpl. fold images count current. unfold JsArray.splice1.
  rewrite <- !delete_take_drop.
  split; [done|]. split; [done|]. split.
  { apply (len_splice1 index images). done. }
  split; [done|]. split; [|split].
  - intros Hbefore. replace (current >=? count - 1) with false by lia.
    apply list_lookup_delete_lt. lia.
  - intros Hafter. replace (current >=? count - 1) with false by lia.
    rewrite list_lookup_delete_ge by lia. f_equal. lia.
  - intros Hlast. by replace (current >=? count - 1) with true by lia.
Qed.

Lemma splice1_last {A} (a : list A) (x : A) :
  JsArray.splice1 (JsArray.len a) (a ++ [x]) = a.
Proof.
  unfold JsArray.splice1, JsArray.len. rewrite Nat2Z.id.
  rewrite delete_middle. apply app_nil_r.
Qed.

(** X12. Adding an image and deleting it again restores the gallery. On
    a state that satisfies the invariant of the profile map and whose
    active profile has a valid index, [addImage] followed by
    [deleteImageAtIndex] at the position of the new image gives back the
    profile map and the active profile; the cache holds its images and
    the durable store mirrors the memory. *)
Theorem addImage_then_delete_restores (blob : Blob.t) (st : State) :
  storeInvariant env st ->
  indexValid (activeProfile st) ->
  let count := JsArray.len (Profile.images (activeProfile st)) in
  let st1 := addImage env blob st in
  let st2 := deleteImageAtIndex count st1 in
  Profile.images (activeProfile st1) = Profile.images (activeProfile st) ++ [blob] /\
  profiles st2 = profiles st /\
  activeProfile st2 = activeProfile st /\
  cachedImages st2 = Profile.images (activeProfile st) /\
  cachedDataUris st2 = Profile.dataUris (activeProfile st) /\
  currentSlideIndex st2 = Profile.currentIndex (activeProfile st) /\
  persisted st2.
Proof.
  intros Hinv Hvalid count st1 st2.
  pose proof (activeIsRegistered _ _ Hinv) as Hactive.
  pose proof (storeInvariant_activeProfile st Hinv) as (Hget & _ & Huris).
  pose proof (urisOfImages_len _ Huris) as Hlen.
  pose proof (len_nonneg (Profile.images (activeProfile st))) as Hcount.
  assert (st1 = commit (added env blob (activeProfile st)) st) as Hst1
    by (subst st1; by rewrite addImage_commit).
  assert (activeRegistered st1) as Hactive1.
  { rewrite Hst1, commit_registered by done. unfold activeRegistered. simpl.
    rewrite JsMap_get_set_eq. by eexists. }
  assert (activeProfile st1 = added env blob (activeProfile st)) as Hprofile1
    by (rewrite Hst1; by apply commit_active).
  assert (JsArray.len (Profile.images (added env blob (activeProfile st)))
          = count + 1) as Hcount1.
  { unfold added, JsArray.len. simpl. rewrite length_app. simpl.
    subst count. unfold JsArray.len. lia. }
  assert (deleted count (added env blob (activeProfile st)) = activeProfile st)
    as Hrestored.
  { rewrite deleted_accepted by lia. rewrite Hcount1.
    unfold added. simpl. subst count.
    rewrite splice1_last. rewrite <- Hlen at 1. rewrite splice1_last.
    unfold indexValid in Hvalid.
    destruct (activeProfile st) as [id name images dataUris currentIndex].
    simpl in *. f_equal.
    destruct (currentIndex >=? JsArray.len images + 1 - 1) eqn:Hreset; lia. }
  assert (st2 = commit (activeProfile st) st1) as Hst2.
  { subst st2. rewrite deleteImageAtIndex_commit by done.
    rewrite Hprofile1, Hcount1, Hrestored.
    by replace (_ || _) with false by lia. }
  split; [by rewrite Hprofile1|].
  rewrite Hst2. split.
  { rewrite commit_registered by done. simpl.
    rewrite Hst1, commit_registered by done. simpl.
    rewrite JsMap_set_set. by apply JsMap_set_same. }
  split; [by apply commit_active|].
  split; [by rewrite commit_registered by done|].
  split; [by rewrite commit_registered by done|].
  split; [by rewrite commit_registered by done|].
  by apply persisted_commit.
Qed.

(** X13. [deleteAllImages] empties the active profile, and the stream
    then shows its own preview. On a registered active profile the
    profile keeps its identifier and its name and is left without image,
    with the index 0; the other profiles are untouched; the cache is
    empty and the durable store mirrors the memory. The next
    [getCustomThumbnail] returns the thumbnail it was given and records
    that no custom image is on the stream. *)
Theorem deleteAllImages_leaves_the_original_thumbnail
    (originalThumbnail : string) (now : Z) (draws : list Z) (st : State) :
  activeRegistered st ->
  let st1 := deleteAllImages st in
  activeProfile st1 = cleared (activeProfile st) /\
  (forall key, key <> activeProfileId st ->
     JsMap.get key (profiles st1) = JsMap.get key (profiles st)) /\
  getImageCount st1 = 0 /\
  cachedDataUris st1 = [] /\
  currentSlideIndex st1 = 0 /\
  persisted st1 /\
  exists st2,
    getCustomThumbnail originalThumbnail now draws st1
      = Some (UStr originalThumbnail, st2) /\
    actualStreamImageUri st2 = UNull /\
    profiles st2 = profiles st1 /\
    store st2 = store st1.
Proof.
  intros Hactive st1. subst st1. rewrite deleteAllImages_commit by done.
  split; [by apply commit_active|]. split.
  { intros key Hkey. rewrite commit_registered by done. simpl.
    by apply JsMap_get_set_ne. }
  split; [by rewrite commit_registered by done|].
  split; [by rewrite commit_registered by done|].
  split; [by rewrite commit_registered by done|].
  split; [by apply persisted_commit|].
  unfold getCustomThumbnail. rewrite commit_registered by done. simpl.
  rewrite orb_true_r. eexists. by repeat split.
Qed.

(** ** Switching profiles and closing the gallery *)


Lemma setActiveProfile_registered profileId profile st :
  JsMap.get profileId (profiles st) = Some profile ->
  setActiveProfile profileId st =
    (true,
     set_cache (Profile.images profile) (Profile.dataUris profile)
       (Profile.currentIndex profile) (set_activeProfileId profileId st)).
Proof.
  intros Hget. unfold setActiveProfile, JsMap.has. rewrite Hget.
  unfold syncCacheWithActiveProfile, getActiveProfile. simpl. by rewrite Hget.
Qed.



Lemma modalProfile_registered m st :
  activeRegistered st -> (modalProfile m st).2 = st.
Proof.
  intros Hactive. unfold modalProfile.
  destruct (JsMap.get (currentProfileId m) (profiles st)); [done|].
  by rewrite (getActiveProfile_active _ Hactive).
Qed.

Lemma loadImages_registered m st :
  activeRegistered st -> (loadImages m st).2 = st.
Proof.
  intros Hactive. unfold loadImages.
  pose proof (modalProfile_registered m st Hactive) as H.
  by destruct (modalProfile m st) as [profile st1].
Qed.

Lemma handleProfileSwitch_state profileId m st :
  (handleProfileSwitch profileId m st).2 = (setActiveProfile profileId st).2.
Proof.
  unfold handleProfileSwitch.
  destruct (setActiveProfile profileId st) as [switched st1]. simpl.
  by destruct (JsMap.get profileId (profiles st1)).
Qed.



(** ** Names of profiles *)

Lemma trimStart_blank s : blank s = true -> trimStart s = "".
Proof.
  induction s as [|c s IH]; simpl; [done|].
  destruct (isWhiteSpace c); [apply IH | done].
Qed.

Lemma trimStart_not_blank s :
  blank s = false ->
  exists c rest, trimStart s = String c rest /\ isWhiteSpace c = false.
Proof.
  induction s as [|c s IH]; simpl; [done|].
  destruct (isWhiteSpace c) eqn:Hc; simpl; [apply IH|].
  intros _. by exists c, s.
Qed.

Lemma trimEnd_not_empty c rest :
  isWhiteSpace c = false -> trimEnd (String c rest) <> "".
Proof.
  intros Hc. simpl. rewrite Hc. by destruct (trimEnd rest).
Qed.

Lemma trim_blank s : trim s = "" <-> blank s = true.
Proof.
  unfold trim. split.
  - intros Hempty. destruct (blank s) eqn:Hblank; [done|].
    destruct (trimStart_not_blank s Hblank) as (c & rest & Hstart & Hc).
    rewrite Hstart in Hempty. by apply trimEnd_not_empty in Hempty.
  - intros Hblank. by rewrite trimStart_blank.
Qed.

Lemma strLength_positive s : s <> "" -> 0 < strLength s.
Proof. destruct s; [done|]. unfold strLength. simpl. lia. Qed.

(** X15. [handleCreateProfile] validates the name and the number of
    profiles. A name that holds nothing but white space is refused with
    "Enter profile name", a name of more than 40 characters once trimmed
    with "Profile name too long (max 40 characters)", and a sixth
    profile with "Maximum 5 profiles allowed"; a refusal changes nothing
    in the module state. Otherwise, on a registered active profile, a
    profile with the trimmed name (of 1 to 40 characters), no image and
    the index 0 is registered under a new identifier; the collection is
    written to the durable store, the record written still naming the
    profile that was active; then the new profile is made the active
    one and is displayed, with an empty cache. *)
Theorem handleCreateProfile_validates
    (now : Z) (sfx newProfileName : string) (m : Modal) (st : State) :
  let name := trim newProfileName in
  let id := newProfileId now sfx in
  let created := Profile.mk id name [] [] 0 in
  let result := handleCreateProfile now sfx newProfileName m st in
  (blank newProfileName = true ->
   result = (setError "Enter profile name" m, st)) /\
  (blank newProfileName = false -> 40 < strLength name ->
   result = (setError "Profile name too long (max 40 characters)" m, st)) /\
  (blank newProfileName = false -> strLength name <= 40 ->
   MAX_PROFILES <= JsMap.size (profiles st) ->
   result = (setError "Maximum 5 profiles allowed" m, st)) /\
  (blank newProfileName = false -> strLength name <= 40 ->
   JsMap.size (profiles st) < MAX_PROFILES ->
   activeRegistered st ->
   0 < strLength name /\
   profiles result.2 = JsMap.set id created (profiles st) /\
   JsMap.get id (profiles result.2) = Some created /\
   activeProfileId result.2 = id /\
   cachedImages result.2 = [] /\
   cachedDataUris result.2 = [] /\
   currentSlideIndex result.2 = 0 /\
   store result.2 =
     DataStore.set DATASTORE_KEY_PROFILES
       (DProfiles
          (StoredProfilesData.mk
             (map storedOfProfile (JsMap.values (profiles result.2)))
             (activeProfileId st)))
       (store st) /\
   result.1 = setPendingIndex 0 (setCurrentProfileId id m)).
Proof.
  cbv zeta. unfold handleCreateProfile.
  split; [|split; [|split]].
  - intros Hblank. apply trim_blank in Hblank.
    by rewrite bool_decide_eq_true_2.
  - intros Hblank Hlong.
    assert (trim newProfileName <> "") as Hname
      by (rewrite trim_blank; by rewrite Hblank).
    rewrite bool_decide_eq_false_2 by done.
    by replace (_ >? 40) with true by lia.
  - intros Hblank Hshort Hfull.
    assert (trim newProfileName <> "") as Hname
      by (rewrite trim_blank; by rewrite Hblank).
    rewrite bool_decide_eq_false_2 by done.
    replace (_ >? 40) with false by lia.
    by replace (_ >=? MAX_PROFILES) with true by lia.
  - intros Hblank Hshort Hroom Hactive.
    assert (trim newProfileName <> "") as Hname
      by (rewrite trim_blank; by rewrite Hblank).
    rewrite bool_decide_eq_false_2 by done.
    replace (_ >? 40) with false by lia.
    replace (_ >=? MAX_PROFILES) with false by lia.
    unfold createProfile. replace (_ >=? MAX_PROFILES) with false by lia.
    cbv zeta. simpl Profile.id.
    set (created := Profile.mk _ _ _ _ _).
    set (st1 := set_profiles _ st).
    assert (activeRegistered st1) as Hactive1
      by (by apply JsMap_get_set_is_Some).
    destruct (save_registered st1 Hactive1) as [Hprofiles Hid].
    pose proof (save_store st1) as Hstore.
    pose proof (save_sameGlobals st1) as Hglobals.
    set (st2 := saveProfilesToDataStore st1) in *. clearbody st2.
    assert (JsMap.get (newProfileId now sfx) (profiles st2) = Some created)
      as Hget by (rewrite Hprofiles; apply JsMap_get_set_eq).
    unfold handleProfileSwitch.
    rewrite (setActiveProfile_registered _ _ _ Hget). simpl.
    rewrite Hget. simpl. rewrite Hprofiles, Hstore.
    split; [by apply strLength_positive|].
    split; [done|]. split; [apply JsMap_get_set_eq|].
    by repeat split.
Qed.

Lemma persisted_save st :
  activeRegistered st -> persisted (saveProfilesToDataStore st).
Proof.
  intros Hactive. unfold persisted.
  destruct (save_registered st Hactive) as [-> ->]. rewrite save_store.
  unfold DataStore.get, DataStore.set. simpl. by rewrite lookup_insert_eq.
Qed.

(** X16. [handleRenameProfile] validates the name and persists the
    renaming. A name that holds nothing but white space leaves the
    gallery and the module state as they are, without any message; a
    name of more than 40 characters once trimmed is refused with
    "Profile name too long (max 40 characters)" and changes nothing in
    the module state. Otherwise, on a registered active profile, the
    profile registered under the identifier takes the trimmed name and
    keeps its identifier, images, data URLs and index, the active
    identifier is kept, and the durable store mirrors the memory. *)
Theorem handleRenameProfile_validates_and_persists
    (profileId editingProfileName : string) (m : Modal) (st : State) :
  let newName := trim editingProfileName in
  let result := handleRenameProfile profileId editingProfileName m st in
  (blank editingProfileName = true -> result = (m, st)) /\
  (blank editingProfileName = false -> 40 < strLength newName ->
   result = (setError "Profile name too long (max 40 characters)" m, st)) /\
  (blank editingProfileName = false -> strLength newName <= 40 ->
   activeRegistered st ->
   forall profile,
     JsMap.get profileId (profiles st) = Some profile ->
     result.1 = m /\
     profiles result.2 =
       JsMap.set profileId (renamed newName profile) (profiles st) /\
     JsMap.get profileId (profiles result.2) = Some (renamed newName profile) /\
     activeProfileId result.2 = activeProfileId st /\
     persisted result.2).
Proof.
  cbv zeta. unfold handleRenameProfile. split; [|split].
  - intros Hblank. apply trim_blank in Hblank.
    by rewrite bool_decide_eq_true_2.
  - intros Hblank Hlong.
    assert (trim editingProfileName <> "") as Hname
      by (rewrite trim_blank; by rewrite Hblank).
    rewrite bool_decide_eq_false_2 by done.
    by replace (_ >? 40) with true by lia.
  - intros Hblank Hshort Hactive profile Hget.
    assert (trim editingProfileName <> "") as Hname
      by (rewrite trim_blank; by rewrite Hblank).
    rewrite bool_decide_eq_false_2 by done.
    replace (_ >? 40) with false by lia.
    unfold renameProfile. rewrite Hget. simpl.
    set (st1 := putProfile _ _ st).
    assert (activeRegistered st1) as Hactive1
      by (by apply JsMap_get_set_is_Some).
    destruct (save_registered st1 Hactive1) as [Hprofiles Hid].
    split; [done|]. split; [done|].
    split; [rewrite Hprofiles; apply JsMap_get_set_eq|].
    split; [done|]. by apply persisted_save.
Qed.

Lemma deleteProfile_success profileId profile st :
  storeInvariant env st ->
  JsMap.get profileId (profiles st) = Some profile ->
  (JsArray.len (Profile.images profile) >? 0) = false ->
  profileId <> DEFAULT_PROFILE_ID ->
  let st' := (deleteProfile profileId st).2 in
  JsMap.get profileId (profiles st') = None /\
  (forall key, key <> profileId ->
     JsMap.get key (profiles st') = JsMap.get key (profiles st)) /\
  activeProfileId st' =
    (if decide (activeProfileId st = profileId)
     then DEFAULT_PROFILE_ID else activeProfileId st).
Proof.
  intros Hinv Hget Himages Hdefault. unfold deleteProfile.
  rewrite Hget, Himages. rewrite decide_False by done. cbv zeta.
  simpl activeProfileId.
  destruct (decide (activeProfileId st = profileId)) as [Hactive|Hactive];
    simpl.
  - assert (activeRegistered
              (set_activeProfileId DEFAULT_PROFILE_ID
                 (set_profiles (JsMap.delete profileId (profiles st)) st)))
      as Hactive1.
    { unfold activeRegistered. simpl. rewrite JsMap_get_delete_ne by done.
      apply (defaultRegistered _ _ Hinv). }
    destruct (sync_registered _ Hactive1) as [-> ->]. simpl.
    split; [apply JsMap_get_delete_eq|]. split; [|done].
    intros key Hkey. by apply JsMap_get_delete_ne.
  - split; [apply JsMap_get_delete_eq|]. split; [|done].
    intros key Hkey. by apply JsMap_get_delete_ne.
Qed.

(** X17. [handleDeleteProfile] asks for a confirmation exactly when
    [deleteProfile] succeeds. For a profile that holds images the
    message is "Delete all images first!", for the default profile
    without images it is "Cannot delete default profile", and for an
    identifier that is not registered nothing happens. Once the deletion
    is confirmed, on a state that satisfies the invariant of the profile
    map and whose gallery displays the active profile, the profile is no
    longer registered, the profile displayed is the default one when the
    deleted profile was displayed, every other profile is registered as
    before, and the durable store mirrors the memory. *)
Theorem handleDeleteProfile_asks_when_deletion_succeeds
    (profileId : string) (m : Modal) (st : State) :
  let asked := handleDeleteProfile profileId m st in
  let confirmed := handleDeleteProfile_onConfirm profileId m st in
  asked.2 = (deleteProfile profileId st).1 /\
  (JsMap.get profileId (profiles st) = None -> asked = (m, false)) /\
  (forall profile,
     JsMap.get profileId (profiles st) = Some profile ->
     asked.1 =
       if JsArray.len (Profile.images profile) >? 0
       then setError "Delete all images first!" m
       else if decide (profileId = DEFAULT_PROFILE_ID)
       then setError "Cannot delete default profile" m
       else m) /\
  (storeInvariant env st -> currentProfileId m = activeProfileId st ->
   asked.2 = true ->
   JsMap.get profileId (profiles confirmed.2) = None /\
   (forall key, key <> profileId ->
      JsMap.get key (profiles confirmed.2) = JsMap.get key (profiles st)) /\
   activeProfileId confirmed.2 =
     (if decide (activeProfileId st = profileId)
      then DEFAULT_PROFILE_ID else activeProfileId st) /\
   currentProfileId confirmed.1 = activeProfileId confirmed.2 /\
   persisted confirmed.2).
Proof.
  cbv zeta. rewrite deleteProfile_result.
  unfold handleDeleteProfile, handleDeleteProfile_onConfirm.
  destruct (JsMap.get profileId (profiles st)) as [profile|] eqn:Hget.
  2:{ split; [done|]. split; [done|]. split; [done|]. done. }
  split.
  { destruct (_ >? 0); [done|].
    destruct (decide (profileId = DEFAULT_PROFILE_ID)); simpl.
    - by rewrite bool_decide_eq_true_2.
    - by rewrite bool_decide_eq_false_2. }
  split; [done|]. split.
  { intros p [= <-]. destruct (_ >? 0); [done|].
    by destruct (decide (profileId = DEFAULT_PROFILE_ID)). }
  intros Hinv Hshown Hasked.
  destruct (JsArray.len (Profile.images profile) >? 0) eqn:Himages; [done|].
  destruct (decide (profileId = DEFAULT_PROFILE_ID)) as [|Hdefault]; [done|].
  clear Hasked.
  pose proof (storeInvariant_deleteProfile profileId st Hinv) as Hinv1.
  pose proof (deleteProfile_success profileId profile st Hinv Hget Himages
                Hdefault) as (Hgone & Hothers & Hid).
  cbv zeta in Hgone, Hothers, Hid.
  destruct (deleteProfile profileId st) as [deleted st1]. simpl in *.
  pose proof (activeIsRegistered _ _ Hinv1) as Hactive1.
  destruct (save_registered st1 Hactive1) as [Hprofiles Hid2].
  pose proof (persisted_save st1 Hactive1) as Hpersisted.
  pose proof (storeInvariant_save st1 Hinv1) as Hinv2.
  set (st2 := saveProfilesToDataStore st1) in *. clearbody st2.
  destruct (decide (currentProfileId m = profileId)) as [Hcurrent|Hcurrent].
  - rewrite decide_True in Hid by congruence.
    rewrite decide_True by congruence.
    destruct (defaultRegistered _ _ Hinv2) as [default Hdef].
    unfold handleProfileSwitch.
    rewrite (setActiveProfile_registered _ _ _ Hdef). simpl. rewrite Hdef.
    simpl. rewrite Hprofiles.
    split; [done|]. split; [done|]. split; [done|]. split; [done|].
    unfold persisted in *. simpl. by rewrite Hpersisted, Hid2, Hid.
  - rewrite decide_False in Hid by congruence.
    rewrite decide_False by congruence. simpl. rewrite Hprofiles.
    split; [done|]. split; [done|]. split; [congruence|].
    split; [congruence | done].
Qed.

(** ** The pending index of the gallery *)

Lemma commit_keeps_active st profile' :
  activeRegistered st ->
  activeRegistered (commit profile' st) /\
  activeProfileId (commit profile' st) = activeProfileId st.
Proof.
  intros Hactive. rewrite commit_registered by done.
  unfold activeRegistered. simpl. rewrite JsMap_get_set_eq.
  split; [by eexists | done].
Qed.

Lemma loadImages_active m st :
  activeRegistered st -> currentProfileId m = activeProfileId st ->
  loadImages m st =
    (setPendingIndex (Profile.currentIndex (activeProfile st)) m, st).
Proof.
  intros [profile Hget] Hshown. unfold loadImages, modalProfile.
  by rewrite Hshown, activeProfile_eq, Hget.
Qed.

(** X18. A deletion or a move in the gallery resets the pending index
    to the stored one. The two handlers compute a pending index of
    their own and then reload the images, which sets the pending index
    to the current index of the profile displayed: when the gallery
    displays a registered active profile, [handleDelete] leaves the
    state of [deleteImageAtIndex] and [handleImageDrop] that of
    [moveImage], and in both cases the pending index is the current
    index of the active profile, whatever it was before. A drop without
    a dragged image, or onto the position it was dragged from, changes
    nothing. *)
Theorem gallery_edits_reset_the_pending_index
    (index toIndex : Z) (draggedIndex : option Z) (m : Modal) (st : State) :
  activeRegistered st ->
  currentProfileId m = activeProfileId st ->
  let deleted := handleDelete index m st in
  let dropped := handleImageDrop draggedIndex toIndex m st in
  deleted.2 = deleteImageAtIndex index st /\
  deleted.1 = setPendingIndex (Profile.currentIndex (activeProfile deleted.2)) m /\
  match draggedIndex with
  | None => dropped = (m, st)
  | Some dragged =>
      if dragged =? toIndex then dropped = (m, st)
      else
        dropped.2 = moveImage dragged toIndex st /\
        dropped.1 =
          setPendingIndex (Profile.currentIndex (activeProfile dropped.2)) m
  end.
Proof.
  intros Hactive Hshown. cbv zeta.
  assert (forall st1 m1,
            activeRegistered st1 -> activeProfileId st1 = activeProfileId st ->
            currentProfileId m1 = currentProfileId m ->
            loadImages m1 st1 =
              (setPendingIndex (Profile.currentIndex (activeProfile st1)) m1, st1))
    as Hload.
  { intros st1 m1 Hactive1 Hid Hm. apply loadImages_active; congruence. }
  assert (activeRegistered (deleteImageAtIndex index st)
          /\ activeProfileId (deleteImageAtIndex index st) = activeProfileId st)
    as [Hactive1 Hid1].
  { rewrite deleteImageAtIndex_commit by done.
    destruct (_ || _); [done | by apply commit_keeps_active]. }
  assert (handleDelete index m st =
            (setPendingIndex
               (Profile.currentIndex (activeProfile (deleteImageAtIndex index st)))
               m,
             deleteImageAtIndex index st)) as Hdelete.
  { unfold handleDelete. cbv zeta.
    rewrite (surjective_pairing (modalProfile m _)).
    rewrite modalProfile_registered by done.
    set (m1 := if _ && _ then _ else _).
    assert (currentProfileId m1 = currentProfileId m
            /\ forall v, setPendingIndex v m1 = setPendingIndex v m)
      as [Hm1 Hpending].
    { subst m1. destruct (_ && _); [done|]. by destruct (_ =? 0). }
    by rewrite (Hload _ m1 Hactive1 Hid1 Hm1), Hpending. }
  rewrite Hdelete. simpl. split; [done|]. split; [done|].
  destruct draggedIndex as [dragged|]; [|done]. unfold handleImageDrop.
    destruct (dragged =? toIndex) eqn:Hsame; [done|]. cbv zeta.
    assert (activeRegistered (moveImage dragged toIndex st)
            /\ activeProfileId (moveImage dragged toIndex st) = activeProfileId st)
      as [Hactive2 Hid2].
    { rewrite moveImage_commit by done.
      destruct (_ || _); [done | by apply commit_keeps_active]. }
  match goal with
  | |- context [loadImages ?m1 _] =>
      by rewrite (Hload _ m1 Hactive2 Hid2 eq_refl)
  end.
Qed.

(** ** The next slide announced by the gallery *)

Lemma handleSave_registered m st :
  activeRegistered st ->
  let profiles' :=
    JsMap.set (activeProfileId st)
      (Profile.with_currentIndex (pendingIndex m) (activeProfile st))
      (profiles st) in
  handleSave m st =
    mkState profiles' (activeProfileId st)
      (Profile.images (activeProfile st)) (Profile.dataUris (activeProfile st))
      (pendingIndex m)
      (lastSlideChangeTime st) (isStreamActive st)
      (if pendingIndex m =? currentSlideIndex st
       then manualSlideChange st else true)
      (actualStreamImageUri st)
      (Settings.mk (pluginEnabled m) (slideshowOn m) (randomOn m)
         (Settings.showInfoBadges (settings st)))
      (DataStore.set DATASTORE_KEY_PROFILES
         (DProfiles
            (StoredProfilesData.mk
               (map storedOfProfile (JsMap.values profiles'))
               (activeProfileId st)))
         (store st)).
Proof.
  intros Hactive. unfold handleSave. cbv zeta.
  rewrite saveSlideIndex_commit by (by destruct (_ =? _)).
  rewrite commit_registered by (by destruct (_ =? _)).
  rewrite !activeProfile_eq. simpl.
  by destruct (pendingIndex m =? currentSlideIndex st).
Qed.

(** X19. The slide that the gallery announces as the next one is the
    slide that the slideshow goes to. On a state that satisfies the two
    invariants, with more than one image, the gallery listing as many
    images as the active profile holds and saved with replacement and
    slideshow on and random order off, and a pending index within the
    images: [getNextIndex] is the pending index plus
    one, back to 0 after the last image; and after [handleSave] the
    first invocation of [getCustomThumbnail] that moves on from the
    pending index goes to that very index, namely the first invocation
    when no manual change is pending, and the second one otherwise, the
    first then staying on the pending index. *)
Theorem getNextIndex_is_where_the_slideshow_goes
    (images : list string) (m : Modal) (st : State)
    (originalThumbnail1 originalThumbnail2 : string) (now1 now2 : Z)
    (draws1 draws2 : list Z) :
  storeInvariant env st -> galleryInvariant st ->
  let count := JsArray.len (Profile.images (activeProfile st)) in
  1 < count ->
  JsArray.len images = count ->
  0 <= pendingIndex m < count ->
  pluginEnabled m = true -> slideshowOn m = true -> randomOn m = false ->
  let next := getNextIndex images m in
  let st1 := handleSave m st in
  next = (if pendingIndex m =? count - 1 then 0 else pendingIndex m + 1) /\
  exists ret1 st2,
    getCustomThumbnail originalThumbnail1 now1 draws1 st1 = Some (ret1, st2) /\
    (manualSlideChange st1 = false -> currentSlideIndex st2 = next) /\
    (manualSlideChange st1 = true ->
     currentSlideIndex st2 = pendingIndex m /\
     exists ret2 st3,
       getCustomThumbnail originalThumbnail2 now2 draws2 st2 = Some (ret2, st3) /\
       currentSlideIndex st3 = next).
Proof.
  intros Hinv Hgallery count Hmany Himages Hpending Hplugin Hslideshow Hrandom
    next st1.
  pose proof (activeIsRegistered _ _ Hinv) as Hactive.
  pose proof (storeInvariant_activeProfile st Hinv) as (Hget & _ & Huris).
  pose proof (urisOfImages_len _ Huris) as Hlen. fold count in Hlen.
  assert (next = (pendingIndex m + 1) mod count) as Hnext.
  { subst next. unfold getNextIndex. rewrite Himages, Hslideshow, Hrandom.
    replace (count <=? 1) with false by lia. simpl.
    apply Z.rem_mod_nonneg; lia. }
  split.
  { rewrite Hnext. destruct (_ =? _) eqn:Hlast.
    - replace (pendingIndex m + 1) with count by lia. apply Z_mod_same_full.
    - apply Z.mod_small. lia. }
  assert (forall st2,
            profiles st2 = profiles st1 ->
            activeProfileId st2 = activeProfileId st1 ->
            cachedDataUris st2 = cachedDataUris st1 ->
            currentSlideIndex st2 = currentSlideIndex st1 ->
            settings st2 = settings st1 ->
            manualSlideChange st2 = false ->
            sequentialSlideshow count st2 /\ currentSlideIndex st2 = pendingIndex m)
    as Hsequential.
  { subst st1. rewrite handleSave_registered by done. cbv zeta. simpl.
    intros st2 Hp Ha Hu Hc Hs Hmanual.
    split; [|done]. unfold sequentialSlideshow, showsCustomImage.
    rewrite Hp, Ha, Hu, Hc, Hs, Hmanual. simpl.
    rewrite Hplugin, Hslideshow, Hrandom, JsMap_get_set_eq.
    split; [split; [done|]|].
    - intros Hnil. rewrite Hnil in Hlen. unfold JsArray.len in Hlen.
      simpl in Hlen. lia.
    - do 4 (split; [done|]). split; [lia|]. by eexists. }
  destruct (manualSlideChange st1) eqn:Hmanual.
  - assert (showsCustomImage st1
            /\ JsArray.len (cachedDataUris st1) <> 1
            /\ Settings.slideshowEnabled (settings st1) = true)
      as (Hshows & Hcount1 & Hon).
    { subst st1. rewrite handleSave_registered by done. cbv zeta.
      unfold showsCustomImage. simpl. rewrite Hplugin, Hslideshow.
      split; [split; [done|]|split; [lia | done]].
      intros Hnil. rewrite Hnil in Hlen. unfold JsArray.len in Hlen.
      simpl in Hlen. lia. }
    rewrite (getCustomThumbnail_manual originalThumbnail1 now1 draws1 st1
               Hshows Hcount1 Hon Hmanual).
    cbv zeta. eexists _, _. split; [done|]. split; [done|]. intros _.
    match goal with
    | |- currentSlideIndex ?st2 = _ /\ _ =>
        destruct (Hsequential st2) as [Hseq Hindex]; try done
    end.
    split; [done|].
    destruct (sequential_step originalThumbnail2 now2 draws2 count _
                ltac:(lia) Hseq) as (st3 & Hrun & Hindex3 & _).
    eexists _, st3. split; [exact Hrun|].
    rewrite Hindex3, Hindex. done.
  - destruct (Hsequential st1) as [Hseq Hindex]; try done.
    destruct (sequential_step originalThumbnail1 now1 draws1 count st1
                ltac:(lia) Hseq) as (st2 & Hrun & Hindex2 & _).
    eexists _, st2. split; [exact Hrun|]. split; [|done].
    intros _. by rewrite Hindex2, Hindex.
Qed.

(** ** What an upload adds *)





(** ** The one-second check *)

Lemma set_isStreamActive_same st : set_isStreamActive (isStreamActive st) st = st.
Proof. by destruct st. Qed.

Lemma checks_result times : forall st,
  checks times st =
    set_isStreamActive
      (isStreamActive st
       && negb ((lastSlideChangeTime st >? 0)
                && existsb (expired (lastSlideChangeTime st)) times))
      st.
Proof.
  unfold checks.
  induction times as [|now times IH]; intros st; simpl.
  - rewrite andb_false_r, andb_true_r. by rewrite set_isStreamActive_same.
  - rewrite IH. unfold timerInterval, expired.
    destruct (isStreamActive st) eqn:Hactive; simpl.
    + destruct (lastSlideChangeTime st >? 0) eqn:Hstamped; simpl.
      * destruct (now - lastSlideChangeTime st >? 420000); simpl; [done|].
        by rewrite Hactive, Hstamped.
      * by rewrite Hactive, Hstamped.
    + by rewrite Hactive.
Qed.

(** X21. The one-second check and the seven minutes. Runs of the check
    change nothing but the liveness flag; they never raise it, and they
    lower it exactly when the stream was marked active, a time stamp was
    recorded, and one of the runs comes more than 420000 ms after that
    stamp. Hence, after an invocation of [getCustomThumbnail] at a
    positive time that shows a custom image, the stream is marked active
    and stays so through any checks as long as none of them runs more
    than 420000 ms after the invocation. *)
Theorem checks_lower_the_flag_seven_minutes_after_the_stamp
    (times : list Z) (st : State)
    (originalThumbnail : string) (now : Z) (draws : list Z) :
  let stamp := lastSlideChangeTime st in
  checks times st =
    set_isStreamActive
      (isStreamActive st
       && negb ((stamp >? 0) && existsb (expired stamp) times))
      st /\
  (showsCustomImage st -> 0 < now ->
   (advancesSlide st -> Settings.slideshowRandom (settings st) = true ->
    Exists (fun d => d <> currentSlideIndex st) draws) ->
   exists ret st1,
     getCustomThumbnail originalThumbnail now draws st = Some (ret, st1) /\
     isStreamActive st1 = true /\
     (isStreamActive (checks times st1) = true <->
      Forall (fun time => time - now <= 420000) times)).
Proof.
  cbv zeta. split; [apply checks_result|].
  intros Hshows Hpositive Hdraws.
  destruct (getCustomThumbnail_returns originalThumbnail now draws st Hshows Hdraws)
    as [[ret st1] Hrun].
  destruct (getCustomThumbnail_liveness _ _ _ _ _ _ Hrun)
    as (Hactive & Hstamp & _).
  specialize (Hstamp Hshows).
  exists ret, st1. split; [done|]. split; [done|].
  rewrite checks_result. simpl. rewrite Hactive, Hstamp. simpl.
  replace (now >? 0) with true by lia. simpl.
  rewrite negb_true_iff. unfold expired.
  induction times as [|time times IH]; simpl.
  - split; [by constructor | done].
  - rewrite orb_false_iff, IH, Forall_cons. split.
    + intros [Hfirst Hrest]. split; [lia | done].
    + intros [Hfirst Hrest]. split; [lia | done].
Qed.

(** ** Display of a duration *)

Lemma pretty_N_char_digit x : isDigit (pretty_N_char x) = true.
Proof. unfold pretty_N_char. by repeat case_match. Qed.

Lemma pretty_N_go_digits x : forall s,
  digitsOnly s = true -> digitsOnly (pretty_N_go x s) = true.
Proof.
  induction (N.lt_wf_0 x) as [x _ IH]. intros s Hs.
  destruct (decide (x = 0)%N) as [->|Hpos]; [by rewrite pretty_N_go_0|].
  rewrite pretty_N_go_step by lia.
  apply IH; [apply N.div_lt; lia|].
  simpl. by rewrite pretty_N_char_digit.
Qed.

Lemma pretty_Z_digits (n : Z) : 0 <= n -> digitsOnly (pretty n) = true.
Proof.
  destruct n as [|p|p]; [done| |lia]. intros _.
  unfold pretty, pretty_Z, pretty, pretty_positive, pretty, pretty_N.
  rewrite decide_False by done. by apply pretty_N_go_digits.
Qed.

Lemma digits_split d1 : forall d2 s1 s2,
  digitsOnly d1 = true -> digitsOnly d2 = true ->
  startsWithoutDigit s1 = true -> startsWithoutDigit s2 = true ->
  d1 +:+ s1 = d2 +:+ s2 ->
  d1 = d2 /\ s1 = s2.
Proof.
  induction d1 as [|x d1 IH]; intros [|y d2] [|c1 r1] [|c2 r2] H1 H2 Hc1 Hc2 Heq;
    try done; simpl in *.
  - injection Heq as -> _. apply andb_true_iff in H2 as [H2 _].
    by rewrite H2 in Hc1.
  - injection Heq as -> _. apply andb_true_iff in H1 as [H1 _].
    by rewrite H1 in Hc2.
  - injection Heq as -> Heq.
    apply andb_true_iff in H1 as [_ H1]. apply andb_true_iff in H2 as [_ H2].
    by destruct (IH d2 (String c1 r1) (String c2 r2) H1 H2 Hc1 Hc2 Heq)
      as (-> & ->).
Qed.

Lemma padStart_seconds_inj (x y : Z) :
  0 <= x < 60 -> 0 <= y < 60 ->
  padStart 2 "0" (pretty x) = padStart 2 "0" (pretty y) -> x = y.
Proof.
  assert (Forall
            (fun x =>
               Forall
                 (fun y =>
                    padStart 2 "0" (pretty x) = padStart 2 "0" (pretty y) ->
                    x = y)
                 (seqZ 0 60))
            (seqZ 0 60)) as Hall by decide_by_evaluation.
  intros Hx Hy.
  assert (x ∈ seqZ 0 60) as Hxin by (apply elem_of_seqZ; lia).
  assert (y ∈ seqZ 0 60) as Hyin by (apply elem_of_seqZ; lia).
  apply (proj1 (Forall_forall _ _) Hall) in Hxin.
  exact (proj1 (Forall_forall _ _) Hxin y Hyin).
Qed.

(** X22. [formatTime] never displays two different durations alike: on
    whole numbers of seconds that are not negative it is injective.  (The
    three shapes of its text, seconds with " sec", whole minutes with
    " min", and minutes, a colon and two digits of seconds, cannot be
    confused with one another.) *)
Theorem formatTime_is_injective (a b : Z) :
  0 <= a -> 0 <= b -> formatTime a = formatTime b -> a = b.
Proof.
  assert (forall n, 0 <= n ->
            exists digits rest,
              formatTime n = digits +:+ rest /\
              digitsOnly digits = true /\ startsWithoutDigit rest = true /\
              ((n < 60 /\ digits = pretty n /\ rest = " sec")
               \/ (60 <= n /\ Z.rem n 60 = 0 /\ digits = pretty (n `div` 60)
                   /\ rest = " min")
               \/ (60 <= n /\ Z.rem n 60 <> 0 /\ digits = pretty (n `div` 60)
                   /\ rest = ":" +:+ padStart 2 "0" (pretty (Z.rem n 60)))))
    as Hshape.
  { intros n Hn. unfold formatTime.
    destruct (n <? 60) eqn:Hsmall.
    - exists (pretty n), " sec".
      split; [done|]. split; [by apply pretty_Z_digits|]. split; [done|].
      left. repeat split; try done. lia.
    - cbv zeta. destruct (Z.rem n 60 =? 0) eqn:Hwhole.
      + exists (pretty (n `div` 60)), " min".
        split; [done|].
        split; [apply pretty_Z_digits; apply Z.div_pos; lia|].
        split; [done|]. right. left. repeat split; try done; lia.
      + exists (pretty (n `div` 60)),
          (":" +:+ padStart 2 "0" (pretty (Z.rem n 60))).
        split; [done|].
        split; [apply pretty_Z_digits; apply Z.div_pos; lia|].
        split; [done|]. right. right. repeat split; try done; lia. }
  intros Ha Hb Heq.
  destruct (Hshape a Ha) as (da & ra & Hfa & Hda & Hca & Hcasea).
  destruct (Hshape b Hb) as (db & rb & Hfb & Hdb & Hcb & Hcaseb).
  rewrite Hfa, Hfb in Heq.
  destruct (digits_split da db ra rb Hda Hdb Hca Hcb Heq) as (Hd & Hr).
  pose proof (Z.rem_mod_nonneg a 60 Ha ltac:(lia)) as Hrema.
  pose proof (Z.rem_mod_nonneg b 60 Hb ltac:(lia)) as Hremb.
  pose proof (Z.div_mod a 60 ltac:(lia)) as Hdiva.
  pose proof (Z.div_mod b 60 ltac:(lia)) as Hdivb.
  pose proof (Z.mod_pos_bound a 60 ltac:(lia)) as Hbounda.
  pose proof (Z.mod_pos_bound b 60 ltac:(lia)) as Hboundb.
  destruct Hcasea as [(? & -> & ->) | [(? & ? & -> & ->) | (? & ? & -> & ->)]];
    destruct Hcaseb as [(? & -> & ->) | [(? & ? & -> & ->) | (? & ? & -> & ->)]];
    try discriminate.
  - by apply (inj pretty).
  - apply (inj pretty) in Hd. lia.
  - apply (inj pretty) in Hd. injection Hr as Hr.
    apply padStart_seconds_inj in Hr; lia.
Qed.

(** ** The gestures keep the invariant of the profile map *)

Lemma storeInvariant_addFiles skips limit files : forall remaining added m st,
  storeInvariant env st ->
  storeInvariant env (addFiles env skips limit remaining files added m st).2.
Proof.
  induction files as [|file files IH]; intros remaining added m st Hinv;
    simpl; [done|].
  destruct (added >=? remaining); [done|].
  destruct (skips file); [by apply IH|].
  destruct (File.size file >? _); [by apply IH|].
  destruct (processImage env file) as [blob|]; [|done].
  apply IH. by apply (storeInvariant_perform (CallAddImage blob) st).
Qed.

Lemma storeInvariant_loadImages m st :
  storeInvariant env st -> storeInvariant env (loadImages m st).2.
Proof.
  intros Hinv. by rewrite loadImages_registered by apply (activeIsRegistered _ _ Hinv).
Qed.

Lemma storeInvariant_handleUpload upload m st :
  storeInvariant env st -> storeInvariant env (handleUpload env upload m st).2.
Proof.
  intros Hinv.
  pose proof (activeIsRegistered _ _ Hinv) as Hactive.
  assert (forall skips limit files,
            let profile := (modalProfile m st).1 in
            let remaining :=
              MAX_IMAGES_PER_PROFILE - JsArray.len (Profile.images profile) in
            let added :=
              addFiles env skips limit remaining files 0 (setError "" m) st in
            storeInvariant env
              (if added.1.1.1
               then (setError "File processing error" added.1.2, added.2)
               else loadImages added.1.2 added.2).2) as Hadded.
  { intros skips limit files profile remaining added.
    pose proof (storeInvariant_addFiles skips limit files remaining 0
                  (setError "" m) st Hinv) as Hloop.
    fold added in Hloop.
    destruct (added.1.1.1); [done | by apply storeInvariant_loadImages]. }
  pose proof (modalProfile_registered m st Hactive) as Hmodal.
  destruct upload as [files|files]; simpl.
  - specialize (Hadded droppedFileSkipped MAX_IMAGES files).
    unfold handleDroppedFiles. cbv zeta in Hadded.
    destruct (modalProfile m st) as [profile st1]. cbn [fst snd] in *.
    subst st1. destruct (_ <=? 0); [done|].
    by destruct (addFiles _ _ _ _ _ _ _ _) as [[[threw n] m1] st2].
  - unfold handleFileSelect. destruct files as [|file files]; [done|].
    specialize (Hadded selectedFileSkipped MAX_IMAGES_PER_PROFILE
                  (file :: files)).
    cbv zeta in Hadded.
    destruct (modalProfile m st) as [profile st1]. cbn [fst snd] in *.
    subst st1. destruct (_ <=? 0); [done|].
    by destruct (addFiles _ _ _ _ _ _ _ _) as [[[threw n] m1] st2].
Qed.

Lemma storeInvariant_handleProfileSwitch profileId m st :
  storeInvariant env st ->
  storeInvariant env (handleProfileSwitch profileId m st).2.
Proof.
  intros Hinv. rewrite handleProfileSwitch_state.
  by apply storeInvariant_setActiveProfile.
Qed.

Lemma storeInvariant_handle gesture m st :
  storeInvariant env st -> storeInvariant env (handle env gesture m st).2.
Proof.
  intros Hinv.
  pose proof (activeIsRegistered _ _ Hinv) as Hactive.
  destruct gesture
    as [profileId | now sfx newProfileName | profileId
       | profileId editingProfileName | upload | index | | draggedIndex toIndex
       | index | | | |];
    simpl; try done.
  - by apply storeInvariant_handleProfileSwitch.
  - unfold handleCreateProfile.
    destruct (bool_decide _); [done|]. destruct (_ >? 40); [done|].
    destruct (_ >=? MAX_PROFILES) eqn:Hfull; [done|].
    pose proof (storeInvariant_createProfile now sfx (trim newProfileName) st
                  Hinv) as Hcreated.
    destruct (createProfile _ _ _ st) as [[profile|] st1]; simpl in *; [|done].
    by apply storeInvariant_handleProfileSwitch, storeInvariant_save.
  - unfold handleDeleteProfile_onConfirm.
    pose proof (storeInvariant_deleteProfile profileId st Hinv) as Hdeleted.
    destruct (deleteProfile profileId st) as [deleted st1]. simpl in *.
    destruct (decide _).
    + by apply storeInvariant_handleProfileSwitch, storeInvariant_save.
    + by apply storeInvariant_save.
  - unfold handleRenameProfile.
    destruct (bool_decide _); [done|]. destruct (_ >? 40); [done|].
    pose proof (storeInvariant_renameProfile profileId
                  (trim editingProfileName) st Hinv) as Hrenamed.
    destruct (renameProfile _ _ st) as [renamed st1]. simpl in *.
    by apply storeInvariant_save.
  - by apply storeInvariant_handleUpload.
  - unfold handleDelete. cbv zeta.
    pose proof (storeInvariant_perform (CallDeleteImageAtIndex index) st _
                  Hinv eq_refl) as Hdeleted.
    pose proof (modalProfile_registered m _ (activeIsRegistered _ _ Hdeleted))
      as Hmodal.
    destruct (modalProfile m _) as [profile st2]. simpl in Hmodal. subst st2.
    by apply storeInvariant_loadImages.
  - apply (storeInvariant_perform CallDeleteAllImages st); done.
  - unfold handleImageDrop. destruct draggedIndex as [dragged|]; [|done].
    destruct (dragged =? toIndex); [done|]. cbv zeta.
    apply storeInvariant_loadImages.
    apply (storeInvariant_perform (CallMoveImage dragged toIndex) st); done.
  - by apply storeInvariant_handleSave.
Qed.

(** X23. No gesture in the gallery breaks the invariant of the profile
    map. Whatever the user does in the gallery (picks, creates, renames
    or deletes a profile, uploads, deletes, reorders or clears images,
    picks a slide, toggles a switch, saves), in any order and with any
    arguments, a state that satisfies the invariant is taken to a state
    that satisfies it; so does the clean-up that runs when the gallery
    is closed. *)
Theorem gestures_keep_the_store_invariant
    (gestures : list Gesture) (m : Modal) (st : State)
    (saved : bool) (init : InitialSettings.t) :
  storeInvariant env st ->
  storeInvariant env (handleAll env gestures m st).2 /\
  storeInvariant env (rollback saved init (handleAll env gestures m st).2).
Proof.
  intros Hinv.
  assert (storeInvariant env (handleAll env gestures m st).2) as Hall.
  { revert m st Hinv.
    induction gestures as [|gesture gestures IH]; intros m st Hinv; simpl;
      [done|].
    pose proof (storeInvariant_handle gesture m st Hinv) as Hstep.
    destruct (handle env gesture m st) as [m1 st1]. by apply IH. }
  split; [done|]. unfold rollback. destruct saved; [done|]. cbv zeta.
  apply storeInvariant_setActiveProfile.
  by apply (storeInvariant_same (handleAll env gestures m st).2).
Qed.

(** ** Uploads in turns *)

(** Taken one after the other, the turns of a run are the handler run to
    completion. *)
Lemma completeDrop_toNextFile remaining files : forall added m st fuel,
  (length files <= fuel)%nat ->
  completeDrop env fuel (toNextFile remaining files added m st) =
    Some (let '(threw, _, m1, st2) :=
            addFiles env droppedFileSkipped MAX_IMAGES remaining files added
              m st in
          if threw then (setError "File processing error" m1, st2)
          else loadImages m1 st2).
Proof.
  induction files as [|file rest IH]; intros added m st fuel Hfuel.
  - cbn [toNextFile addFiles]. destruct (loadImages m st). by destruct fuel.
  - cbn [toNextFile addFiles]. cbn [length] in Hfuel.
    destruct (added >=? remaining).
    { destruct (loadImages _ st). by destruct fuel. }
    destruct (droppedFileSkipped file); [apply IH; lia|].
    destruct (File.size file >? 8 * 1024 * 1024); [apply IH; lia|].
    destruct fuel as [|fuel]; [lia|].
    cbn [completeDrop]. unfold resumeDrop.
    cbn [DropRun.file DropRun.remaining DropRun.filesLeft DropRun.added].
    destruct (processImage env file) as [processedBlob|];
      [apply IH; lia | by destruct fuel].
Qed.

Lemma completeDrop_beginDrop files m st :
  completeDrop env (length files) (beginDrop files m st)
    = Some (handleDroppedFiles env files m st).
Proof.
  unfold beginDrop, handleDroppedFiles.
  destruct (modalProfile m st) as [profile st1].
  destruct (_ <=? 0); [by destruct files|].
  by apply completeDrop_toNextFile.
Qed.

End Properties.

(** * The properties on concrete runs *)

(** ** C1 *)



(** Two drops on a profile that holds 49 images. When the second starts
    while the first awaits its image, both find room for one image and
    the profile ends with 51 images; when the second starts after the
    first has ended, it is rejected and the profile ends with 50. *)
Example overlapping_drops_exceed_cap :
  JsArray.len (Profile.images (activeProfile almostFullGallery)) = 49 /\
  (fun result => JsArray.len (Profile.images (activeProfile result.2))) <$>
    overlappingDrops exampleBrowser droppedFiles droppedFiles galleryModal
      almostFullGallery
    = Some 51 /\
  JsArray.len
    (Profile.images
       (activeProfile
          (handleUploads exampleBrowser [Dropped droppedFiles; Dropped droppedFiles]
             galleryModal almostFullGallery).2))
    = 50.
Proof. split; [evaluate|]. split; evaluate. Qed.

(** ** C2 *)

(** C2, failing inputs. First run: on a gallery without images the stream
    is marked active by an invocation at 1000 ms and no later check
    demotes it, though no invocation follows for more than 7 minutes.
    Second run: an invocation at 1000 ms shows the image and stamps the
    time; replacement is then switched off; the invocation at 500000 ms
    marks the stream active without renewing the stamp, and the check one
    second later demotes it, 1000 ms after the last invocation. *)
Theorem C2_liveness_follows_stamp_not_triggers :
  (isStreamActive <$>
     runEvents [Trigger "live" 1000 []; Tick 421001; Tick 1000000] freshState)
    = Some true
  /\
  ((fun st => (isStreamActive st, lastSlideChangeTime st)) <$>
     runEvents [Trigger "live" 1000 []; Save replacementOff;
                Trigger "live" 500000 []] gallery1)
    = Some (true, 1000)
  /\
  (isStreamActive <$>
     runEvents [Trigger "live" 1000 []; Save replacementOff;
                Trigger "live" 500000 []; Tick 501000] gallery1)
    = Some false.
Proof. repeat split; evaluate. Qed.

(** ** C3 *)

(** C3, counterexample. With a single image in the gallery the invocation
    shows the custom image and records the time, yet it writes nothing to
    the durable store: the slide index is not persisted. Nor is it by the
    invocation that honours a manual override, here the pick of the third
    of three images. *)
Lemma C3_keeping_the_slide_persists_nothing :
  (let shown := UStr "data:image/jpeg;bytes,1" in
   let st' :=
     set_actualStreamImageUri shown
       (set_lastSlideChangeTime 1000 (set_isStreamActive true gallery1)) in
   showsCustomImage gallery1 /\
   getCustomThumbnail "live" 1000 [] gallery1 = Some (shown, st') /\
   store st' = store gallery1 /\
   ~ (exists index, persistsSlideIndex index gallery1 st'))
  /\
  (let st := savedGallery 2 true false in
   let shown := UStr "data:image/jpeg;bytes,3" in
   let st' :=
     set_actualStreamImageUri shown
       (set_lastSlideChangeTime 1000
          (set_manualSlideChange false (set_isStreamActive true st))) in
   showsCustomImage st /\
   manualSlideChange st = true /\
   getCustomThumbnail "live" 1000 [] st = Some (shown, st') /\
   store st' = store st /\
   ~ (exists index, persistsSlideIndex index st st')).
Proof.
  cbv zeta. split.
  - split; [shows_custom_image|]. split; [evaluate|]. split; [evaluate|].
    intros (index & data & Hstore & _).
    apply (f_equal (fun s => length (DataStore.history s))) in Hstore.
    vm_compute in Hstore. discriminate Hstore.
  - split; [shows_custom_image|]. split; [evaluate|].
    split; [evaluate|]. split; [evaluate|].
    intros (index & data & Hstore & _).
    apply (f_equal (fun s => length (DataStore.history s))) in Hstore.
    vm_compute in Hstore. discriminate Hstore.
Qed.

Lemma C3_witness :
  exists ret st',
    getCustomThumbnail "live" 1000 [] (savedGallery 0 true false)
      = Some (ret, st') /\
    lastSlideChangeTime st' = 1000 /\
    exists nextIndex,
      persistsSlideIndex nextIndex (savedGallery 0 true false) st' /\
      currentSlideIndex st' = nextIndex.
Proof.
  destruct (C3_shown_image_stamps_time_and_advance_persists "live" 1000 []
              (savedGallery 0 true false))
    as (ret & st' & Hrun & Hstamp & _ & _ & Hadvance).
  - shows_custom_image.
  - intros _ Hrandom. vm_compute in Hrandom. discriminate Hrandom.
  - exists ret, st'. split; [exact Hrun|]. split; [exact Hstamp|].
    destruct Hadvance as (nextIndex & _ & _ & Hpersists & Hregistered).
    + repeat split; evaluate.
    + exists nextIndex. split; [exact Hpersists|].
      apply Hregistered.
      unfold activeRegistered. vm_compute. eexists. reflexivity.
Defined.

(** ** C4 *)

(** C4, counterexample. Deleting the only image leaves no image and the
    index 0, which is not inside the empty range [0, 0). And from a state
    loaded with the index 7 over three images, a deletion and a move that
    are both rejected leave the index at 7, outside [0, 3). *)
Lemma C4_index_outside_range :
  (let st := moveImage 0 0 (deleteImageAtIndex 0 gallery1) in
   JsArray.len (Profile.images (activeProfile st)) = 0 /\
   Profile.currentIndex (activeProfile st) = 0 /\
   ~ (0 <= Profile.currentIndex (activeProfile st)
      < JsArray.len (Profile.images (activeProfile st))))
  /\
  (let st :=
     moveImage 1 1
       (deleteImageAtIndex 9 (start exampleBrowser (initialState staleIndexStore))) in
   JsArray.len (Profile.images (activeProfile st)) = 3 /\
   Profile.currentIndex (activeProfile st) = 7 /\
   ~ (0 <= Profile.currentIndex (activeProfile st)
      < JsArray.len (Profile.images (activeProfile st)))).
Proof.
  cbv zeta. split; (split; [evaluate|]); (split; [evaluate|]).
  - intros [_ H]. vm_compute in H. discriminate H.
  - intros [_ H]. vm_compute in H. discriminate H.
Qed.

Lemma C4_witness :
  let st := moveImage 0 1 (deleteImageAtIndex 2 (savedGallery 2 false false)) in
  0 <= Profile.currentIndex (activeProfile st)
    < JsArray.len (Profile.images (activeProfile st)).
Proof.
  cbv zeta.
  assert (indexInBounds (activeProfile (savedGallery 2 false false))) as Hinv
    by (split; [evaluate | intros _; evaluate]).
  destruct (C4_delete_then_move_keeps_index_in_bounds
              (savedGallery 2 false false) 2 0 1 Hinv) as (_ & _ & Hrange & _).
  apply Hrange. evaluate.
Defined.

(** ** C5 *)



(** ** C6 *)

(** C6, counterexample. Three images, sequential order, slideshow on,
    index 0. When the first slide has been picked again in the gallery,
    so that a manual override is pending, three invocations yield the
    indices 0, 1, 2; when the gallery was saved with replacement off,
    they yield 0, 0, 0. Neither is 1, 2, 0. *)
Lemma C6_override_or_replacement_off_breaks_the_cycle :
  (let st := handleSave firstSlide (savedGallery 1 true false) in
   Settings.slideshowEnabled (settings st) = true /\
   Settings.slideshowRandom (settings st) = false /\
   JsArray.len (Profile.images (activeProfile st)) = 3 /\
   currentSlideIndex st = 0 /\
   manualSlideChange st = true /\
   fst <$> runTriggers
             [("live", 1000, []); ("live", 301000, []); ("live", 601000, [])] st
     = Some [0; 1; 2])
  /\
  (let st := handleSave firstSlideOff gallery3 in
   Settings.slideshowEnabled (settings st) = true /\
   Settings.slideshowRandom (settings st) = false /\
   JsArray.len (Profile.images (activeProfile st)) = 3 /\
   currentSlideIndex st = 0 /\
   Settings.replaceEnabled (settings st) = false /\
   fst <$> runTriggers
             [("live", 1000, []); ("live", 301000, []); ("live", 601000, [])] st
     = Some [0; 0; 0]).
Proof. cbv zeta. split; do 5 (split; [evaluate|]); evaluate. Qed.

Lemma sequentialSlideshow_savedGallery :
  sequentialSlideshow 3 (savedGallery 0 true false).
Proof.
  split; [shows_custom_image|].
  do 5 (split; [evaluate|]).
  exists (activeProfile (savedGallery 0 true false)).
  split; evaluate.
Defined.

Lemma C6_witness :
  exists st',
    runTriggers [("live", 1000, []); ("live", 301000, []); ("live", 601000, [])]
      (savedGallery 0 true false) = Some ([1; 2; 0], st').
Proof.
  destruct (C6_sequential_slideshow_cycles 3 (savedGallery 0 true false))
    as (_ & _ & Hscenario).
  - lia.
  - apply sequentialSlideshow_savedGallery.
  - apply Hscenario; reflexivity.
Defined.

(** ** C7 *)

(** C7, counterexample. Random order, slideshow on, three images. With
    the second slide picked in the gallery, the invocation honours the
    override: index 1 before it, index 1 after it, though the draws on
    offer are 2 and 0. And two successive invocations select the same index when the
    gallery is saved in between, on the third and then on the second
    slide again: the first invocation goes from 0 to 1, the second stays
    on 1. *)
Lemma C7_override_selects_the_index_again :
  (let st := savedGallery 1 true true in
   Settings.slideshowEnabled (settings st) = true /\
   Settings.slideshowRandom (settings st) = true /\
   JsArray.len (Profile.images (activeProfile st)) = 3 /\
   currentSlideIndex st = 1 /\
   manualSlideChange st = true /\
   (fun result => (result.1, currentSlideIndex result.2)) <$>
     getCustomThumbnail "live" 1000 [2; 0] st
     = Some (UStr "data:image/jpeg;bytes,2", 1))
  /\
  (let st := savedGallery 0 true true in
   currentSlideIndex <$> runEvents [Trigger "live" 1000 [1]] st = Some 1 /\
   currentSlideIndex <$>
     runEvents [Trigger "live" 1000 [1]; Save pickThird; Save pickSecond;
                Trigger "live" 301000 [2; 0]] st
     = Some 1).
Proof.
  cbv zeta. split.
  - do 5 (split; [evaluate|]). evaluate.
  - split; evaluate.
Qed.

Lemma C7_witness :
  is_Some (getCustomThumbnail "live" 1000 [0; 0; 2; 1] (savedGallery 0 true true)).
Proof.
  destruct (C7_random_never_repeats_previous "live" 1000 [0; 0; 2; 1]
              (savedGallery 0 true true)) as (Hreturns & _).
  - shows_custom_image.
  - repeat split; evaluate.
  - evaluate.
  - apply Hreturns. decide_by_evaluation.
Defined.

(** In random mode an index may come back after two invocations. *)
Example random_may_return_after_two :
  fst <$> runTriggers [("live", 1000, [1]); ("live", 301000, [0])]
            (savedGallery 0 true true)
  = Some [1; 0].
Proof. evaluate. Qed.

(** ** C8 *)

Lemma C8_witness :
  exists st',
    getCustomThumbnail "live" 1000 [] freshState = Some (UStr "live", st') /\
    isStreamActive st' = true /\
    actualStreamImageUri st' = UNull.
Proof.
  destruct (C8_disabled_or_empty_returns_original "live" 1000 [] freshState)
    as (st' & Hrun & Hactive & Hnull & _).
  - right. evaluate.
  - by exists st'.
Defined.

(** ** C9 *)

Lemma C9_witness :
  let st' := loadProfilesFromDataStore exampleBrowser (initialState legacyStore) in
  activeProfile st' =
    Profile.mk DEFAULT_PROFILE_ID "Default"
      [Blob.mk "image/jpeg" [255; 216; 255]; Blob.mk "image/png" [137; 80]]
      [Some "data:image/jpeg;bytes,255,216,255"; Some "data:image/png;bytes,137,80"]
      1
  /\ DataStore.get DATASTORE_KEY_SLIDESHOW (store st') = None
  /\ DataStore.get DATASTORE_KEY_INDEX (store st') = None
  /\ DataStore.get DATASTORE_KEY (store st') = None.
Proof.
  cbv zeta.
  destruct (C9_load_migrates_legacy_storage exampleBrowser
              (initialState legacyStore)) as (Hmigrate & _).
  - intros data H. vm_compute in H. discriminate H.
  - specialize (Hmigrate
                  (SlideshowData.mk
                     [StoredImageData.mk "image/jpeg" [255; 216; 255];
                      StoredImageData.mk "image/png" [137; 80]])).
    cbv zeta in Hmigrate.
    destruct Hmigrate as (_ & _ & Hactive & _ & _ & _ & Hs & Hi & Hk & _).
    + split; [evaluate | discriminate].
    + rewrite Hactive. split; [evaluate|]. by repeat split.
Defined.

(** ** C10 *)

Lemma C10_witness :
  deleteImageAtIndex 7 gallery3 = gallery3 /\ moveImage 1 1 gallery3 = gallery3.
Proof.
  destruct (C10_rejected_delete_and_move_are_noops gallery3 7 1 1)
    as (Hdelete & Hmove & _ & _ & _ & _ & _ & Hsame).
  - right. evaluate.
  - by left.
  - assert (activeRegistered gallery3) as Hregistered
      by (unfold activeRegistered; vm_compute; eexists; reflexivity).
    split.
    + exact (eq_trans Hdelete (Hsame Hregistered)).
    + exact (eq_trans Hmove (Hsame Hregistered)).
Defined.

(** * The further properties on concrete runs *)

Lemma storeInvariant_gallery3 : storeInvariant exampleBrowser gallery3.
Proof. store_invariant. Defined.

Lemma galleryInvariant_gallery3 : galleryInvariant gallery3.
Proof. gallery_invariant. Defined.

Lemma storeInvariant_twoProfiles : storeInvariant exampleBrowser twoProfiles.
Proof. store_invariant. Defined.


Lemma calls_keep_store_invariant_witness :
  performAll exampleBrowser exampleCalls gallery3 = Some afterExampleCalls /\
  storeInvariant exampleBrowser afterExampleCalls.
Proof.
  assert (performAll exampleBrowser exampleCalls gallery3
          = Some afterExampleCalls) as Hrun by evaluate.
  split; [exact Hrun|].
  destruct (calls_keep_store_invariant exampleBrowser emptyStore exampleCalls
              gallery3 afterExampleCalls) as [_ Hkept].
  exact (Hkept storeInvariant_gallery3 Hrun).
Defined.

Lemma calls_keep_gallery_invariant_witness :
  storeInvariant exampleBrowser (moveImage 0 2 gallery3) /\
  galleryInvariant (moveImage 0 2 gallery3).
Proof.
  destruct (calls_keep_gallery_invariant exampleBrowser emptyStore
              (CallMoveImage 0 2) gallery3 (moveImage 0 2 gallery3))
    as [_ Hkept].
  exact (Hkept storeInvariant_gallery3 galleryInvariant_gallery3 I eq_refl).
Defined.

Lemma thumbnail_is_the_image_at_the_current_index_witness :
  exists ret st' blob,
    getCustomThumbnail "live" 1000 [] (savedGallery 0 true false)
      = Some (ret, st') /\
    ret = UStr (blobToDataUrl exampleBrowser blob) /\
    Profile.images (activeProfile (savedGallery 0 true false))
      !! Z.to_nat (currentSlideIndex st') = Some blob.
Proof.
  destruct (thumbnail_is_the_image_at_the_current_index exampleBrowser
              "live" 1000 [] (savedGallery 0 true false))
    as (ret & st' & blob & Hrun & Hret & _ & _ & _ & Hblob).
  - store_invariant.
  - gallery_invariant.
  - shows_custom_image.
  - constructor.
  - intros _ Hrandom. vm_compute in Hrandom. discriminate Hrandom.
  - exists ret, st', blob. split; [exact Hrun|]. split; [exact Hret|].
    exact Hblob.
Defined.

Lemma gallery_mutations_are_persisted_witness :
  persisted (addImage exampleBrowser (picture 4) gallery3) /\
  persisted (deleteImageAtIndex 1 gallery3).
Proof.
  destruct (gallery_mutations_are_persisted exampleBrowser (picture 4) []
              1 0 2 galleryModal gallery3)
    as (Hadd & _ & _ & _ & _ & Hdelete & _).
  - active_registered.
  - split; [exact Hadd|]. apply Hdelete. split; evaluate.
Defined.

Lemma restart_restores_what_was_persisted_witness :
  profiles (start exampleBrowser (stop gallery3)) = profiles gallery3 /\
  cachedImages (start exampleBrowser (initialState (store gallery3)))
    = [picture 1; picture 2; picture 3].
Proof.
  destruct (restart_restores_what_was_persisted exampleBrowser gallery3)
    as [(Hprofiles & _) (_ & _ & Hcache & _)].
  - exact storeInvariant_gallery3.
  - unfold persisted. evaluate.
  - unfold blobsAreBytes. decide_by_evaluation.
  - evaluate.
  - split; [exact Hprofiles|]. exact (eq_trans Hcache eq_refl).
Defined.

Lemma load_reads_the_multi_profile_record_witness :
  store (loadProfilesFromDataStore exampleBrowser (initialState staleIndexStore))
    = staleIndexStore /\
  activeProfileId
    (loadProfilesFromDataStore exampleBrowser (initialState staleIndexStore))
    = DEFAULT_PROFILE_ID.
Proof.
  destruct (load_reads_the_multi_profile_record exampleBrowser
              (initialState staleIndexStore)
              (StoredProfilesData.mk
                 [StoredProfile.mk DEFAULT_PROFILE_ID "Default"
                    [StoredImageData.mk "image/jpeg" [1];
                     StoredImageData.mk "image/jpeg" [2];
                     StoredImageData.mk "image/jpeg" [3]] 7]
                 DEFAULT_PROFILE_ID))
    as (Hstore & Hactive & _).
  - evaluate.
  - discriminate.
  - split; [exact Hstore | exact Hactive].
Defined.

Lemma createProfile_respects_the_limit_witness :
  createProfile 1000 "k3x9q2m1p" "Work" gallery3 =
    (Some (Profile.mk workProfileId "Work" [] [] 0), twoProfiles) /\
  JsMap.size (profiles twoProfiles) <= MAX_PROFILES.
Proof.
  destruct (createProfile_respects_the_limit 1000 "k3x9q2m1p" "Work" gallery3)
    as (_ & _ & Hroom).
  destruct Hroom as (Hcreated & _ & _ & Hsize & _); [evaluate|].
  split; [exact (eq_trans Hcreated eq_refl) | exact Hsize].
Defined.

Lemma deleteProfile_spares_images_and_default_witness :
  JsMap.get workProfileId (profiles (deleteProfile workProfileId twoProfiles).2)
    = None /\
  (deleteProfile DEFAULT_PROFILE_ID twoProfiles).2 = twoProfiles.
Proof.
  destruct (deleteProfile_spares_images_and_default workProfileId twoProfiles)
    as (_ & _ & Hdeleted & _).
  destruct (deleteProfile_spares_images_and_default DEFAULT_PROFILE_ID
              twoProfiles) as (_ & Hrefused & _).
  split.
  - destruct Hdeleted as (Hgone & _); [evaluate | exact Hgone].
  - apply Hrefused. evaluate.
Defined.

Lemma renameProfile_changes_only_the_name_witness :
  JsMap.get workProfileId
    (profiles (renameProfile workProfileId "Games" twoProfiles).2)
    = Some (Profile.mk workProfileId "Games" [] [] 0) /\
  renameProfile "nobody" "Games" twoProfiles = (false, twoProfiles).
Proof.
  destruct (renameProfile_changes_only_the_name workProfileId "Games"
              twoProfiles) as (_ & Hrenamed).
  destruct (renameProfile_changes_only_the_name "nobody" "Games" twoProfiles)
    as (Hmissing & _).
  split.
  - destruct (Hrenamed (Profile.mk workProfileId "Work" [] [] 0))
      as (_ & Hget & _); [evaluate | exact Hget].
  - apply Hmissing. evaluate.
Defined.

Lemma moveImage_swaps_and_selection_follows_witness :
  Profile.images (activeProfile (moveImage 0 2 gallery3))
    !! Z.to_nat 2 = Some (picture 1) /\
  profiles (moveImage 0 2 (moveImage 0 2 gallery3)) = profiles gallery3.
Proof.
  destruct (moveImage_swaps_and_selection_follows exampleBrowser 0 2 gallery3)
    as (_ & Hto & _ & _ & _ & _ & Hback).
  - exact storeInvariant_gallery3.
  - lia.
  - split; evaluate.
  - split; evaluate.
  - split; [exact (eq_trans Hto eq_refl) | exact Hback].
Defined.

Lemma deleteImageAtIndex_removes_one_image_witness :
  Profile.images (activeProfile (deleteImageAtIndex 1 gallery3))
    = [picture 1; picture 3].
Proof.
  destruct (deleteImageAtIndex_removes_one_image 1 gallery3)
    as (Himages & _).
  - active_registered.
  - split; evaluate.
  - exact (eq_trans Himages eq_refl).
Defined.

Lemma addImage_then_delete_restores_witness :
  profiles (deleteImageAtIndex 3 (addImage exampleBrowser (picture 4) gallery3))
    = profiles gallery3.
Proof.
  destruct (addImage_then_delete_restores exampleBrowser (picture 4) gallery3)
    as (_ & Hprofiles & _).
  - exact storeInvariant_gallery3.
  - split; evaluate.
  - exact Hprofiles.
Defined.

Lemma deleteAllImages_leaves_the_original_thumbnail_witness :
  getImageCount (deleteAllImages gallery3) = 0 /\
  exists st2,
    getCustomThumbnail "live" 1000 [] (deleteAllImages gallery3)
      = Some (UStr "live", st2).
Proof.
  destruct (deleteAllImages_leaves_the_original_thumbnail "live" 1000 []
              gallery3)
    as (_ & _ & Hcount & _ & _ & _ & st2 & Hrun & _).
  - active_registered.
  - split; [exact Hcount|]. exists st2. exact Hrun.
Defined.


Lemma handleCreateProfile_validates_witness :
  handleCreateProfile 1000 "k3x9q2m1p" "   " galleryModal gallery3
    = (setError "Enter profile name" galleryModal, gallery3) /\
  JsMap.get workProfileId
    (profiles
       (handleCreateProfile 1000 "k3x9q2m1p" "  Work " galleryModal gallery3).2)
    = Some (Profile.mk workProfileId "Work" [] [] 0).
Proof.
  destruct (handleCreateProfile_validates 1000 "k3x9q2m1p" "   "
              galleryModal gallery3) as (Hblank & _).
  destruct (handleCreateProfile_validates 1000 "k3x9q2m1p" "  Work "
              galleryModal gallery3) as (_ & _ & _ & Hcreated).
  split.
  - apply Hblank. evaluate.
  - destruct Hcreated as (_ & _ & Hget & _);
      [evaluate | evaluate | evaluate | active_registered |].
    exact (eq_trans Hget eq_refl).
Defined.

Lemma handleRenameProfile_validates_and_persists_witness :
  persisted
    (handleRenameProfile workProfileId " Games " galleryModal twoProfiles).2.
Proof.
  destruct (handleRenameProfile_validates_and_persists workProfileId " Games "
              galleryModal twoProfiles) as (_ & _ & Hrenamed).
  destruct (Hrenamed ltac:(evaluate) ltac:(evaluate) ltac:(active_registered)
              (Profile.mk workProfileId "Work" [] [] 0) ltac:(evaluate))
    as (_ & _ & _ & _ & Hpersisted).
  exact Hpersisted.
Defined.

Lemma handleDeleteProfile_asks_when_deletion_succeeds_witness :
  (handleDeleteProfile workProfileId galleryModal twoProfiles).2 = true /\
  JsMap.get workProfileId
    (profiles
       (handleDeleteProfile_onConfirm workProfileId galleryModal twoProfiles).2)
    = None.
Proof.
  destruct (handleDeleteProfile_asks_when_deletion_succeeds exampleBrowser
              workProfileId galleryModal twoProfiles)
    as (Hasked & _ & _ & Hconfirmed).
  assert ((handleDeleteProfile workProfileId galleryModal twoProfiles).2 = true)
    as Hyes by exact (eq_trans Hasked eq_refl).
  split; [exact Hyes|].
  destruct (Hconfirmed storeInvariant_twoProfiles eq_refl Hyes) as (Hgone & _).
  exact Hgone.
Defined.

Lemma gallery_edits_reset_the_pending_index_witness :
  pendingIndex (handleDelete 0 slideshowModal gallery3).1 = 0 /\
  (handleImageDrop (Some 1) 1 slideshowModal gallery3)
    = (slideshowModal, gallery3).
Proof.
  destruct (gallery_edits_reset_the_pending_index 0 1 (Some 1)
              slideshowModal gallery3) as (_ & Hdeleted & Hdropped).
  - active_registered.
  - evaluate.
  - split; [|exact Hdropped].
    exact (eq_trans (f_equal pendingIndex Hdeleted) eq_refl).
Defined.

Lemma getNextIndex_is_where_the_slideshow_goes_witness :
  getNextIndex ["a"; "b"; "c"] slideshowModal = 0.
Proof.
  destruct (getNextIndex_is_where_the_slideshow_goes exampleBrowser
              ["a"; "b"; "c"] slideshowModal gallery3 "live" "live" 1000 301000
              [] [])
    as (Hnext & _).
  - exact storeInvariant_gallery3.
  - exact galleryInvariant_gallery3.
  - evaluate.
  - evaluate.
  - split; evaluate.
  - reflexivity.
  - reflexivity.
  - reflexivity.
  - exact (eq_trans Hnext eq_refl).
Defined.


Lemma checks_lower_the_flag_seven_minutes_after_the_stamp_witness :
  exists ret st1,
    getCustomThumbnail "live" 1000 [] gallery1 = Some (ret, st1) /\
    isStreamActive (checks [2000; 421000] st1) = true.
Proof.
  destruct (checks_lower_the_flag_seven_minutes_after_the_stamp
              [2000; 421000] gallery1 "live" 1000 [])
    as (_ & Hshown).
  destruct Hshown as (ret & st1 & Hrun & _ & Hactive).
  - shows_custom_image.
  - lia.
  - intros (Hmany & _) _. vm_compute in Hmany. discriminate Hmany.
  - exists ret, st1. split; [exact Hrun|].
    apply Hactive. repeat constructor; lia.
Defined.

Lemma formatTime_is_injective_witness :
  formatTime 125 = "2:05" /\ formatTime 61 <> formatTime 3660.
Proof.
  split; [reflexivity|].
  intros Hsame.
  pose proof (formatTime_is_injective 61 3660 ltac:(lia) ltac:(lia) Hsame)
    as Heq.
  discriminate Heq.
Defined.

Lemma gestures_keep_the_store_invariant_witness :
  storeInvariant exampleBrowser
    (handleAll exampleBrowser exampleGestures galleryModal gallery3).2.
Proof.
  destruct (gestures_keep_the_store_invariant exampleBrowser exampleGestures
              galleryModal gallery3 false (initialSettingsRef gallery3)
              storeInvariant_gallery3) as (Hkept & _).
  exact Hkept.
Defined.
